(** * Fivegram: the mapping and synchronisation engine

    A shallow embedding of the metadata codec, the mapping store, the
    message-index store and the user-to-topic relay of Fivegram
    (metadataManager.js, banManager.js, topicHandler.js, messageHandler.js),
    followed by the properties of the specification stated over it.

    Conventions of the embedding.
    - A JavaScript number that holds an id is an integer of [Z]; [parseInt]
      may also produce [NaN], hence the type [JS.num].  Integers are printed
      in plain decimal and read back digit by digit; this is what JavaScript
      does for the safe integers, those below 2^53 in absolute value
      ([JS.isSafeInteger]).  Beyond them a JavaScript number is rounded, and
      printed in exponent form from 10^21 on; the properties that depend
      on the digits of an id are therefore stated for safe ids
      ([safeIds], [safeLink]).
    - A JavaScript string is a [string]; one character stands for one code
      unit.
    - A JavaScript [Map] is an association list in insertion order whose keys
      are pairwise distinct ([JsMap.wf]).
    - Objects mutated in place (the metadata structure, the key-value store)
      are threaded explicitly through the functions that mutate them. *)

From Stdlib Require Import ZArith List String Ascii Bool Lia.
Import ListNotations.
Local Open Scope Z_scope.

(* ================================================================== *)
(** ** JavaScript primitives used by the code *)

Module JS.

(** The result of [parseInt]: [NaN] or an integer. *)
Inductive num : Type :=
| NaN
| Num (z : Z).

(** Truthiness of an id in a condition such as [if (topicId)]. *)
Definition truthy (z : Z) : bool := negb (z =? 0).

(** Truthiness of a string: the empty string is falsy. *)
Definition nonempty (s : string) : bool :=
  match s with EmptyString => false | String _ _ => true end.

Definition is_digit (c : ascii) : bool :=
  let n := nat_of_ascii c in Nat.leb 48 n && Nat.leb n 57.

Definition digit_val (c : ascii) : Z := Z.of_nat (nat_of_ascii c) - 48.

Definition digit_char (d : Z) : ascii := ascii_of_nat (Z.to_nat (48 + d)).

(** White space skipped by [parseInt] (code units below 256). *)
Definition is_space (c : ascii) : bool :=
  let n := nat_of_ascii c in
  (Nat.leb 9 n && Nat.leb n 13) || Nat.eqb n 32 || Nat.eqb n 160.

Fixpoint skip_spaces (s : string) : string :=
  match s with
  | String c r => if is_space c then skip_spaces r else s
  | EmptyString => s
  end.

(** The longest prefix of decimal digits, accumulated in base ten;
    [None] when no digit has been read. *)
Fixpoint read_digits (s : string) (acc : option Z) : option Z :=
  match s with
  | String c r =>
      if is_digit c
      then read_digits r
             (Some (10 * match acc with Some a => a | None => 0 end
                    + digit_val c))
      else acc
  | EmptyString => acc
  end.

(** [parseInt(s, 10)].  The digits are accumulated exactly; JavaScript
    agrees as long as the value is a safe integer. *)
Definition parseInt (s : string) : num :=
  let s1 := skip_spaces s in
  let '(neg, s2) :=
    match s1 with
    | String "-" r => (true, r)
    | String "+" r => (false, r)
    | _ => (false, s1)
    end in
  match read_digits s2 None with
  | None => NaN
  | Some n => Num (if neg then - n else n)
  end.

(** Decimal digits of a non-negative integer, most significant first. *)
Fixpoint digits (fuel : nat) (n : Z) (acc : string) : string :=
  match fuel with
  | O => acc
  | S f =>
      let acc' := String (digit_char (n mod 10)) acc in
      if n <? 10 then acc' else digits f (n / 10) acc'
  end.

Definition nat_digits (n : Z) : string :=
  digits (S (Z.to_nat (Z.log2 n))) n EmptyString.

(** [n.toString()] and [`${n}`] for an integer: plain decimal, which is
    what JavaScript prints for a safe integer. *)
Definition Z_toString (z : Z) : string :=
  if z <? 0 then String "-" (nat_digits (- z)) else nat_digits z.

(** [Number.isSafeInteger(z)] for an integer: at most 2^53 - 1 in absolute
    value.  On these integers [Z_toString] and [parseInt] are the
    JavaScript functions. *)
Definition isSafeInteger (z : Z) : bool :=
  Z.abs z <=? 9007199254740991.

Definition num_toString (n : num) : string :=
  match n with
  | NaN => "NaN"
  | Num z => Z_toString z
  end.

(** [s.split(sep)] for a one-character separator. *)
Fixpoint split (sep : ascii) (s : string) : list string :=
  match s with
  | EmptyString => [EmptyString]
  | String c r =>
      if Ascii.eqb c sep then EmptyString :: split sep r
      else match split sep r with
           | h :: t => String c h :: t
           | [] => [String c EmptyString]
           end
  end.

(** [a.join(sep)]. *)
Fixpoint join (sep : string) (l : list string) : string :=
  match l with
  | [] => EmptyString
  | x :: r =>
      match r with
      | [] => x
      | _ :: _ => (x ++ sep ++ join sep r)%string
      end
  end.

(** [s.startsWith(c)] for a one-character prefix. *)
Definition startsWith (c : ascii) (s : string) : bool :=
  match s with
  | String c' _ => Ascii.eqb c' c
  | EmptyString => false
  end.

(** [s.slice(1)]. *)
Definition slice1 (s : string) : string :=
  match s with
  | String _ r => r
  | EmptyString => EmptyString
  end.

(** [s.slice(0, n)]. *)
Definition slice0 (n : nat) (s : string) : string := substring 0 n s.

(** [s.replace(/[;:]/g, '')]. *)
Fixpoint strip_delims (s : string) : string :=
  match s with
  | EmptyString => EmptyString
  | String c r =>
      if Ascii.eqb c ";" || Ascii.eqb c ":" then strip_delims r
      else String c (strip_delims r)
  end.

(** [hay.includes(needle)]. *)
Fixpoint includes (needle hay : string) : bool :=
  prefix needle hay ||
  match hay with
  | String _ r => includes needle r
  | EmptyString => false
  end.

(** [a.includes(x)] and [a.indexOf(x) !== -1] on an array of strings. *)
Definition array_includes (x : string) (a : list string) : bool :=
  existsb (String.eqb x) a.

(** [a.splice(a.indexOf(x), 1)] when [x] occurs: the first occurrence
    is removed. *)
Fixpoint remove_first (x : string) (a : list string) : list string :=
  match a with
  | [] => []
  | y :: r => if String.eqb y x then r else y :: remove_first x r
  end.

(** [a.slice(-n)]: the last [n] elements. *)
Definition slice_last {A : Type} (n : nat) (a : list A) : list A :=
  skipn (List.length a - n) a.

End JS.

(* ================================================================== *)
(** ** JavaScript [Map] with integer keys, in insertion order *)

Module JsMap.

Definition t (V : Type) : Type := list (Z * V).

Section Ops.
Context {V : Type}.

Definition empty : t V := [].

Fixpoint get (m : t V) (k : Z) : option V :=
  match m with
  | [] => None
  | (k', v) :: r => if k' =? k then Some v else get r k
  end.

Definition has (m : t V) (k : Z) : bool :=
  match get m k with Some _ => true | None => false end.

(** [m.set(k, v)]: an existing key keeps its position, a new key goes
    last. *)
Fixpoint set (m : t V) (k : Z) (v : V) : t V :=
  match m with
  | [] => [(k, v)]
  | (k', v') :: r =>
      if k' =? k then (k, v) :: r else (k', v') :: set r k v
  end.

Definition delete (m : t V) (k : Z) : t V :=
  filter (fun kv => negb (fst kv =? k)) m.

Definition keys (m : t V) : list Z := map fst m.

Definition size (m : t V) : nat := List.length m.

(** The representation invariant of a [Map]: keys are distinct. *)
Definition wf (m : t V) : Prop := NoDup (keys m).
End Ops.

End JsMap.

(* ================================================================== *)
(** ** The metadata structure and the mapping store (metadataManager.js) *)

Definition MAX_TEXT_LENGTH : nat := 4096.

Record MetaData : Type := mkMetaData {
  superGroupChatId : option JS.num;
  topicToFromChat : JsMap.t Z;
  fromChatToTopic : JsMap.t Z;
  bannedTopics : list string;
  topicToComment : JsMap.t string;
  fromChatToComment : JsMap.t string
}.

Definition emptyMetaData : MetaData :=
  mkMetaData None JsMap.empty JsMap.empty [] JsMap.empty JsMap.empty.

(** [isTopicBanned] (banManager.js). *)
Definition isTopicBanned (d : MetaData) (topicId : Z) : bool :=
  JS.array_includes (JS.Z_toString topicId) (bannedTopics d).

(** [upsertMapping(data, topicId, fromChatId, commentName)]; the optional
    label is [None] when the argument is omitted. *)
Definition upsertMapping (d : MetaData) (topicId fromChatId : Z)
    (commentName : option string) : MetaData :=
  let t2f := JsMap.set (topicToFromChat d) topicId fromChatId in
  let f2t := JsMap.set (fromChatToTopic d) fromChatId topicId in
  match commentName with
  | Some c =>
      if JS.nonempty c
      then mkMetaData (superGroupChatId d) t2f f2t (bannedTopics d)
             (JsMap.set (topicToComment d) topicId c)
             (JsMap.set (fromChatToComment d) fromChatId c)
      else mkMetaData (superGroupChatId d) t2f f2t (bannedTopics d)
             (topicToComment d) (fromChatToComment d)
  | None =>
      mkMetaData (superGroupChatId d) t2f f2t (bannedTopics d)
        (topicToComment d) (fromChatToComment d)
  end.

(** [markBan(data, topicId, banned)]. *)
Definition markBan (d : MetaData) (topicId : Z) (banned : bool) : MetaData :=
  let topicKey := JS.Z_toString topicId in
  let present := JS.array_includes topicKey (bannedTopics d) in
  let b1 := if banned && negb present
            then bannedTopics d ++ [topicKey] else bannedTopics d in
  let b2 := if negb banned && present
            then JS.remove_first topicKey b1 else b1 in
  mkMetaData (superGroupChatId d) (topicToFromChat d) (fromChatToTopic d)
    b2 (topicToComment d) (fromChatToComment d).

(** [removeMapping(data, topicId)]. *)
Definition removeMapping (d : MetaData) (topicId : Z) : MetaData :=
  let fromChatId := JsMap.get (topicToFromChat d) topicId in
  let '(f2t, f2c) :=
    match fromChatId with
    | Some u =>
        if JS.truthy u
        then (JsMap.delete (fromChatToTopic d) u,
              JsMap.delete (fromChatToComment d) u)
        else (fromChatToTopic d, fromChatToComment d)
    | None => (fromChatToTopic d, fromChatToComment d)
    end in
  mkMetaData (superGroupChatId d)
    (JsMap.delete (topicToFromChat d) topicId)
    f2t
    (JS.remove_first (JS.Z_toString topicId) (bannedTopics d))
    (JsMap.delete (topicToComment d) topicId)
    f2c.

(** One iteration of the decoding loop of [parseMetadataText]: an entry
    whose topic id or user chat id does not parse is skipped ([continue]). *)
Definition parseEntry (acc : MetaData) (item : string) : MetaData :=
  let segments := JS.split ":" item in
  match JS.parseInt (nth 0 segments EmptyString) with
  | JS.NaN => acc
  | JS.Num topicId =>
      let userChunk0 := nth 1 segments EmptyString in
      let banned := JS.startsWith "b" userChunk0 in
      let userChunk := if banned then JS.slice1 userChunk0 else userChunk0 in
      match JS.parseInt userChunk with
      | JS.NaN => acc
      | JS.Num fromChatId =>
          let commentName := nth 2 segments EmptyString in
          let labelled := JS.nonempty commentName in
          mkMetaData (superGroupChatId acc)
            (JsMap.set (topicToFromChat acc) topicId fromChatId)
            (JsMap.set (fromChatToTopic acc) fromChatId topicId)
            (if banned
             then bannedTopics acc ++ [JS.Z_toString topicId]
             else bannedTopics acc)
            (if labelled
             then JsMap.set (topicToComment acc) topicId commentName
             else topicToComment acc)
            (if labelled
             then JsMap.set (fromChatToComment acc) fromChatId commentName
             else fromChatToComment acc)
      end
  end.

(** [text.split(';').filter(Boolean)]. *)
Definition pieces (text : string) : list string :=
  filter JS.nonempty (JS.split ";" text).

(** [parseMetadataText(text)]; [None] is a [null] or [undefined] text. *)
Definition parseMetadataText (text : option string) : MetaData :=
  match text with
  | None => emptyMetaData
  | Some EmptyString => emptyMetaData
  | Some txt =>
      match pieces txt with
      | [] => emptyMetaData
      | groupIdRaw :: pairs =>
          fold_left parseEntry pairs
            (mkMetaData (Some (JS.parseInt groupIdRaw))
               JsMap.empty JsMap.empty [] JsMap.empty JsMap.empty)
      end
  end.

(** The text of one binding in [stringifyMetadata]. *)
Definition stringifyEntry (bannedTopics : list string)
    (topicToComment : JsMap.t string) (e : Z * Z) : string :=
  let '(topicId, fromChatId) := e in
  let banned :=
    if JS.array_includes (JS.Z_toString topicId) bannedTopics
    then "b"%string else EmptyString in
  let encodedComment :=
    match JsMap.get topicToComment topicId with
    | Some c => if JS.nonempty c then JS.strip_delims c else EmptyString
    | None => EmptyString
    end in
  (JS.Z_toString topicId ++ ":" ++ banned ++ JS.Z_toString fromChatId
   ++ (if JS.nonempty encodedComment then ":" ++ encodedComment
       else EmptyString))%string.

Definition groupIdText (g : option JS.num) : string :=
  match g with
  | None => EmptyString
  | Some n => JS.num_toString n
  end.

(** [stringifyMetadata(superGroupChatId, topicToFromChat, bannedTopics,
    topicToComment)]. *)
Definition stringifyMetadata (g : option JS.num) (t2f : JsMap.t Z)
    (banned : list string) (t2c : JsMap.t string) : string :=
  JS.join ";" (groupIdText g :: map (stringifyEntry banned t2c) t2f).

Definition serialize (d : MetaData) : string :=
  stringifyMetadata (superGroupChatId d) (topicToFromChat d)
    (bannedTopics d) (topicToComment d).

(** The eviction loop of [trimMetadataEntries].  [iterator] is the key
    iterator created before the loop: it yields the keys in insertion order,
    and only keys it has already yielded are deleted while it is live.  An
    exhausted iterator yields [undefined], on which the loop breaks. *)
Fixpoint trimLoop (iterator : list Z) (d : MetaData) (serialized : string)
  : MetaData * string :=
  if Nat.ltb MAX_TEXT_LENGTH (String.length serialized)
     && Nat.ltb 0 (JsMap.size (topicToFromChat d))
  then
    match iterator with
    | [] => (d, serialized)
    | oldestTopicId :: rest =>
        let d' := removeMapping d oldestTopicId in
        trimLoop rest d' (serialize d')
    end
  else (d, serialized).

(** [trimMetadataEntries(data)]: the text, and the structure as the call
    leaves it (evictions are made on the caller's object). *)
Definition trimMetadataEntries (d : MetaData) : MetaData * string :=
  let serialized := serialize d in
  if Nat.leb (String.length serialized) MAX_TEXT_LENGTH then (d, serialized)
  else
    let '(d', s) := trimLoop (JsMap.keys (topicToFromChat d)) d serialized in
    (d', JS.slice0 MAX_TEXT_LENGTH s).

(* ================================================================== *)
(** ** The message-index store on the key-value binding *)

Definition MAX_KV_MAPPINGS : nat := 1000.

(** One message link: [{ topicId, topicMessageId, pmMessageId }]. *)
Record Link : Type := mkLink {
  topicId : Z;
  topicMessageId : Z;
  pmMessageId : Z
}.

(** The key-value binding.  [kv_mappings] holds the values stored under
    the keys [mapping:<group>] and [kv_topics] those under [topics:<group>],
    both indexed by the text of the group id; an absent key reads as [null].
    [kv_get_throws] and [kv_put_throws] say whether [get] and [put] raise. *)
Record KvStore : Type := mkKvStore {
  kv_mappings : string -> option (list Link);
  kv_topics : string -> option MetaData;
  kv_get_throws : bool;
  kv_put_throws : bool
}.

(** The text of a group id inside a template literal. *)
Definition groupKey (g : option JS.num) : string :=
  match g with
  | None => "null"
  | Some n => JS.num_toString n
  end.

Definition emptyKv : KvStore :=
  mkKvStore (fun _ => None) (fun _ => None) false false.

(** [loadMappingsFromKV(kvStore, superGroupChatId)] for a store that is
    present. *)
Definition loadMappingsFromKV (kv : KvStore) (g : option JS.num)
  : list Link :=
  if kv_get_throws kv then []
  else match kv_mappings kv (groupKey g) with
       | Some data => data
       | None => []
       end.

(** [saveMappingsToKV(kvStore, superGroupChatId, mappings)]. *)
Definition saveMappingsToKV (kv : KvStore) (g : option JS.num)
    (mappings : list Link) : KvStore :=
  if kv_put_throws kv then kv
  else
    let trimmed := JS.slice_last MAX_KV_MAPPINGS mappings in
    mkKvStore
      (fun k => if String.eqb k (groupKey g) then Some trimmed
                else kv_mappings kv k)
      (kv_topics kv) (kv_get_throws kv) (kv_put_throws kv).

(** [addMessageMappingKV]. *)
Definition addMessageMappingKV (kv : KvStore) (g : option JS.num)
    (topicId topicMessageId pmMessageId : Z) : KvStore :=
  let mappings := loadMappingsFromKV kv g in
  saveMappingsToKV kv g
    (mappings ++ [mkLink topicId topicMessageId pmMessageId]).

(** The result of a lookup by user-side message id; both fields are [null]
    when nothing matches. *)
Record TopicRef : Type := mkTopicRef {
  ref_topicId : option Z;
  ref_topicMessageId : option Z
}.

(** The result of a lookup by thread-side message id. *)
Record PmRef : Type := mkPmRef {
  pm_topicId : option Z;
  ref_pmMessageId : option Z
}.

(** The loop [for (i = length - 1; i >= 0; i -= 1)] returning at the first
    hit: a search in the reversed array. *)
Definition scanBack (p : Link -> bool) (mappings : list Link)
  : option Link :=
  find p (rev mappings).

Definition lookupTopicMessage (mappings : list Link) (pm : Z) : TopicRef :=
  match scanBack (fun entry => pmMessageId entry =? pm) mappings with
  | Some entry =>
      mkTopicRef (Some (topicId entry)) (Some (topicMessageId entry))
  | None => mkTopicRef None None
  end.

Definition lookupPmMessage (mappings : list Link) (tm : Z) : PmRef :=
  match scanBack (fun entry => topicMessageId entry =? tm) mappings with
  | Some entry => mkPmRef (Some (topicId entry)) (Some (pmMessageId entry))
  | None => mkPmRef None None
  end.

(** [findTopicMessageIdKV]. *)
Definition findTopicMessageIdKV (kv : KvStore) (g : option JS.num)
    (pm : Z) : TopicRef :=
  lookupTopicMessage (loadMappingsFromKV kv g) pm.

(** [findPmMessageIdKV]. *)
Definition findPmMessageIdKV (kv : KvStore) (g : option JS.num)
    (tm : Z) : PmRef :=
  lookupPmMessage (loadMappingsFromKV kv g) tm.

(** [cleanupTopicMessages(superGroupChatId, topicId)]; [None] is an absent
    key-value binding ([getKvStore()] is [null]). *)
Definition cleanupTopicMessages (kv : option KvStore) (g : option JS.num)
    (topic : Z) : option KvStore :=
  match kv with
  | None => None
  | Some store =>
      let mappings := loadMappingsFromKV store g in
      let filtered := filter (fun m => negb (topicId m =? topic)) mappings in
      Some (saveMappingsToKV store g filtered)
  end.

(** [saveTopicMappingToKV(kvStore, superGroupChatId, metaData)]. *)
Definition saveTopicMappingToKV (kv : KvStore) (g : option JS.num)
    (d : MetaData) : KvStore :=
  if kv_put_throws kv then kv
  else
    mkKvStore (kv_mappings kv)
      (fun k => if String.eqb k (groupKey g) then Some d else kv_topics kv k)
      (kv_get_throws kv) (kv_put_throws kv).

(** A run of appends through [addMessageMappingKV], oldest first. *)
Definition appendAll (kv : KvStore) (g : option JS.num) (ls : list Link)
  : KvStore :=
  fold_left
    (fun store l =>
       addMessageMappingKV store g (topicId l) (topicMessageId l)
         (pmMessageId l))
    ls kv.

(** The pinned-record fallback of the message index (no key-value binding):
    [parseMessageMappings] and [trimMappingText]. *)
Definition parseMappingChunk (chunk : string) : list Link :=
  if negb (JS.nonempty chunk) then []
  else
    let parts := JS.split ":" chunk in
    let topicMessageChunk := nth 0 parts EmptyString in
    let pmMessageIdRaw := nth 1 parts EmptyString in
    if negb (JS.nonempty topicMessageChunk)
       || negb (JS.nonempty pmMessageIdRaw)
    then []
    else
      let ids := JS.split "-" topicMessageChunk in
      match JS.parseInt (nth 0 ids EmptyString),
            JS.parseInt (nth 1 ids EmptyString),
            JS.parseInt pmMessageIdRaw with
      | JS.Num t, JS.Num tm, JS.Num pm => [mkLink t tm pm]
      | _, _, _ => []
      end.

Definition parseMessageMappings (text : string) : list Link :=
  if negb (JS.nonempty text) then []
  else flat_map parseMappingChunk (JS.split ";" text).

Definition MAX_MESSAGE_MAPPING_LENGTH : nat := 4096.

Fixpoint trimParts (parts : list string) : string :=
  let result := JS.join ";" parts in
  match parts with
  | _ :: ((_ :: _) as rest) =>
      if Nat.ltb MAX_MESSAGE_MAPPING_LENGTH (String.length result)
      then trimParts rest else result
  | _ => result
  end.

Definition trimMappingText (text : string) : string :=
  trimParts (filter JS.nonempty (JS.split ";" text)).

(* ================================================================== *)
(** ** The remote messaging gateway (core.js) *)

(** A chat named in a request. *)
Inductive Chat : Type :=
| Owner
| Private (id : Z)
| Supergroup (g : option JS.num).

(** Texts of the messages the relay sends; the wording is in the source. *)
Inductive Text : Type :=
| TextBlocked
| TextCreateTopicFailed
| TextForwardFailed
| TextApiFailure
| TextRecord (s : string).

Inductive Emoji : Type :=
| Dove
| Cross.

(** One request posted to the platform: method and body. *)
Inductive Call : Type :=
| sendMessage (chat_id : Chat) (message_thread_id : option Z) (text : Text)
| getChatMember (chat_id : Chat) (user_id : Z)
| createForumTopic (chat_id : Chat) (name : string)
| copyMessage (chat_id : Chat) (from_chat_id message_id : Z)
    (message_thread_id : Z) (reply_parameters : option Z)
| editMessageText (chat_id : Chat) (message_id : option Z) (text : string)
| setMessageReaction (chat_id : Chat) (message_id : Z)
    (reaction : list Emoji)
| getChat (chat_id : Chat)
| pinChatMessage (chat_id : Chat) (message_id : option Z).

Record Pinned : Type := mkPinned {
  pin_text : option string;
  pin_message_id : option Z
}.

(** The [result] object of a response, with the fields the relay reads. *)
Record Result : Type := mkResult {
  message_thread_id : option Z;
  message_id : option Z;
  status : option string;
  pinned_message : option Pinned
}.

(** [{ ok, result?, description? }]; a failed [fetch] reaches the caller
    as a response with [ok = false]. *)
Record Response : Type := mkResponse {
  ok : bool;
  result : option Result;
  description : option string
}.

(** The platform: the response to a request, given the requests posted
    before it (oldest first). *)
Definition Gateway : Type := list Call -> Call -> Response.

Inductive Error : Type :=
| AdminConflict
| CreateForumTopicFailed
| TypeError.

(** What one event's processing can change or observe. *)
Record World : Type := mkWorld {
  w_meta : MetaData;
  w_kv : option KvStore;
  w_trace : list Call
}.

Inductive Outcome (A : Type) : Type :=
| Done (a : A) (w : World)
| Thrown (e : Error) (w : World)
| OutOfFuel (w : World).
Arguments Done {A} a w.
Arguments Thrown {A} e w.
Arguments OutOfFuel {A} w.

Definition M (A : Type) : Type := World -> Outcome A.

Definition ret {A : Type} (a : A) : M A := fun w => Done a w.

Definition bind {A B : Type} (m : M A) (k : A -> M B) : M B :=
  fun w =>
    match m w with
    | Done a w' => k a w'
    | Thrown e w' => Thrown e w'
    | OutOfFuel w' => OutOfFuel w'
    end.

Definition throw {A : Type} (e : Error) : M A := fun w => Thrown e w.

Definition tryCatch {A : Type} (m : M A) (handler : Error -> M A) : M A :=
  fun w =>
    match m w with
    | Thrown e w' => handler e w'
    | o => o
    end.

Definition getMeta : M MetaData := fun w => Done (w_meta w) w.

Definition setMeta (d : MetaData) : M unit :=
  fun w => Done tt (mkWorld d (w_kv w) (w_trace w)).

Definition getKvStore : M (option KvStore) := fun w => Done (w_kv w) w.

Definition setKv (kv : option KvStore) : M unit :=
  fun w => Done tt (mkWorld (w_meta w) kv (w_trace w)).

Declare Scope relay_scope.
Delimit Scope relay_scope with relay.
Notation "x <- m ;; k" := (bind m (fun x => k))
  (at level 61, m at next level, right associativity) : relay_scope.
Notation "' pat <- m ;; k" :=
  (bind m (fun x => match x with pat => k end))
  (at level 61, pat pattern, m at next level, right associativity)
  : relay_scope.
Notation "m ;;; k" := (bind m (fun _ => k))
  (at level 61, right associativity) : relay_scope.
Local Open Scope relay_scope.

Definition is_sendMessage (c : Call) : bool :=
  match c with sendMessage _ _ _ => true | _ => false end.

Definition truthyId (o : option Z) : bool :=
  match o with Some z => JS.truthy z | None => false end.

Definition truthyGroup (g : option JS.num) : bool :=
  match g with Some (JS.Num z) => JS.truthy z | _ => false end.

Definition descriptionIncludes (needle : string) (r : Response) : bool :=
  match description r with
  | Some s => JS.includes needle s
  | None => false
  end.

(** An inbound private message, with the fields the relay reads.
    [topic_name] is the thread title [buildTopicName] derives from the
    sender's profile. *)
Record Message : Type := mkMessage {
  chat_id : Z;
  msg_id : Z;
  reply_to_message : option Z;
  topic_name : string
}.

Section Relay.

Variable gateway : Gateway.

(** [callTelegramApi(token, method, body, { ownerUid, context })].
    [report] tells whether [ownerUid] was passed: a failure of a method
    other than [sendMessage] is then reported to the owner by a second
    request, whose own outcome is ignored. *)
Definition callTelegramApi (report : bool) (c : Call) : M Response :=
  fun w =>
    let data := gateway (w_trace w) c in
    let posted := w_trace w ++ [c] in
    let trace' :=
      if negb (ok data) && report && negb (is_sendMessage c)
      then posted ++ [sendMessage Owner None TextApiFailure]
      else posted in
    Done data (mkWorld (w_meta w) (w_kv w) trace').

(** [safeCall] of topicHandler.js: [callTelegramApi] with [ownerUid]. *)
Definition safeCall (c : Call) : M Response := callTelegramApi true c.

(** [setMessageReaction] (reactionHandler.js), called with a one-emoji
    list. *)
Definition setReaction (chat : Chat) (mid : Z) (reaction : list Emoji)
  : M Response :=
  resp <- callTelegramApi false (setMessageReaction chat mid reaction) ;;
  if ok resp then ret resp
  else if JS.includes "REACTIONS_TOO_MANY"
            (match description resp with Some s => s | None => EmptyString end)
  then callTelegramApi false
         (setMessageReaction chat mid
            (JS.slice_last 1 reaction))
  else ret resp.

(** [notifyMessageSent] and [notifyMessageFailed] (deliveryStatus.js). *)
Definition notifyMessageSent (chat mid : Z) : M unit :=
  setReaction (Private chat) mid [Dove] ;;; ret tt.

Definition notifyMessageFailed (chat mid : Z) : M unit :=
  setReaction (Private chat) mid [Cross] ;;; ret tt.

(** [isSupergroupAdmin(botToken, supergroupId, userId)]. *)
Definition isSupergroupAdmin (g : option JS.num) (userId : Z) : M bool :=
  resp <- callTelegramApi false (getChatMember (Supergroup g) userId) ;;
  let st := match result resp with Some r => status r | None => None end in
  ret (match st with
       | Some s => String.eqb s "creator" || String.eqb s "administrator"
       | None => false
       end).

(** [editMetadata(botToken, ownerUid, metaMessage, newText)]; reading
    [message_id] of a [null] record raises. *)
Definition editMetadata (metaMessage : option Result) (newText : string)
  : M (option Result) :=
  let safeText := JS.slice0 MAX_TEXT_LENGTH newText in
  match metaMessage with
  | None => throw TypeError
  | Some mm =>
      resp <- callTelegramApi false
                (editMessageText Owner (message_id mm) safeText) ;;
      if negb (ok resp) then ret metaMessage else ret (result resp)
  end.

(** [updateMapping(botToken, ownerUid, metaMessage, data)] on the shared
    metadata structure. *)
Definition updateMapping (metaMessage : option Result)
  : M (option Result) :=
  data <- getMeta ;;
  kvStore <- getKvStore ;;
  (match kvStore with
   | Some store =>
       if truthyGroup (superGroupChatId data)
       then setKv (Some (saveTopicMappingToKV store
                           (superGroupChatId data) data))
       else ret tt
   | None => ret tt
   end) ;;;
  let '(data', newText) := trimMetadataEntries data in
  setMeta data' ;;;
  editMetadata metaMessage newText.

(** The part of [ensureTopic] after the early return: the administrator
    check, the remote creation and the new binding. *)
Definition createTopic (metaMessage : option Result) (fromChatId : Z)
    (message : Message) : M (Z * option Result) :=
  metaData <- getMeta ;;
  isAdmin <- isSupergroupAdmin (superGroupChatId metaData) fromChatId ;;
  if isAdmin then throw AdminConflict else
  createResp <- safeCall (createForumTopic
                  (Supergroup (superGroupChatId metaData))
                  (topic_name message)) ;;
  let newTopicId :=
    match result createResp with
    | Some r => message_thread_id r
    | None => None
    end in
  match newTopicId with
  | Some nt =>
      if ok createResp && JS.truthy nt then
        setMeta (upsertMapping metaData nt fromChatId None) ;;;
        updated <- updateMapping metaMessage ;;
        ret (nt, updated)
      else
        safeCall (sendMessage Owner None TextCreateTopicFailed) ;;;
        throw CreateForumTopicFailed
  | None =>
      safeCall (sendMessage Owner None TextCreateTopicFailed) ;;;
      throw CreateForumTopicFailed
  end.

(** [ensureTopic]: the thread of a user chat, created when missing.  An
    id read from the map is tested for truthiness. *)
Definition ensureTopic (metaMessage : option Result) (fromChatId : Z)
    (message : Message) : M (Z * option Result) :=
  metaData <- getMeta ;;
  match JsMap.get (fromChatToTopic metaData) fromChatId with
  | Some t =>
      if JS.truthy t then ret (t, metaMessage)
      else createTopic metaMessage fromChatId message
  | None => createTopic metaMessage fromChatId message
  end.

(** [loadMessageMappingText]: the pinned record of the group, read when
    there is no key-value binding. *)
Definition loadMessageMappingText (g : option JS.num)
  : M (string * option Z) :=
  resp <- callTelegramApi false (getChat (Supergroup g)) ;;
  let pinned :=
    match result resp with
    | Some r => pinned_message r
    | None => None
    end in
  ret (match pinned with
       | Some p =>
           (match pin_text p with Some s => s | None => EmptyString end,
            if truthyId (pin_message_id p) then pin_message_id p else None)
       | None => (EmptyString, None)
       end).

(** [findTopicMessageId]. *)
Definition findTopicMessageId (g : option JS.num) (pm : Z) : M TopicRef :=
  kvStore <- getKvStore ;;
  match kvStore with
  | Some store => ret (findTopicMessageIdKV store g pm)
  | None =>
      '(text, _) <- loadMessageMappingText g ;;
      ret (lookupTopicMessage (parseMessageMappings text) pm)
  end.

(** [addMessageMapping]. *)
Definition addMessageMapping (g : option JS.num)
    (topic topicMessage pmMessage : Z) : M unit :=
  kvStore <- getKvStore ;;
  match kvStore with
  | Some store =>
      setKv (Some (addMessageMappingKV store g topic topicMessage pmMessage))
  | None =>
      let entry :=
        (JS.Z_toString topic ++ "-" ++ JS.Z_toString topicMessage
         ++ ":" ++ JS.Z_toString pmMessage)%string in
      '(text, messageId) <- loadMessageMappingText g ;;
      match messageId with
      | Some mid =>
          if JS.nonempty text then
            let newText := trimMappingText (text ++ ";" ++ entry) in
            callTelegramApi false
              (editMessageText (Supergroup g) (Some mid) newText) ;;;
            ret tt
          else
            sendResp <- callTelegramApi false
              (sendMessage (Supergroup g) (Some 1) (TextRecord entry)) ;;
            if negb (ok sendResp) then ret tt else
            match result sendResp with
            | None => throw TypeError
            | Some r =>
                callTelegramApi false
                  (pinChatMessage (Supergroup g) (message_id r)) ;;;
                ret tt
            end
      | None =>
          sendResp <- callTelegramApi false
            (sendMessage (Supergroup g) (Some 1) (TextRecord entry)) ;;
          if negb (ok sendResp) then ret tt else
          match result sendResp with
          | None => throw TypeError
          | Some r =>
              callTelegramApi false
                (pinChatMessage (Supergroup g) (message_id r)) ;;;
              ret tt
          end
      end
  end.

(** How one pass through the body of [forwardPrivateToTopic] ends: with
    the response built, or with the recursive call on the refreshed
    metadata record. *)
Inductive Attempt : Type :=
| Finished
| Retry (refreshed : option Result).

(** The [try { ... } catch] block of [forwardPrivateToTopic]. *)
Definition relayAttempt (metaMessage : option Result) (message : Message)
  : M Attempt :=
  let fromChatId := chat_id message in
  tryCatch
    ('(topic, newMetaMessage) <-
        ensureTopic metaMessage fromChatId message ;;
     metaData <- getMeta ;;
     let g := superGroupChatId metaData in
     found <-
       match reply_to_message message with
       | Some replied => findTopicMessageId g replied
       | None => ret (mkTopicRef None None)
       end ;;
     let targetTopicId :=
       match ref_topicId found with
       | Some mt => if JS.truthy mt then mt else topic
       | None => topic
       end in
     let replyParameters :=
       if truthyId (ref_topicMessageId found)
       then ref_topicMessageId found else None in
     resp <- safeCall (copyMessage (Supergroup g) fromChatId
                         (msg_id message) targetTopicId replyParameters) ;;
     if negb (ok resp) then
       if descriptionIncludes "message thread not found" resp
          || descriptionIncludes "TOPIC_ID_INVALID" resp
       then
         metaData1 <- getMeta ;;
         setMeta (removeMapping metaData1 targetTopicId) ;;;
         kvStore <- getKvStore ;;
         setKv (cleanupTopicMessages kvStore g targetTopicId) ;;;
         refreshed <- updateMapping newMetaMessage ;;
         ret (Retry refreshed)
       else
         notifyMessageFailed fromChatId (msg_id message) ;;;
         ret Finished
     else
       let topicMessage :=
         match result resp with
         | Some r => message_id r
         | None => None
         end in
       (match topicMessage with
        | Some tm =>
            if JS.truthy tm
            then addMessageMapping g targetTopicId tm (msg_id message)
            else ret tt
        | None => ret tt
        end) ;;;
       notifyMessageSent fromChatId (msg_id message) ;;;
       ret Finished)
    (fun err =>
       safeCall (sendMessage Owner None TextForwardFailed) ;;;
       notifyMessageFailed fromChatId (msg_id message) ;;;
       ret Finished).

(** [forwardPrivateToTopic(botToken, ownerUid, metaData, metaMessage,
    message)].  [fuel] bounds the depth of the recursive call; a run that
    needs more ends in [OutOfFuel]. *)
Fixpoint forwardPrivateToTopic (fuel : nat) (metaMessage : option Result)
    (message : Message) : M unit :=
  match fuel with
  | O => fun w => OutOfFuel w
  | S fuel' =>
      metaData <- getMeta ;;
      let fromChatId := chat_id message in
      let banned :=
        match JsMap.get (fromChatToTopic metaData) fromChatId with
        | Some existingTopicId =>
            JS.truthy existingTopicId
            && isTopicBanned metaData existingTopicId
        | None => false
        end in
      if banned then
        safeCall (sendMessage (Private fromChatId) None TextBlocked) ;;;
        ret tt
      else
        attempt <- relayAttempt metaMessage message ;;
        match attempt with
        | Finished => ret tt
        | Retry refreshed => forwardPrivateToTopic fuel' refreshed message
        end
  end.

End Relay.

(** The copy requests of a trace. *)
Definition isCopy (c : Call) : bool :=
  match c with copyMessage _ _ _ _ _ => true | _ => false end.

Definition copyCalls (trace : list Call) : nat :=
  List.length (filter isCopy trace).

Definition isCreate (c : Call) : bool :=
  match c with createForumTopic _ _ => true | _ => false end.

Definition outcomeWorld {A : Type} (o : Outcome A) : World :=
  match o with
  | Done _ w => w
  | Thrown _ w => w
  | OutOfFuel w => w
  end.

(* ================================================================== *)
(** ** Vocabulary of the properties *)

(** [str_all p s]: every character of [s] satisfies [p]. *)
Fixpoint str_all (p : ascii -> bool) (s : string) : bool :=
  match s with
  | EmptyString => true
  | String c r => p c && str_all p r
  end.

Definition is_sign_or_digit (c : ascii) : bool :=
  JS.is_digit c || Ascii.eqb c "-".

Definition acc_val (a : option Z) : Z :=
  match a with Some z => z | None => 0 end.

(** A text after which [parseInt] stops reading digits. *)
Definition stops (rest : string) : bool :=
  match rest with
  | EmptyString => true
  | String c _ => negb (JS.is_digit c)
  end.

(** No character of a decimal text is a delimiter or the blocked mark. *)
Definition not_char (x : ascii) (c : ascii) : bool := negb (Ascii.eqb c x).

(** The ids of a structure that the codec prints (the group id and the
    two ids of every binding of the topic-to-user index) are safe
    integers; a group id that is [NaN] or missing prints no digits. *)
Definition safeGroup (g : option JS.num) : bool :=
  match g with
  | Some (JS.Num z) => JS.isSafeInteger z
  | _ => true
  end.

Definition safeIds (d : MetaData) : bool :=
  safeGroup (superGroupChatId d)
  && forallb (fun e => JS.isSafeInteger (fst e) && JS.isSafeInteger (snd e))
       (topicToFromChat d).

(** The three ids of a message link are safe integers. *)
Definition safeLink (l : Link) : bool :=
  JS.isSafeInteger (topicId l) && JS.isSafeInteger (topicMessageId l)
  && JS.isSafeInteger (pmMessageId l).

(** [x] is listed at most once in [a]. *)
Definition at_most_once (x : string) (a : list string) : Prop :=
  (count_occ string_dec a x <= 1)%nat.


(** The two indices of a metadata structure are mutual inverses. *)
Definition mutualInverses (d : MetaData) : Prop :=
  forall t u,
    JsMap.get (topicToFromChat d) t = Some u
    <-> JsMap.get (fromChatToTopic d) u = Some t.

(** No user chat is bound to two topics and no topic to two user chats. *)
Definition oneToOne (d : MetaData) : Prop :=
  (forall t1 t2 u,
      JsMap.get (topicToFromChat d) t1 = Some u ->
      JsMap.get (topicToFromChat d) t2 = Some u -> t1 = t2)
  /\ (forall u1 u2 t,
         JsMap.get (fromChatToTopic d) u1 = Some t ->
         JsMap.get (fromChatToTopic d) u2 = Some t -> u1 = u2).

(** The operations of the mapping store. *)
Inductive StoreOp : Type :=
| OpUpsert (t u : Z) (label : option string)
| OpRemove (t : Z)
| OpMarkBan (t : Z) (banned : bool).

Definition applyOp (d : MetaData) (op : StoreOp) : MetaData :=
  match op with
  | OpUpsert t u label => upsertMapping d t u label
  | OpRemove t => removeMapping d t
  | OpMarkBan t banned => markBan d t banned
  end.

(** The situations in which the store operations are used: a binding is
    inserted for a topic and a user chat that are not bound elsewhere, and
    a removed topic is not bound to the chat id 0. *)
Definition admissible (d : MetaData) (op : StoreOp) : Prop :=
  match op with
  | OpUpsert t u _ =>
      (JsMap.get (topicToFromChat d) t = None
       \/ JsMap.get (topicToFromChat d) t = Some u)
      /\ (JsMap.get (fromChatToTopic d) u = None
          \/ JsMap.get (fromChatToTopic d) u = Some t)
  | OpRemove t => JsMap.get (topicToFromChat d) t <> Some 0
  | OpMarkBan _ _ => True
  end.

(** Sample structures. *)
Definition bound_10_555 : MetaData :=
  mkMetaData (Some (JS.Num (-100123))) [(10, 555)] [(555, 10)] [] [] [].

(** Two bindings, the first of them blocked and labelled. *)
Definition blocked_and_labelled : MetaData :=
  mkMetaData (Some (JS.Num (-100123))) [(10, 555); (11, 556)]
    [(555, 10); (556, 11)] ["10"%string] [(10, "Ann"%string)]
    [(555, "Ann"%string)].

Definition bound_7_0 : MetaData :=
  mkMetaData (Some (JS.Num (-100123))) [(7, 0)] [(0, 7)] [] [] [].

(** The structure decoded from a record that lists a blocked binding
    twice. *)
Definition listed_twice : MetaData :=
  parseMetadataText (Some "-100123;10:b555;10:b555"%string).

(** 1001 links, numbered in the order of their insertion. *)
Definition links_1001 : list Link :=
  map (fun i => mkLink 10 (Z.of_nat i) (Z.of_nat (5000 + i))) (seq 0 1001).




(** The structure the decoding loop starts from. *)
Definition decodeStart (groupIdRaw : string) : MetaData :=
  mkMetaData (Some (JS.parseInt groupIdRaw))
    JsMap.empty JsMap.empty [] JsMap.empty JsMap.empty.


(** The label of a topic as [stringifyMetadata] writes it. *)
Definition encodedComment (t2c : JsMap.t string) (t : Z) : string :=
  match JsMap.get t2c t with
  | Some c => if JS.nonempty c then JS.strip_delims c else EmptyString
  | None => EmptyString
  end.

(** What the decoding loop does on the text of the binding [e]. *)
Definition decodedEntry (banned : list string) (t2c : JsMap.t string)
    (acc : MetaData) (e : Z * Z) : MetaData :=
  let c := encodedComment t2c (fst e) in
  mkMetaData (superGroupChatId acc)
    (JsMap.set (topicToFromChat acc) (fst e) (snd e))
    (JsMap.set (fromChatToTopic acc) (snd e) (fst e))
    (if JS.array_includes (JS.Z_toString (fst e)) banned
     then bannedTopics acc ++ [JS.Z_toString (fst e)]
     else bannedTopics acc)
    (if JS.nonempty c then JsMap.set (topicToComment acc) (fst e) c
     else topicToComment acc)
    (if JS.nonempty c then JsMap.set (fromChatToComment acc) (snd e) c
     else fromChatToComment acc).

(** A structure without group id that holds one binding. *)
Definition unbound_group : MetaData :=
  mkMetaData None [(10, 555)] [(555, 10)] [] [] [].

(** The encoding of a structure once its [k] oldest bindings are gone. *)
Definition encodeSuffix (d : MetaData) (k : nat) : string :=
  stringifyMetadata (superGroupChatId d) (skipn k (topicToFromChat d))
    (bannedTopics d) (topicToComment d).

(** A structure without group id whose oldest binding carries a label of
    4100 characters. *)
Definition unbound_group_long : MetaData :=
  mkMetaData None [(10, 555); (11, 556)] [(555, 10); (556, 11)] []
    [(10, string_of_list_ascii (repeat "x"%char 4100))]
    [(555, string_of_list_ascii (repeat "x"%char 4100))].

(** The same bindings under a group id. *)
Definition bound_group_long : MetaData :=
  mkMetaData (Some (JS.Num (-100123)))
    [(10, 555); (11, 556)] [(555, 10); (556, 11)] []
    [(10, string_of_list_ascii (repeat "x"%char 4100))]
    [(555, string_of_list_ascii (repeat "x"%char 4100))].

(** The platform reports the member as the creator or an administrator of
    the group: what [isSupergroupAdmin] tests. *)
Definition reportsAdmin (r : Response) : bool :=
  match result r with
  | Some res =>
      match status res with
      | Some s => String.eqb s "creator" || String.eqb s "administrator"
      | None => false
      end
  | None => false
  end.

(** A computation only adds requests to the trace. *)
Definition extends {A : Type} (m : M A) : Prop :=
  forall w, exists s, w_trace (outcomeWorld (m w)) = w_trace w ++ s.

(** Sample platforms.  Both create thread 11 on request, report every
    member as an ordinary member and accept every edit of the metadata
    record; [rejecting n] rejects the first [n] copy requests it sees as
    addressed to a missing thread and accepts the next ones, and
    [alwaysRejecting] rejects them all. *)
Definition okResponse (r : Result) : Response :=
  mkResponse true (Some r) None.

Definition threadNotFound : Response :=
  mkResponse false None
    (Some "Bad Request: message thread not found"%string).

Definition respondExceptCopy (c : Call) : Response :=
  match c with
  | createForumTopic _ _ => okResponse (mkResult (Some 11) None None None)
  | getChatMember _ _ =>
      okResponse (mkResult None None (Some "member"%string) None)
  | editMessageText _ mid _ => okResponse (mkResult None mid None None)
  | _ => okResponse (mkResult None (Some 900) None None)
  end.

Definition alwaysRejecting : Gateway :=
  fun _ c => if isCopy c then threadNotFound else respondExceptCopy c.

Definition rejecting (n : nat) : Gateway :=
  fun history c =>
    if isCopy c then
      if Nat.ltb (copyCalls history) n then threadNotFound
      else okResponse (mkResult None (Some 77) None None)
    else respondExceptCopy c.

Definition adminGateway : Gateway :=
  fun _ c =>
    match c with
    | getChatMember _ _ =>
        okResponse (mkResult None None (Some "administrator"%string) None)
    | _ => respondExceptCopy c
    end.

(** Sample inputs: the pinned metadata record, a first message of user
    chat 555, and structures in which that chat is unbound, bound to topic
    0, or bound to topic 10. *)
Definition pinnedRecord : option Result :=
  Some (mkResult None (Some 5) None None).

Definition hello : Message := mkMessage 555 1 None "Guest (555)".

Definition no_binding : MetaData :=
  mkMetaData (Some (JS.Num (-100123))) [] [] [] [] [].

Definition blocked_0 : MetaData :=
  mkMetaData (Some (JS.Num (-100123))) [(0, 555)] [(555, 0)] ["0"%string]
    [] [].

(* ================================================================== *)
(** ** Further code of the repository *)

(** The text of one link in the pinned record of the group,
    [`${topicId}-${topicMessageId}:${pmMessageId}`] ([addMessageMapping]). *)
Definition linkText (l : Link) : string :=
  (JS.Z_toString (topicId l) ++ "-" ++ JS.Z_toString (topicMessageId l)
   ++ ":" ++ JS.Z_toString (pmMessageId l))%string.

(** [s.trim()]: white space is removed at both ends. *)
Fixpoint trimEnd (s : string) : string :=
  match s with
  | EmptyString => EmptyString
  | String c r =>
      let r' := trimEnd r in
      if JS.is_space c && negb (JS.nonempty r') then EmptyString
      else String c r'
  end.

Definition trim (s : string) : string := trimEnd (JS.skip_spaces s).

(** [/^-?\d+$/.test(s)]. *)
Definition allDigits (s : string) : bool :=
  JS.nonempty s && str_all JS.is_digit s.

Definition looksLikeGroupId (s : string) : bool :=
  match s with
  | String c r => if Ascii.eqb c "-" then allDigits r else allDigits s
  | EmptyString => false
  end.

(** [/^-\d+;/.test(s)]: [digitsThenSemicolon seen s] reads the digits at
    the head of [s]; [seen] tells whether one was read already. *)
Fixpoint digitsThenSemicolon (seen : bool) (s : string) : bool :=
  match s with
  | String c r =>
      if JS.is_digit c then digitsThenSemicolon true r
      else seen && Ascii.eqb c ";"
  | EmptyString => false
  end.

Definition looksLikeRecord (s : string) : bool :=
  match s with
  | String c r => Ascii.eqb c "-" && digitsThenSemicolon false r
  | EmptyString => false
  end.

(** The test of [handlePrivateChat] for a text that may be a metadata
    record of the bot: [text && (/^-?\d+$/.test(text) ||
    /^-\d+;/.test(text))] on [message.text?.trim()]. *)
Definition looksLikeMetadata (raw : option string) : bool :=
  match raw with
  | Some raw =>
      let text := trim raw in
      JS.nonempty text && (looksLikeGroupId text || looksLikeRecord text)
  | None => false
  end.

(** The sender's profile as [buildTopicName] reads it: [message.chat.id],
    [message.chat.username], [first_name], [last_name] and
    [message.from?.id]. *)
Record Profile : Type := mkProfile {
  prof_chat_id : Z;
  prof_username : option string;
  prof_first_name : option string;
  prof_last_name : option string;
  prof_from_id : option Z
}.

(** [from.id || fallbackId]. *)
Definition topicBaseId (p : Profile) (fallbackId : Z) : Z :=
  if JS.truthy (prof_chat_id p) then prof_chat_id p else fallbackId.

(** [username || 'Guest'], where [username] is [`@${from.username}`] or
    [[from.first_name, from.last_name].filter(Boolean).join(' ')]. *)
Definition topicDisplay (p : Profile) : string :=
  let kept (o : option string) : list string :=
    match o with
    | Some s => if JS.nonempty s then [s] else []
    | None => []
    end in
  let fullName :=
    JS.join " " (kept (prof_first_name p) ++ kept (prof_last_name p)) in
  let username :=
    match prof_username p with
    | Some n => if JS.nonempty n then String "@" n else fullName
    | None => fullName
    end in
  if JS.nonempty username then username else "Guest"%string.

(** [`(${baseId})(${fromUserId})`] when the sender's id is set and differs
    from the base id, else [`(${baseId})`]. *)
Definition topicSuffix (p : Profile) (fallbackId : Z) : string :=
  let baseId := topicBaseId p fallbackId in
  let one := ("(" ++ JS.Z_toString baseId ++ ")")%string in
  match prof_from_id p with
  | Some f =>
      if JS.truthy f && negb (f =? baseId)
      then (one ++ "(" ++ JS.Z_toString f ++ ")")%string
      else one
  | None => one
  end.

(** [buildTopicName(message, fallbackId)] of topicHandler.js. *)
Definition buildTopicName (p : Profile) (fallbackId : Z) : string :=
  let name := JS.slice0 80 (topicDisplay p) in
  JS.slice0 120 (name ++ " " ++ topicSuffix p fallbackId).

(** The chat a request is addressed to. *)
Definition addressee (c : Call) : Chat :=
  match c with
  | sendMessage ch _ _ => ch
  | getChatMember ch _ => ch
  | createForumTopic ch _ => ch
  | copyMessage ch _ _ _ _ => ch
  | editMessageText ch _ _ => ch
  | setMessageReaction ch _ _ => ch
  | getChat ch => ch
  | pinChatMessage ch _ => ch
  end.

(** A request that is not addressed to a private chat other than [u]. *)
Definition sparesOthers (u : Z) (c : Call) : Prop :=
  forall v, addressee c = Private v -> v = u.

(** A request that is not addressed to any private chat. *)
Definition sparesUsers (c : Call) : Prop :=
  forall v, addressee c <> Private v.

Definition isReaction (c : Call) : bool :=
  match c with setMessageReaction _ _ _ => true | _ => false end.

(** A computation adds to the trace only requests that satisfy [P]. *)
Definition emits (P : Call -> Prop) {A : Type} (m : M A) : Prop :=
  forall w, exists s,
    w_trace (outcomeWorld (m w)) = w_trace w ++ s /\ Forall P s.

(** A computation never ends in an exception. *)
Definition neverThrows {A : Type} (m : M A) : Prop :=
  forall w e w', m w <> Thrown e w'.

(** Notices of the moderation commands and of the private entry point
    (banManager.js, topicHandler.js, messageHandler.js). *)
Definition textNoTopic : Text :=
  TextRecord "无法获取 Topic 信息，请在话题内使用拉黑命令。".
Definition textBanCancelled : Text :=
  TextRecord "未找到该话题对应的私聊映射，拉黑操作已取消。".
Definition textAlreadyBanned : Text :=
  TextRecord "该话题已在拉黑列表，无需重复操作。".
Definition textBanned : Text :=
  TextRecord "已拉黑此话题，来自私聊的消息将不再转发。".
Definition textYouAreBanned : Text :=
  TextRecord "你已被拉黑，发送的消息不会再被转发到群组。".
Definition textBanFailed : Text := TextRecord "拉黑失败：".
Definition textNoTopicUnban : Text :=
  TextRecord "无法获取 Topic 信息，请在话题内使用解除拉黑命令。".
Definition textNotBanned : Text := TextRecord "该话题当前未被拉黑。".
Definition textUnbanned : Text :=
  TextRecord "已解除拉黑，私聊消息可以再次转发到话题。".
Definition textYouAreUnbanned : Text :=
  TextRecord "你已被解除拉黑，可以继续发送消息。".
Definition textUnbanFailed : Text := TextRecord "解除拉黑失败：".
Definition textIsBanned : Text := TextRecord "此话题已在拉黑列表中。".
Definition textIsNotBanned : Text := TextRecord "此话题当前未被拉黑。".
Definition textNoMapping : Text :=
  TextRecord "未找到该话题的私聊映射，无法更新拉黑状态。".
Definition textNowBanned : Text := TextRecord "本话题已被禁止私聊消息进入".
Definition textNowUnbanned : Text := TextRecord "本话题已解除禁止".
Definition textNotInitialised : Text :=
  TextRecord "尚未初始化，请先在超级群组中发送 /init 指令。".
Definition textGroupMissing : Text :=
  TextRecord "超管群信息缺失，请重新执行 /init。".
Definition textAdminNeedsNoBot : Text :=
  TextRecord "作为 Supergroup 管理员，你不需要通过 Bot 发送消息。请直接在超级群的 Topic 中回复用户。".

(** The command message of [banTopic] and [unbanTopic]:
    [message?.message_thread_id] and [message?.chat?.id]. *)
Record BanCommand : Type := mkBanCommand {
  cmd_thread : option Z;
  cmd_chat : option Z
}.

(** A private message as [handlePrivateChat] reads it: the message the
    relay gets, whether its sender is a bot, the sender's id and the text. *)
Record PrivateUpdate : Type := mkPrivateUpdate {
  pu_message : Message;
  pu_from_is_bot : bool;
  pu_from_id : Z;
  pu_text : option string
}.

Section Moderation.

Variable gateway : Gateway.

(** [notifyTopic] of banManager.js: [callTelegramApi] without options. *)
Definition notifyTopic (chat topic : Z) (text : Text) : M unit :=
  callTelegramApi gateway false
    (sendMessage (Supergroup (Some (JS.Num chat))) (Some topic) text) ;;;
  ret tt.

(** [banTopic(botToken, ownerUid, message, metaData, metaMessage,
    isSilent)]. *)
Definition banTopic (cmd : BanCommand) (metaMessage : option Result)
    (isSilent : bool) : M unit :=
  let noTopic :=
    safeCall gateway (sendMessage Owner None textNoTopic) ;;; ret tt in
  match cmd_thread cmd, cmd_chat cmd with
  | Some topic, Some chat =>
      if JS.truthy topic && JS.truthy chat then
        metaData <- getMeta ;;
        if truthyId (JsMap.get (topicToFromChat metaData) topic) then
          if isTopicBanned metaData topic then
            notifyTopic chat topic textAlreadyBanned
          else
            tryCatch
              (setMeta (markBan metaData topic true) ;;;
               updateMapping gateway metaMessage ;;;
               notifyTopic chat topic textBanned ;;;
               if negb isSilent then
                 match JsMap.get (topicToFromChat metaData) topic with
                 | Some fromChatId =>
                     safeCall gateway
                       (sendMessage (Private fromChatId) None
                          textYouAreBanned) ;;;
                     ret tt
                 | None => ret tt
                 end
               else ret tt)
              (fun _ => notifyTopic chat topic textBanFailed)
        else notifyTopic chat topic textBanCancelled
      else noTopic
  | _, _ => noTopic
  end.

(** [unbanTopic(botToken, ownerUid, message, metaData, metaMessage,
    isSilent)]. *)
Definition unbanTopic (cmd : BanCommand) (metaMessage : option Result)
    (isSilent : bool) : M unit :=
  let noTopic :=
    safeCall gateway (sendMessage Owner None textNoTopicUnban) ;;; ret tt in
  match cmd_thread cmd, cmd_chat cmd with
  | Some topic, Some chat =>
      if JS.truthy topic && JS.truthy chat then
        metaData <- getMeta ;;
        let fromChatId := JsMap.get (topicToFromChat metaData) topic in
        if negb (isTopicBanned metaData topic) then
          notifyTopic chat topic textNotBanned
        else
          tryCatch
            (setMeta (markBan metaData topic false) ;;;
             updateMapping gateway metaMessage ;;;
             notifyTopic chat topic textUnbanned ;;;
             if negb isSilent && truthyId fromChatId then
               match fromChatId with
               | Some u =>
                   safeCall gateway
                     (sendMessage (Private u) None textYouAreUnbanned) ;;;
                   ret tt
               | None => ret tt
               end
             else ret tt)
            (fun _ => notifyTopic chat topic textUnbanFailed)
      else noTopic
  | _, _ => noTopic
  end.

(** [changeBanStatus(botToken, ownerUid, metaData, metaMessage, topicId,
    banned)] of topicHandler.js. *)
Definition changeBanStatus (metaMessage : option Result) (topic : Z)
    (banned : bool) : M unit :=
  metaData <- getMeta ;;
  let group := Supergroup (superGroupChatId metaData) in
  if Bool.eqb (isTopicBanned metaData topic) banned then
    safeCall gateway
      (sendMessage group (Some topic)
         (if banned then textIsBanned else textIsNotBanned)) ;;;
    ret tt
  else if negb (JsMap.has (topicToFromChat metaData) topic) then
    safeCall gateway (sendMessage group (Some topic) textNoMapping) ;;;
    ret tt
  else
    setMeta (markBan metaData topic banned) ;;;
    updateMapping gateway metaMessage ;;;
    safeCall gateway
      (sendMessage group (Some topic)
         (if banned then textNowBanned else textNowUnbanned)) ;;;
    ret tt.

(** [loadMetadata(botToken, ownerUid)]: the pinned message of the owner's
    chat, or [null]. *)
Definition loadMetadata : M (option Pinned) :=
  chatInfo <- callTelegramApi gateway true (getChat Owner) ;;
  ret (match result chatInfo with
       | Some r => pinned_message r
       | None => None
       end).

(** [parseMetaDataMessage(metaMessage)]. *)
Definition parseMetaDataMessage (metaMessage : option Pinned) : MetaData :=
  parseMetadataText
    (Some (match metaMessage with
           | Some p => match pin_text p with
                       | Some s => s
                       | None => EmptyString
                       end
           | None => EmptyString
           end)).

(** [handlePrivateChat(botToken, ownerUid, message)] of messageHandler.js.
    The structure decoded from the pinned record becomes the structure of
    the event; the relay reads the message id of the pinned record. *)
Definition handlePrivateChat (fuel : nat) (update : PrivateUpdate)
  : M unit :=
  let chat := chat_id (pu_message update) in
  if pu_from_is_bot update then ret tt else
  if looksLikeMetadata (pu_text update) then ret tt else
  metaMessage <- loadMetadata ;;
  match metaMessage with
  | None =>
      safeCall gateway
        (sendMessage (Private chat) None textNotInitialised) ;;;
      ret tt
  | Some pinned =>
      let metaData := parseMetaDataMessage metaMessage in
      if negb (truthyGroup (superGroupChatId metaData)) then
        safeCall gateway
          (sendMessage (Private chat) None textGroupMissing) ;;;
        ret tt
      else
        isAdmin <- isSupergroupAdmin gateway (superGroupChatId metaData)
                     (pu_from_id update) ;;
        if isAdmin then
          safeCall gateway
            (sendMessage (Private chat) None textAdminNeedsNoBot) ;;;
          ret tt
        else
          setMeta metaData ;;;
          forwardPrivateToTopic gateway fuel
            (Some (mkResult None (pin_message_id pinned) None None))
            (pu_message update)
  end.

End Moderation.
(* ================================================================== *)
(** * Properties *)

(** ** Strings and decimal text of integers *)

Lemma str_app_assoc (a b c : string) :
  ((a ++ b) ++ c = a ++ (b ++ c))%string.
Proof. induction a as [| x r IH]; simpl; [reflexivity | now rewrite IH]. Qed.

Lemma str_app_nil_r (a : string) : (a ++ EmptyString)%string = a.
Proof. induction a as [| x r IH]; simpl; [reflexivity | now rewrite IH]. Qed.

Lemma str_length_app (a b : string) :
  String.length (a ++ b) = (String.length a + String.length b)%nat.
Proof. induction a as [| x r IH]; simpl; [reflexivity | now rewrite IH]. Qed.

Lemma is_digit_cases (c : ascii) :
  JS.is_digit c = true ->
  JS.is_space c = false /\ c <> "-"%char /\ c <> "+"%char /\ c <> "b"%char
  /\ c <> ";"%char /\ c <> ":"%char.
Proof.
  destruct c as [[] [] [] [] [] [] [] []]; cbv; intro H;
    try discriminate H; repeat split; discriminate.
Qed.

Lemma digit_char_spec (d : Z) :
  0 <= d < 10 ->
  JS.is_digit (JS.digit_char d) = true /\ JS.digit_val (JS.digit_char d) = d.
Proof.
  intros H.
  assert (E : d = 0 \/ d = 1 \/ d = 2 \/ d = 3 \/ d = 4 \/ d = 5 \/ d = 6
              \/ d = 7 \/ d = 8 \/ d = 9) by lia.
  repeat (destruct E as [E | E]; [subst d; split; reflexivity |]).
  subst d; split; reflexivity.
Qed.

Lemma read_digits_digits (fuel : nat) :
  forall n s a,
    0 <= n < 10 ^ Z.of_nat (S fuel) ->
    exists k, 0 <= k /\
      JS.read_digits (JS.digits (S fuel) n s) a
      = JS.read_digits s (Some (acc_val a * 10 ^ k + n)).
Proof.
  induction fuel as [| f IH]; intros n s a Hn.
  - assert (Hlt : (n <? 10) = true) by (apply Z.ltb_lt; simpl in Hn; lia).
    cbn [JS.digits]. rewrite Hlt.
    exists 1. split; [lia |].
    assert (Hm : n mod 10 = n) by (apply Z.mod_small; simpl in Hn; lia).
    rewrite Hm. cbn [JS.read_digits].
    destruct (digit_char_spec n) as [Hd Hv]; [simpl in Hn; lia |].
    rewrite Hd, Hv. f_equal. f_equal. unfold acc_val.
    destruct a; lia.
  - remember (S f) as f1 eqn:Ef. cbn [JS.digits].
    destruct (n <? 10) eqn:Hlt.
    + apply Z.ltb_lt in Hlt.
      exists 1. split; [lia |].
      assert (Hm : n mod 10 = n) by (apply Z.mod_small; lia).
      rewrite Hm. cbn [JS.read_digits].
      destruct (digit_char_spec n ltac:(lia)) as [Hd Hv].
      rewrite Hd, Hv. f_equal. f_equal. unfold acc_val.
      destruct a; lia.
    + apply Z.ltb_ge in Hlt.
      assert (Hq : 0 <= n / 10 < 10 ^ Z.of_nat f1).
      { split; [apply Z.div_pos; lia |].
        apply Z.div_lt_upper_bound; [lia |].
        replace (Z.of_nat (S f1)) with (1 + Z.of_nat f1) in Hn by lia.
        rewrite Z.pow_add_r in Hn by lia. lia. }
      subst f1.
      destruct (IH (n / 10) (String (JS.digit_char (n mod 10)) s) a Hq)
        as [k [Hk E]].
      exists (k + 1). split; [lia |].
      rewrite E. cbn [JS.read_digits].
      destruct (digit_char_spec (n mod 10)) as [Hd Hv].
      { apply Z.mod_pos_bound; lia. }
      rewrite Hd, Hv. f_equal. f_equal. cbn [acc_val].
      rewrite Z.pow_add_r by lia.
      pose proof (Z.div_mod n 10 ltac:(lia)). lia.
Qed.

Lemma digits_shape (fuel : nat) :
  forall n s, 0 <= n ->
    exists c r, JS.digits (S fuel) n s = String c r
                /\ JS.is_digit c = true.
Proof.
  induction fuel as [| f IH]; intros n s Hn.
  - cbn [JS.digits].
    destruct (digit_char_spec (n mod 10)) as [Hd _];
      [apply Z.mod_pos_bound; lia |].
    destruct (n <? 10); eexists; eexists; split; try reflexivity; exact Hd.
  - remember (S f) as f1. cbn [JS.digits].
    destruct (n <? 10).
    + destruct (digit_char_spec (n mod 10)) as [Hd _];
        [apply Z.mod_pos_bound; lia |].
      eexists; eexists; split; [reflexivity | exact Hd].
    + subst f1. apply IH. apply Z.div_pos; lia.
Qed.

Lemma digits_append (fuel : nat) :
  forall n s, JS.digits fuel n s = (JS.digits fuel n EmptyString ++ s)%string.
Proof.
  induction fuel as [| f IH]; intros n s; [reflexivity |].
  cbn [JS.digits]. destruct (n <? 10); [reflexivity |].
  rewrite IH.
  rewrite (IH (n / 10) (String (JS.digit_char (n mod 10)) EmptyString)).
  rewrite str_app_assoc. reflexivity.
Qed.

Lemma str_all_app (p : ascii -> bool) (a b : string) :
  str_all p (a ++ b) = str_all p a && str_all p b.
Proof.
  induction a as [| c r IH]; simpl; [reflexivity |].
  rewrite IH. apply andb_assoc.
Qed.

Lemma digits_all_digit (fuel : nat) :
  forall n s, 0 <= n -> str_all JS.is_digit s = true ->
    str_all JS.is_digit (JS.digits fuel n s) = true.
Proof.
  induction fuel as [| f IH]; intros n s Hn Hs; [exact Hs |].
  cbn [JS.digits].
  assert (Hd : str_all JS.is_digit (String (JS.digit_char (n mod 10)) s)
               = true).
  { simpl. rewrite Hs.
    destruct (digit_char_spec (n mod 10)) as [Hd _];
      [apply Z.mod_pos_bound; lia |].
    rewrite Hd. reflexivity. }
  destruct (n <? 10); [exact Hd |].
  apply IH; [apply Z.div_pos; lia | exact Hd].
Qed.

Lemma log2_fuel (n : Z) :
  0 <= n -> 0 <= n < 10 ^ Z.of_nat (S (Z.to_nat (Z.log2 n))).
Proof.
  intros Hn. split; [exact Hn |].
  destruct (Z.eq_dec n 0) as [-> | Hz].
  - apply Z.pow_pos_nonneg; lia.
  - assert (Hp : 0 < n) by lia.
    pose proof (Z.log2_spec n Hp) as [_ Hu].
    pose proof (Z.log2_nonneg n) as Hl.
    replace (Z.of_nat (S (Z.to_nat (Z.log2 n)))) with (Z.succ (Z.log2 n))
      by lia.
    eapply Z.lt_le_trans; [exact Hu |].
    apply Z.pow_le_mono_l. lia.
Qed.

Lemma read_digits_stops (rest : string) (a : option Z) :
  stops rest = true -> JS.read_digits rest a = a.
Proof.
  destruct rest as [| c r]; simpl; [reflexivity |].
  destruct (JS.is_digit c); [discriminate | reflexivity].
Qed.

Lemma parseInt_digit_head (c : ascii) (r : string) :
  JS.is_digit c = true ->
  JS.parseInt (String c r)
  = match JS.read_digits (String c r) None with
    | None => JS.NaN
    | Some n => JS.Num n
    end.
Proof.
  destruct c as [[] [] [] [] [] [] [] []]; intro H;
    try (cbv in H; discriminate H); reflexivity.
Qed.

Lemma parseInt_minus (r : string) :
  JS.parseInt (String "-" r)
  = match JS.read_digits r None with
    | None => JS.NaN
    | Some n => JS.Num (- n)
    end.
Proof. reflexivity. Qed.

Lemma nat_digits_app (n : Z) (rest : string) :
  (JS.nat_digits n ++ rest)%string
  = JS.digits (S (Z.to_nat (Z.log2 n))) n rest.
Proof. unfold JS.nat_digits. symmetry. apply digits_append. Qed.

Lemma read_nat_digits (n : Z) (rest : string) :
  0 <= n -> stops rest = true ->
  JS.read_digits (JS.nat_digits n ++ rest) None = Some n.
Proof.
  intros Hn Hs. rewrite nat_digits_app.
  destruct (read_digits_digits (Z.to_nat (Z.log2 n)) n rest None
              (log2_fuel n Hn)) as [k [_ E]].
  rewrite E, read_digits_stops by exact Hs.
  reflexivity.
Qed.

Lemma parseInt_toString_app (z : Z) (rest : string) :
  stops rest = true ->
  JS.parseInt (JS.Z_toString z ++ rest) = JS.Num z.
Proof.
  intros Hs. unfold JS.Z_toString.
  destruct (z <? 0) eqn:Hz.
  - apply Z.ltb_lt in Hz.
    cbn [append]. rewrite parseInt_minus.
    rewrite read_nat_digits by (try lia; exact Hs).
    f_equal. lia.
  - apply Z.ltb_ge in Hz.
    pose proof (nat_digits_app z rest) as E.
    destruct (digits_shape (Z.to_nat (Z.log2 z)) z rest Hz)
      as [c [r [Ec Hc]]].
    rewrite E, Ec, (parseInt_digit_head c r Hc), <- Ec, <- E.
    rewrite read_nat_digits by assumption. reflexivity.
Qed.

Lemma parseInt_toString (z : Z) : JS.parseInt (JS.Z_toString z) = JS.Num z.
Proof.
  rewrite <- (str_app_nil_r (JS.Z_toString z)).
  now apply parseInt_toString_app.
Qed.

Lemma Z_toString_inj (a b : Z) : JS.Z_toString a = JS.Z_toString b -> a = b.
Proof.
  intros E. pose proof (parseInt_toString a) as Ha.
  rewrite E, parseInt_toString in Ha. now injection Ha.
Qed.

Lemma nat_digits_all_digit (n : Z) :
  0 <= n -> str_all JS.is_digit (JS.nat_digits n) = true.
Proof. intros Hn. now apply digits_all_digit. Qed.

Lemma str_all_impl (p q : ascii -> bool) (s : string) :
  (forall c, p c = true -> q c = true) ->
  str_all p s = true -> str_all q s = true.
Proof.
  intros Hpq. induction s as [| c r IH]; simpl; [reflexivity |].
  intros H. apply andb_true_iff in H as [Hc Hr].
  rewrite (Hpq c Hc), (IH Hr). reflexivity.
Qed.

Lemma Z_toString_chars (z : Z) :
  str_all is_sign_or_digit (JS.Z_toString z) = true.
Proof.
  unfold JS.Z_toString. destruct (z <? 0) eqn:Hz.
  - apply Z.ltb_lt in Hz. simpl.
    apply str_all_impl with (p := JS.is_digit).
    + intros c Hc. unfold is_sign_or_digit. now rewrite Hc.
    + apply nat_digits_all_digit. lia.
  - apply Z.ltb_ge in Hz.
    apply str_all_impl with (p := JS.is_digit).
    + intros c Hc. unfold is_sign_or_digit. now rewrite Hc.
    + now apply nat_digits_all_digit.
Qed.

Lemma Z_toString_head (z : Z) :
  exists c r, JS.Z_toString z = String c r /\ is_sign_or_digit c = true.
Proof.
  pose proof (Z_toString_chars z) as H.
  unfold JS.Z_toString in *. destruct (z <? 0) eqn:Hz.
  - eexists; eexists; split; reflexivity.
  - apply Z.ltb_ge in Hz.
    destruct (digits_shape (Z.to_nat (Z.log2 z)) z EmptyString Hz)
      as [c [r [Ec Hc]]].
    exists c, r. split; [exact Ec |].
    unfold is_sign_or_digit. now rewrite Hc.
Qed.

Lemma sign_or_digit_not (x : ascii) (c : ascii) :
  x = ";"%char \/ x = ":"%char \/ x = "b"%char ->
  is_sign_or_digit c = true -> not_char x c = true.
Proof.
  intros Hx H. unfold is_sign_or_digit in H. unfold not_char.
  apply negb_true_iff, Ascii.eqb_neq. intros ->.
  apply orb_true_iff in H as [H | H].
  - destruct Hx as [-> | [-> | ->]]; cbv in H; discriminate.
  - destruct Hx as [-> | [-> | ->]]; cbv in H; discriminate.
Qed.

(** ** [split] and [join] *)

Lemma split_no_sep (sep : ascii) (s : string) :
  str_all (not_char sep) s = true -> JS.split sep s = [s].
Proof.
  induction s as [| c r IH]; simpl; [reflexivity |].
  intros H. apply andb_true_iff in H as [Hc Hr].
  unfold not_char in Hc. apply negb_true_iff in Hc. rewrite Hc.
  now rewrite (IH Hr).
Qed.

Lemma split_app_sep (sep : ascii) (a b : string) :
  str_all (not_char sep) a = true ->
  JS.split sep (a ++ String sep b) = a :: JS.split sep b.
Proof.
  induction a as [| c r IH]; simpl.
  - intros _. now rewrite Ascii.eqb_refl.
  - intros H. apply andb_true_iff in H as [Hc Hr].
    unfold not_char in Hc. apply negb_true_iff in Hc. rewrite Hc.
    now rewrite (IH Hr).
Qed.

Lemma split_join (sep : ascii) (x : string) (l : list string) :
  Forall (fun s => str_all (not_char sep) s = true) (x :: l) ->
  JS.split sep (JS.join (String sep EmptyString) (x :: l)) = x :: l.
Proof.
  revert x. induction l as [| y l IH]; intros x H.
  - simpl. apply split_no_sep. now inversion H.
  - inversion H as [| ? ? Hx Hl]; subst.
    change (JS.join (String sep EmptyString) (x :: y :: l))
      with (x ++ String sep (JS.join (String sep EmptyString) (y :: l)))%string.
    rewrite split_app_sep by exact Hx.
    now rewrite IH.
Qed.

(* ------------------------------------------------------------------ *)
(** ** Facts on [Map] *)

Section MapFacts.
Context {V : Type}.
Implicit Types (m : JsMap.t V) (k : Z) (v : V).

Lemma get_set_same m k v : JsMap.get (JsMap.set m k v) k = Some v.
Proof.
  induction m as [| [k' v'] r IH]; simpl.
  - now rewrite Z.eqb_refl.
  - destruct (k' =? k) eqn:E; simpl.
    + now rewrite Z.eqb_refl.
    + now rewrite E.
Qed.

Lemma get_set_other m k k' v :
  k <> k' -> JsMap.get (JsMap.set m k v) k' = JsMap.get m k'.
Proof.
  intros Hne. induction m as [| [k0 v0] r IH]; simpl.
  - apply Z.eqb_neq in Hne. now rewrite Hne.
  - destruct (k0 =? k) eqn:E; simpl.
    + apply Z.eqb_eq in E. subst k0.
      apply Z.eqb_neq in Hne. now rewrite Hne.
    + destruct (k0 =? k'); [reflexivity | exact IH].
Qed.

Lemma get_delete_same m k : JsMap.get (JsMap.delete m k) k = None.
Proof.
  induction m as [| [k' v'] r IH]; simpl; [reflexivity |].
  destruct (k' =? k) eqn:E; simpl; [exact IH |].
  now rewrite E.
Qed.

Lemma get_delete_other m k k' :
  k <> k' -> JsMap.get (JsMap.delete m k) k' = JsMap.get m k'.
Proof.
  intros Hne. induction m as [| [k0 v0] r IH]; simpl; [reflexivity |].
  destruct (k0 =? k) eqn:E; simpl.
  - apply Z.eqb_eq in E. subst k0.
    apply Z.eqb_neq in Hne. now rewrite Hne.
  - destruct (k0 =? k'); [reflexivity | exact IH].
Qed.

Lemma get_none_keys m k : JsMap.get m k = None <-> ~ In k (JsMap.keys m).
Proof.
  induction m as [| [k' v'] r IH]; simpl.
  - tauto.
  - destruct (k' =? k) eqn:E.
    + apply Z.eqb_eq in E. split; [discriminate | intros H; tauto].
    + apply Z.eqb_neq in E. rewrite IH. tauto.
Qed.

Lemma set_fresh m k v :
  ~ In k (JsMap.keys m) -> JsMap.set m k v = m ++ [(k, v)].
Proof.
  induction m as [| [k' v'] r IH]; simpl; [reflexivity |].
  intros H. destruct (k' =? k) eqn:E.
  - apply Z.eqb_eq in E. tauto.
  - rewrite IH by tauto. reflexivity.
Qed.

Lemma delete_head m k v :
  ~ In k (JsMap.keys m) -> JsMap.delete ((k, v) :: m) k = m.
Proof.
  intros H. unfold JsMap.delete. simpl. rewrite Z.eqb_refl. simpl.
  induction m as [| [k' v'] r IH]; simpl; [reflexivity |].
  simpl in H. destruct (k' =? k) eqn:E.
  - apply Z.eqb_eq in E. tauto.
  - simpl. rewrite IH by tauto. reflexivity.
Qed.

End MapFacts.

(* ------------------------------------------------------------------ *)
(** ** The blocked list *)

Lemma array_includes_In (x : string) (a : list string) :
  JS.array_includes x a = true <-> In x a.
Proof.
  unfold JS.array_includes. rewrite existsb_exists. split.
  - intros [y [Hy E]]. apply String.eqb_eq in E. now subst.
  - intros H. exists x. split; [exact H | apply String.eqb_refl].
Qed.

Lemma array_includes_app (x : string) (a b : list string) :
  JS.array_includes x (a ++ b)
  = JS.array_includes x a || JS.array_includes x b.
Proof. unfold JS.array_includes. apply existsb_app. Qed.

Lemma remove_first_other (x y : string) (a : list string) :
  x <> y ->
  JS.array_includes y (JS.remove_first x a) = JS.array_includes y a.
Proof.
  intros Hne. induction a as [| z r IH]; simpl; [reflexivity |].
  destruct (String.eqb z x) eqn:E.
  - apply String.eqb_eq in E. subst z.
    assert (E' : String.eqb y x = false)
      by (apply String.eqb_neq; congruence).
    now rewrite E'.
  - simpl. now rewrite IH.
Qed.

Lemma remove_first_once (x : string) (a : list string) :
  at_most_once x a -> JS.array_includes x (JS.remove_first x a) = false.
Proof.
  unfold at_most_once. induction a as [| z r IH]; simpl; [reflexivity |].
  destruct (string_dec z x) as [-> | Hne].
  - rewrite String.eqb_refl. intros H.
    destruct (JS.array_includes x r) eqn:E; [| reflexivity].
    apply array_includes_In in E.
    apply (count_occ_In string_dec) in E. lia.
  - intros H.
    assert (E : String.eqb z x = false) by now apply String.eqb_neq.
    rewrite E. simpl.
    assert (E' : String.eqb x z = false)
      by (apply String.eqb_neq; congruence).
    rewrite E'. simpl. now apply IH.
Qed.

Lemma remove_first_absent (x : string) (a : list string) :
  JS.array_includes x a = false -> JS.remove_first x a = a.
Proof.
  induction a as [| z r IH]; simpl; [reflexivity |].
  intros H. apply orb_false_iff in H as [Hz Hr].
  rewrite String.eqb_sym in Hz. rewrite Hz. now rewrite IH.
Qed.

(* ------------------------------------------------------------------ *)
(** ** The mapping store: mutual inverses and the frame of a removal *)

Lemma upsertMapping_topicToFromChat d t u c :
  topicToFromChat (upsertMapping d t u c)
  = JsMap.set (topicToFromChat d) t u.
Proof. unfold upsertMapping. destruct c as [c |]; [destruct (JS.nonempty c) |]; reflexivity. Qed.

Lemma upsertMapping_fromChatToTopic d t u c :
  fromChatToTopic (upsertMapping d t u c)
  = JsMap.set (fromChatToTopic d) u t.
Proof. unfold upsertMapping. destruct c as [c |]; [destruct (JS.nonempty c) |]; reflexivity. Qed.

Lemma removeMapping_topicToFromChat d t :
  topicToFromChat (removeMapping d t) = JsMap.delete (topicToFromChat d) t.
Proof.
  unfold removeMapping.
  destruct (JsMap.get (topicToFromChat d) t) as [u |];
    [destruct (JS.truthy u) |]; reflexivity.
Qed.

Lemma removeMapping_fromChatToTopic d t :
  fromChatToTopic (removeMapping d t)
  = match JsMap.get (topicToFromChat d) t with
    | Some u => if JS.truthy u then JsMap.delete (fromChatToTopic d) u
                else fromChatToTopic d
    | None => fromChatToTopic d
    end.
Proof.
  unfold removeMapping.
  destruct (JsMap.get (topicToFromChat d) t) as [u |];
    [destruct (JS.truthy u) |]; reflexivity.
Qed.

Lemma removeMapping_fromChatToComment d t :
  fromChatToComment (removeMapping d t)
  = match JsMap.get (topicToFromChat d) t with
    | Some u => if JS.truthy u then JsMap.delete (fromChatToComment d) u
                else fromChatToComment d
    | None => fromChatToComment d
    end.
Proof.
  unfold removeMapping.
  destruct (JsMap.get (topicToFromChat d) t) as [u |];
    [destruct (JS.truthy u) |]; reflexivity.
Qed.

Lemma removeMapping_bannedTopics d t :
  bannedTopics (removeMapping d t)
  = JS.remove_first (JS.Z_toString t) (bannedTopics d).
Proof.
  unfold removeMapping.
  destruct (JsMap.get (topicToFromChat d) t) as [u |];
    [destruct (JS.truthy u) |]; reflexivity.
Qed.

Lemma removeMapping_topicToComment d t :
  topicToComment (removeMapping d t) = JsMap.delete (topicToComment d) t.
Proof.
  unfold removeMapping.
  destruct (JsMap.get (topicToFromChat d) t) as [u |];
    [destruct (JS.truthy u) |]; reflexivity.
Qed.

Lemma removeMapping_superGroupChatId d t :
  superGroupChatId (removeMapping d t) = superGroupChatId d.
Proof.
  unfold removeMapping.
  destruct (JsMap.get (topicToFromChat d) t) as [u |];
    [destruct (JS.truthy u) |]; reflexivity.
Qed.

Lemma truthy_nonzero (z : Z) : z <> 0 -> JS.truthy z = true.
Proof. intros H. unfold JS.truthy. apply negb_true_iff. now apply Z.eqb_neq. Qed.

Lemma mutualInverses_oneToOne (d : MetaData) :
  mutualInverses d -> oneToOne d.
Proof.
  intros H. split.
  - intros t1 t2 u H1 H2. apply H in H1, H2. congruence.
  - intros u1 u2 t H1 H2. apply H in H1, H2. congruence.
Qed.

Lemma upsertMapping_inverses d t u c :
  mutualInverses d -> admissible d (OpUpsert t u c) ->
  mutualInverses (upsertMapping d t u c).
Proof.
  intros Hinv [Ht Hu] t' u'.
  rewrite upsertMapping_topicToFromChat, upsertMapping_fromChatToTopic.
  destruct (Z.eq_dec t t') as [<- | Hnt]; destruct (Z.eq_dec u u') as [<- | Hnu].
  - rewrite !get_set_same. tauto.
  - rewrite get_set_same, get_set_other by assumption. split.
    + intros E. congruence.
    + intros E. apply Hinv in E. destruct Ht as [Ht | Ht]; congruence.
  - rewrite get_set_same, get_set_other by assumption. split.
    + intros E. apply Hinv in E. destruct Hu as [Hu | Hu]; congruence.
    + intros E. congruence.
  - rewrite !get_set_other by assumption. apply Hinv.
Qed.

Lemma removeMapping_inverses d t :
  mutualInverses d -> admissible d (OpRemove t) ->
  mutualInverses (removeMapping d t).
Proof.
  intros Hinv Hadm t' u'. simpl in Hadm.
  rewrite removeMapping_topicToFromChat, removeMapping_fromChatToTopic.
  destruct (JsMap.get (topicToFromChat d) t) as [u |] eqn:Eg.
  - assert (Hu : u <> 0) by congruence.
    rewrite (truthy_nonzero u Hu).
    destruct (Z.eq_dec t t') as [<- | Hnt];
      destruct (Z.eq_dec u u') as [<- | Hnu].
    + rewrite !get_delete_same. split; discriminate.
    + rewrite get_delete_same, get_delete_other by assumption. split.
      * discriminate.
      * intros E. apply Hinv in E. congruence.
    + rewrite get_delete_same, get_delete_other by assumption. split.
      * intros E. apply Hinv in E, Eg. congruence.
      * discriminate.
    + rewrite !get_delete_other by assumption. apply Hinv.
  - destruct (Z.eq_dec t t') as [<- | Hnt].
    + rewrite get_delete_same. split; [discriminate |].
      intros E. apply Hinv in E. congruence.
    + rewrite get_delete_other by assumption. apply Hinv.
Qed.

(** C1, amended.  From mutually inverse indices, every store operation used
    admissibly leaves mutually inverse, one-to-one indices: [markBan] always;
    [removeMapping] when the removed topic is not bound to chat id 0;
    [upsertMapping] when neither the topic nor the user chat is bound to
    another partner. *)
Theorem store_ops_preserve_inverses (d : MetaData) (op : StoreOp) :
  mutualInverses d -> admissible d op ->
  mutualInverses (applyOp d op) /\ oneToOne (applyOp d op).
Proof.
  intros Hinv Hadm.
  assert (H : mutualInverses (applyOp d op)).
  { destruct op as [t u c | t | t b]; simpl.
    - now apply upsertMapping_inverses.
    - now apply removeMapping_inverses.
    - exact Hinv. }
  split; [exact H | now apply mutualInverses_oneToOne].
Qed.

Lemma bound_10_555_inverses : mutualInverses bound_10_555.
Proof.
  intros t u. unfold bound_10_555.
  cbn [topicToFromChat fromChatToTopic JsMap.get].
  destruct (Z.eqb_spec 10 t); destruct (Z.eqb_spec 555 u);
    split; intros E; try discriminate E; congruence.
Qed.

Lemma store_ops_preserve_inverses_witness :
  mutualInverses (applyOp bound_10_555 (OpUpsert 11 556 None))
  /\ oneToOne (applyOp bound_10_555 (OpUpsert 11 556 None)).
Proof.
  apply (store_ops_preserve_inverses bound_10_555 (OpUpsert 11 556 None)).
  - exact bound_10_555_inverses.
  - simpl. split; left; reflexivity.
Defined.

(** C1 as stated fails: [upsertMapping] on a topic that is already bound,
    and [removeMapping] of a topic bound to chat id 0, leave indices that
    are no longer mutual inverses. *)
Lemma store_ops_break_inverses :
  (mutualInverses bound_10_555
   /\ ~ mutualInverses (upsertMapping bound_10_555 10 777 None))
  /\ (mutualInverses bound_7_0
      /\ ~ mutualInverses (removeMapping bound_7_0 7)).
Proof.
  split; split.
  - exact bound_10_555_inverses.
  - intros H. specialize (H 10 555). simpl in H.
    destruct H as [_ H]. specialize (H eq_refl). discriminate H.
  - intros t u. unfold bound_7_0.
    cbn [topicToFromChat fromChatToTopic JsMap.get].
    destruct (Z.eqb_spec 7 t); destruct (Z.eqb_spec 0 u);
      split; intros E; try discriminate E; congruence.
  - intros H. specialize (H 7 0). simpl in H.
    destruct H as [_ H]. specialize (H eq_refl). discriminate H.
Qed.

Lemma isTopicBanned_removeMapping_other d t t' :
  t' <> t ->
  isTopicBanned (removeMapping d t) t' = isTopicBanned d t'.
Proof.
  intros Hne. unfold isTopicBanned. rewrite removeMapping_bannedTopics.
  apply remove_first_other. intros E. apply Z_toString_inj in E. congruence.
Qed.

(** C10, amended.  [removeMapping d t] removes [t] from the topic-to-user
    and topic-label maps and from the blocked list, removes the user chat
    bound to [t] from the user-to-topic and user-label maps, and leaves the
    entries of every other topic and user chat as they were, provided [t] is
    not bound to chat id 0 and is listed at most once in the blocked list. *)
Theorem removeMapping_frame (d : MetaData) (t : Z) :
  JsMap.get (topicToFromChat d) t <> Some 0 ->
  at_most_once (JS.Z_toString t) (bannedTopics d) ->
  let d' := removeMapping d t in
  (JsMap.get (topicToFromChat d') t = None
   /\ JsMap.get (topicToComment d') t = None
   /\ isTopicBanned d' t = false)
  /\ (forall u, JsMap.get (topicToFromChat d) t = Some u ->
        JsMap.get (fromChatToTopic d') u = None
        /\ JsMap.get (fromChatToComment d') u = None)
  /\ (forall t', t' <> t ->
        JsMap.get (topicToFromChat d') t' = JsMap.get (topicToFromChat d) t'
        /\ JsMap.get (topicToComment d') t' = JsMap.get (topicToComment d) t'
        /\ isTopicBanned d' t' = isTopicBanned d t')
  /\ (forall u', JsMap.get (topicToFromChat d) t <> Some u' ->
        JsMap.get (fromChatToTopic d') u' = JsMap.get (fromChatToTopic d) u'
        /\ JsMap.get (fromChatToComment d') u'
           = JsMap.get (fromChatToComment d) u')
  /\ superGroupChatId d' = superGroupChatId d.
Proof.
  intros Hz Honce d'. subst d'.
  rewrite removeMapping_topicToFromChat, removeMapping_topicToComment,
    removeMapping_fromChatToTopic, removeMapping_fromChatToComment,
    removeMapping_superGroupChatId.
  repeat split.
  - apply get_delete_same.
  - apply get_delete_same.
  - unfold isTopicBanned. rewrite removeMapping_bannedTopics.
    now apply remove_first_once.
  - rewrite H. rewrite truthy_nonzero by congruence. apply get_delete_same.
  - rewrite H. rewrite truthy_nonzero by congruence. apply get_delete_same.
  - apply get_delete_other. congruence.
  - apply get_delete_other. congruence.
  - now apply isTopicBanned_removeMapping_other.
  - destruct (JsMap.get (topicToFromChat d) t) as [u |]; [| reflexivity].
    destruct (JS.truthy u); [| reflexivity].
    apply get_delete_other. congruence.
  - destruct (JsMap.get (topicToFromChat d) t) as [u |]; [| reflexivity].
    destruct (JS.truthy u); [| reflexivity].
    apply get_delete_other. congruence.
Qed.

Lemma removeMapping_frame_witness :
  let d' := removeMapping bound_10_555 10 in
  (JsMap.get (topicToFromChat d') 10 = None
   /\ JsMap.get (topicToComment d') 10 = None
   /\ isTopicBanned d' 10 = false)
  /\ (forall u, JsMap.get (topicToFromChat bound_10_555) 10 = Some u ->
        JsMap.get (fromChatToTopic d') u = None
        /\ JsMap.get (fromChatToComment d') u = None)
  /\ (forall t', t' <> 10 ->
        JsMap.get (topicToFromChat d') t'
        = JsMap.get (topicToFromChat bound_10_555) t'
        /\ JsMap.get (topicToComment d') t'
           = JsMap.get (topicToComment bound_10_555) t'
        /\ isTopicBanned d' t' = isTopicBanned bound_10_555 t')
  /\ (forall u', JsMap.get (topicToFromChat bound_10_555) 10 <> Some u' ->
        JsMap.get (fromChatToTopic d') u'
        = JsMap.get (fromChatToTopic bound_10_555) u'
        /\ JsMap.get (fromChatToComment d') u'
           = JsMap.get (fromChatToComment bound_10_555) u')
  /\ superGroupChatId d' = superGroupChatId bound_10_555.
Proof.
  apply (removeMapping_frame bound_10_555 10).
  - simpl. discriminate.
  - unfold at_most_once. simpl. lia.
Defined.

(** C10 as stated fails: a blocked flag listed twice survives the removal
    of its binding, and a user chat with id 0 stays in the user-to-topic
    map. *)
Lemma removeMapping_leaves_flag_or_binding :
  (JsMap.get (topicToFromChat listed_twice) 10 = Some 555
   /\ isTopicBanned (removeMapping listed_twice 10) 10 = true)
  /\ (JsMap.get (topicToFromChat bound_7_0) 7 = Some 0
      /\ JsMap.get (fromChatToTopic (removeMapping bound_7_0 7)) 0 = Some 7).
Proof. repeat split; vm_compute; reflexivity. Qed.

(* ------------------------------------------------------------------ *)
(** ** The message-index store *)

Lemma slice_last_length {A : Type} (n : nat) (a : list A) :
  List.length (JS.slice_last n a) = Nat.min n (List.length a).
Proof. unfold JS.slice_last. rewrite length_skipn. lia. Qed.

Lemma slice_last_absorb {A : Type} (n : nat) (a b : list A) :
  JS.slice_last n (JS.slice_last n a ++ b) = JS.slice_last n (a ++ b).
Proof.
  unfold JS.slice_last.
  rewrite !length_app, length_skipn.
  destruct (Nat.le_gt_cases (List.length a) n) as [Hle | Hgt].
  - replace (List.length a - n)%nat with 0%nat by lia.
    rewrite skipn_0. f_equal. lia.
  - rewrite (skipn_app (List.length a + List.length b - n)).
    rewrite (skipn_app (List.length a - (List.length a - n)
                        + List.length b - n)).
    rewrite length_skipn, skipn_skipn.
    f_equal; f_equal; lia.
Qed.

Lemma slice_last_suffix {A : Type} (n : nat) (a b : list A) :
  (n <= List.length b)%nat ->
  JS.slice_last n (a ++ b) = skipn (List.length b - n) b.
Proof.
  intros H. unfold JS.slice_last.
  rewrite length_app, skipn_app.
  rewrite skipn_all2 by lia. simpl. f_equal. lia.
Qed.

Section Appends.
Variable g : option JS.num.

Lemma addMessageMappingKV_load kv t tm pm :
  kv_get_throws kv = false -> kv_put_throws kv = false ->
  let kv' := addMessageMappingKV kv g t tm pm in
  loadMappingsFromKV kv' g
  = JS.slice_last MAX_KV_MAPPINGS (loadMappingsFromKV kv g ++ [mkLink t tm pm])
  /\ kv_get_throws kv' = false /\ kv_put_throws kv' = false.
Proof.
  intros Hg Hp. unfold addMessageMappingKV, saveMappingsToKV.
  rewrite Hp. unfold loadMappingsFromKV at 1. cbn [kv_get_throws kv_mappings kv_put_throws].
  rewrite Hg, String.eqb_refl. auto.
Qed.

Lemma appendAll_load (ls : list Link) :
  forall kv,
    kv_get_throws kv = false -> kv_put_throws kv = false -> ls <> [] ->
    loadMappingsFromKV (appendAll kv g ls) g
    = JS.slice_last MAX_KV_MAPPINGS (loadMappingsFromKV kv g ++ ls).
Proof.
  induction ls as [| l ls IH]; intros kv Hg Hp Hne; [congruence |].
  destruct (addMessageMappingKV_load kv (topicId l) (topicMessageId l)
              (pmMessageId l) Hg Hp) as [E [Hg' Hp']].
  assert (El : mkLink (topicId l) (topicMessageId l) (pmMessageId l) = l)
    by (destruct l; reflexivity).
  rewrite El in E.
  change (appendAll kv g (l :: ls))
    with (appendAll (addMessageMappingKV kv g (topicId l) (topicMessageId l)
                       (pmMessageId l)) g ls).
  destruct ls as [| l2 ls'].
  - exact E.
  - rewrite IH by (try assumption; discriminate).
    rewrite E, slice_last_absorb, <- app_assoc. reflexivity.
Qed.

End Appends.

Lemma scanBack_none (p : Link -> bool) (l : list Link) :
  (forall e, In e l -> p e = false) -> scanBack p l = None.
Proof.
  intros H. unfold scanBack.
  destruct (find p (rev l)) as [e |] eqn:E; [| reflexivity].
  apply find_some in E as [Hin Hp].
  apply in_rev in Hin. rewrite (H e Hin) in Hp. discriminate.
Qed.

Lemma find_skip (p : Link -> bool) (a b : list Link) :
  (forall e, In e a -> p e = false) -> find p (a ++ b) = find p b.
Proof.
  induction a as [| x a IH]; intros H; [reflexivity |].
  simpl. rewrite (H x (or_introl eq_refl)).
  apply IH. intros e He. apply H. now right.
Qed.

Lemma scanBack_last (p : Link -> bool) (older newer : list Link) (e : Link) :
  p e = true -> (forall e', In e' newer -> p e' = false) ->
  scanBack p (older ++ e :: newer) = Some e.
Proof.
  intros He Hn. unfold scanBack.
  rewrite rev_app_distr. simpl. rewrite <- app_assoc.
  rewrite find_skip.
  - simpl. now rewrite He.
  - intros e' Hin. apply Hn. now apply in_rev.
Qed.

Lemma scanBack_some (p : Link -> bool) (l : list Link) (e : Link) :
  scanBack p l = Some e -> In e l /\ p e = true.
Proof.
  unfold scanBack. intros H. apply find_some in H as [Hin Hp].
  split; [now apply in_rev | exact Hp].
Qed.

Example duplicate_ids_last_write_wins :
  lookupTopicMessage [mkLink 10 1 100; mkLink 10 2 100; mkLink 10 3 101] 100
  = mkTopicRef (Some 10) (Some 2).
Proof. reflexivity. Qed.

(** C6.  Both lookups return the most recently inserted link that matches
    the queried id, whatever older links match too, and the null result
    when no stored link matches. *)
Theorem lookups_last_write_wins (kv : KvStore) (g : option JS.num) (q : Z) :
  let stored := loadMappingsFromKV kv g in
  ((forall e, In e stored -> pmMessageId e <> q) ->
   findTopicMessageIdKV kv g q = mkTopicRef None None)
  /\ (forall older e newer,
         stored = older ++ e :: newer -> pmMessageId e = q ->
         (forall e', In e' newer -> pmMessageId e' <> q) ->
         findTopicMessageIdKV kv g q
         = mkTopicRef (Some (topicId e)) (Some (topicMessageId e)))
  /\ ((forall e, In e stored -> topicMessageId e <> q) ->
      findPmMessageIdKV kv g q = mkPmRef None None)
  /\ (forall older e newer,
         stored = older ++ e :: newer -> topicMessageId e = q ->
         (forall e', In e' newer -> topicMessageId e' <> q) ->
         findPmMessageIdKV kv g q
         = mkPmRef (Some (topicId e)) (Some (pmMessageId e))).
Proof.
  intros stored.
  unfold findTopicMessageIdKV, findPmMessageIdKV, lookupTopicMessage,
    lookupPmMessage. fold stored.
  repeat split.
  - intros H. rewrite scanBack_none; [reflexivity |].
    intros e He. apply Z.eqb_neq. now apply H.
  - intros older e newer E Hq Hn. rewrite E, scanBack_last; [reflexivity | |].
    + now apply Z.eqb_eq.
    + intros e' He'. apply Z.eqb_neq. now apply Hn.
  - intros H. rewrite scanBack_none; [reflexivity |].
    intros e He. apply Z.eqb_neq. now apply H.
  - intros older e newer E Hq Hn. rewrite E, scanBack_last; [reflexivity | |].
    + now apply Z.eqb_eq.
    + intros e' He'. apply Z.eqb_neq. now apply Hn.
Qed.

(** C5, amended.  After more than 1000 appends through
    [addMessageMappingKV] on a store whose [get] and [put] do not raise,
    the stored list is exactly the
    last 1000 appended links, in order; a lookup returns either the null
    result or a retained link, and an id carried only by evicted links is
    not found. *)
Theorem append_keeps_last_1000 (kv : KvStore) (g : option JS.num)
    (ls : list Link) :
  kv_get_throws kv = false -> kv_put_throws kv = false ->
  (MAX_KV_MAPPINGS < List.length ls)%nat ->
  let kv' := appendAll kv g ls in
  let retained := skipn (List.length ls - MAX_KV_MAPPINGS) ls in
  loadMappingsFromKV kv' g = retained
  /\ List.length (loadMappingsFromKV kv' g) = MAX_KV_MAPPINGS
  /\ (forall q t tm,
         findTopicMessageIdKV kv' g q = mkTopicRef (Some t) (Some tm) ->
         In (mkLink t tm q) retained)
  /\ (forall q t pm,
         findPmMessageIdKV kv' g q = mkPmRef (Some t) (Some pm) ->
         In (mkLink t q pm) retained)
  /\ (forall q, (forall e, In e retained -> pmMessageId e <> q) ->
         findTopicMessageIdKV kv' g q = mkTopicRef None None)
  /\ (forall q, (forall e, In e retained -> topicMessageId e <> q) ->
         findPmMessageIdKV kv' g q = mkPmRef None None).
Proof.
  intros Hg Hp Hlen kv' retained.
  assert (E : loadMappingsFromKV kv' g = retained).
  { unfold kv', retained. rewrite appendAll_load; try assumption.
    - apply slice_last_suffix. lia.
    - intros ->. simpl in Hlen. lia. }
  split; [exact E |]. split.
  { rewrite E. unfold retained. rewrite length_skipn. lia. }
  unfold findTopicMessageIdKV, findPmMessageIdKV. rewrite E.
  unfold lookupTopicMessage, lookupPmMessage.
  repeat split.
  - intros q t tm H.
    destruct (scanBack (fun entry => pmMessageId entry =? q) retained)
      as [e |] eqn:Es; [| discriminate H].
    apply scanBack_some in Es as [Hin Hq]. apply Z.eqb_eq in Hq.
    injection H as <- <-. subst q. now destruct e.
  - intros q t pm H.
    destruct (scanBack (fun entry => topicMessageId entry =? q) retained)
      as [e |] eqn:Es; [| discriminate H].
    apply scanBack_some in Es as [Hin Hq]. apply Z.eqb_eq in Hq.
    injection H as <- <-. subst q. now destruct e.
  - intros q H. rewrite scanBack_none; [reflexivity |].
    intros e He. apply Z.eqb_neq. now apply H.
  - intros q H. rewrite scanBack_none; [reflexivity |].
    intros e He. apply Z.eqb_neq. now apply H.
Qed.

Lemma append_keeps_last_1000_witness :
  let kv' := appendAll emptyKv None links_1001 in
  let retained := skipn (List.length links_1001 - MAX_KV_MAPPINGS) links_1001 in
  loadMappingsFromKV kv' None = retained
  /\ List.length (loadMappingsFromKV kv' None) = MAX_KV_MAPPINGS
  /\ (forall q t tm,
         findTopicMessageIdKV kv' None q = mkTopicRef (Some t) (Some tm) ->
         In (mkLink t tm q) retained)
  /\ (forall q t pm,
         findPmMessageIdKV kv' None q = mkPmRef (Some t) (Some pm) ->
         In (mkLink t q pm) retained)
  /\ (forall q, (forall e, In e retained -> pmMessageId e <> q) ->
         findTopicMessageIdKV kv' None q = mkTopicRef None None)
  /\ (forall q, (forall e, In e retained -> topicMessageId e <> q) ->
         findPmMessageIdKV kv' None q = mkPmRef None None).
Proof.
  apply (append_keeps_last_1000 emptyKv None links_1001).
  - reflexivity.
  - reflexivity.
  - unfold links_1001. rewrite length_map, length_seq.
    unfold MAX_KV_MAPPINGS. apply Nat.lt_succ_diag_r.
Defined.

(** C5 as stated fails on a store that raises.  [loadMappingsFromKV]
    answers a failing [get] with the empty list, so every append stores a
    list of one link: after 1001 appends the store holds the last link
    only, and a reader still gets nothing.  On a store whose [put] raises
    nothing is stored at all. *)
Lemma append_needs_working_store :
  let deaf := mkKvStore (fun _ => None) (fun _ => None) true false in
  let mute := mkKvStore (fun _ => None) (fun _ => None) false true in
  (MAX_KV_MAPPINGS < List.length links_1001)%nat
  /\ kv_mappings (appendAll deaf None links_1001) (groupKey None)
     = Some [mkLink 10 1000 6000]
  /\ loadMappingsFromKV (appendAll deaf None links_1001) None = []
  /\ kv_mappings (appendAll mute None links_1001) (groupKey None) = None
  /\ loadMappingsFromKV (appendAll mute None links_1001) None = [].
Proof.
  split; [| split; [| split; [| split]]].
  - unfold links_1001. rewrite length_map, length_seq.
    unfold MAX_KV_MAPPINGS. apply Nat.lt_succ_diag_r.
  - vm_compute. reflexivity.
  - vm_compute. reflexivity.
  - vm_compute. reflexivity.
  - vm_compute. reflexivity.
Qed.

(* ------------------------------------------------------------------ *)
(** ** Decoding: [parseMetadataText] *)






Lemma parseMetadataText_unfold (txt g : string) (items : list string) :
  pieces txt = g :: items ->
  parseMetadataText (Some txt) = fold_left parseEntry items (decodeStart g).
Proof.
  intros E. unfold parseMetadataText. destruct txt as [| c r].
  - discriminate E.
  - now rewrite E.
Qed.







(** The record format documented in metadataManager.js. *)
Example documented_record_decodes :
  parseMetadataText (Some "-100123;10:b123456"%string)
  = mkMetaData (Some (JS.Num (-100123))) [(10, 123456)] [(123456, 10)]
      ["10"%string] [] [].
Proof. reflexivity. Qed.

Example documented_record_encodes :
  stringifyMetadata (Some (JS.Num (-100123))) [(10, 123456)] ["10"%string] []
  = "-100123;10:b123456"%string.
Proof. reflexivity. Qed.

Example malformed_entries_are_skipped :
  topicToFromChat
    (parseMetadataText (Some "-100123;x:1;10:555;11:zzz;12:b9:ann"%string))
  = [(10, 555); (12, 9)].
Proof. reflexivity. Qed.

(* ------------------------------------------------------------------ *)
(** ** Encoding then decoding *)

Lemma Z_toString_no (x : ascii) (z : Z) :
  x = ";"%char \/ x = ":"%char \/ x = "b"%char ->
  str_all (not_char x) (JS.Z_toString z) = true.
Proof.
  intros Hx. apply str_all_impl with (p := is_sign_or_digit).
  - intros c. now apply sign_or_digit_not.
  - apply Z_toString_chars.
Qed.

Lemma strip_delims_no (x : ascii) (s : string) :
  x = ";"%char \/ x = ":"%char ->
  str_all (not_char x) (JS.strip_delims s) = true.
Proof.
  intros Hx. induction s as [| c r IH]; simpl; [reflexivity |].
  destruct (Ascii.eqb c ";") eqn:E1; simpl; [exact IH |].
  destruct (Ascii.eqb c ":") eqn:E2; simpl; [exact IH |].
  rewrite IH, andb_true_r. unfold not_char.
  destruct Hx as [-> | ->]; now rewrite ?E1, ?E2.
Qed.

Lemma startsWith_b_toString (z : Z) (r : string) :
  JS.startsWith "b" (JS.Z_toString z ++ r) = false.
Proof.
  destruct (Z_toString_head z) as [c [s [E Hc]]]. rewrite E. simpl.
  apply (sign_or_digit_not "b") in Hc; [| tauto].
  unfold not_char in Hc. now apply negb_true_iff in Hc.
Qed.

Lemma Z_toString_nonempty (z : Z) : JS.nonempty (JS.Z_toString z) = true.
Proof. destruct (Z_toString_head z) as [c [s [E _]]]. now rewrite E. Qed.

Lemma nonempty_app (a b : string) :
  JS.nonempty a = true -> JS.nonempty (a ++ b) = true.
Proof. destruct a; [discriminate | reflexivity]. Qed.

(** The text of a binding, taken apart. *)
Lemma stringifyEntry_shape (banned : list string) (t2c : JsMap.t string)
    (t u : Z) :
  let b := if JS.array_includes (JS.Z_toString t) banned
           then "b"%string else EmptyString in
  let c := encodedComment t2c t in
  stringifyEntry banned t2c (t, u)
  = (JS.Z_toString t
     ++ String ":" ((b ++ JS.Z_toString u)
                    ++ (if JS.nonempty c then String ":" c
                        else EmptyString)))%string.
Proof.
  intros b c. unfold stringifyEntry. fold (encodedComment t2c t). fold c.
  fold b. cbn [append]. rewrite str_app_assoc. reflexivity.
Qed.

Lemma stringifyEntry_split (banned : list string) (t2c : JsMap.t string)
    (t u : Z) :
  let b := if JS.array_includes (JS.Z_toString t) banned
           then "b"%string else EmptyString in
  let c := encodedComment t2c t in
  JS.split ":" (stringifyEntry banned t2c (t, u))
  = JS.Z_toString t :: (b ++ JS.Z_toString u)%string
      :: (if JS.nonempty c then [c] else []).
Proof.
  intros b c. rewrite stringifyEntry_shape. fold b. fold c.
  rewrite split_app_sep by (apply Z_toString_no; tauto).
  f_equal.
  assert (Hbu : str_all (not_char ":") (b ++ JS.Z_toString u) = true).
  { rewrite str_all_app, Z_toString_no by tauto.
    unfold b. now destruct (JS.array_includes _ _). }
  destruct (JS.nonempty c) eqn:Ec.
  - rewrite split_app_sep by exact Hbu. f_equal.
    apply split_no_sep. unfold c, encodedComment.
    destruct (JsMap.get t2c t) as [s |]; [| reflexivity].
    destruct (JS.nonempty s); [| reflexivity].
    apply strip_delims_no. tauto.
  - rewrite str_app_nil_r. now apply split_no_sep.
Qed.

Lemma parseEntry_stringifyEntry (banned : list string)
    (t2c : JsMap.t string) (acc : MetaData) (e : Z * Z) :
  parseEntry acc (stringifyEntry banned t2c e) = decodedEntry banned t2c acc e.
Proof.
  destruct e as [t u]. unfold parseEntry.
  rewrite stringifyEntry_split. cbv zeta.
  cbn [nth]. rewrite parseInt_toString.
  unfold decodedEntry. cbn [fst snd].
  destruct (JS.array_includes (JS.Z_toString t) banned) eqn:Eb.
  - cbn [append JS.startsWith JS.slice1]. rewrite Ascii.eqb_refl.
    rewrite parseInt_toString.
    destruct (JS.nonempty (encodedComment t2c t)) eqn:Ec;
      cbn [nth]; rewrite ?Ec; reflexivity.
  - cbn [append].
    pose proof (startsWith_b_toString u EmptyString) as Hs.
    rewrite str_app_nil_r in Hs. rewrite Hs, parseInt_toString.
    destruct (JS.nonempty (encodedComment t2c t)) eqn:Ec;
      cbn [nth]; rewrite ?Ec; reflexivity.
Qed.

Lemma stringifyEntry_piece (banned : list string) (t2c : JsMap.t string)
    (e : Z * Z) :
  str_all (not_char ";") (stringifyEntry banned t2c e) = true
  /\ JS.nonempty (stringifyEntry banned t2c e) = true.
Proof.
  destruct e as [t u]. rewrite stringifyEntry_shape. split.
  - rewrite str_all_app, Z_toString_no by tauto.
    cbn [str_all andb]. rewrite !str_all_app, Z_toString_no by tauto.
    replace (not_char ";" ":") with true by reflexivity.
    destruct (JS.array_includes _ _); cbn [str_all andb];
      destruct (JS.nonempty (encodedComment t2c t)); cbn [str_all andb];
      try reflexivity.
    all: unfold encodedComment;
      destruct (JsMap.get t2c t) as [s |]; [| reflexivity];
      destruct (JS.nonempty s); [| reflexivity];
      rewrite strip_delims_no by tauto; reflexivity.
  - apply nonempty_app, Z_toString_nonempty.
Qed.

Lemma parseInt_num_toString (g : JS.num) :
  JS.parseInt (JS.num_toString g) = g.
Proof. destruct g as [| z]; [reflexivity | apply parseInt_toString]. Qed.

Lemma num_toString_piece (g : JS.num) :
  str_all (not_char ";") (JS.num_toString g) = true
  /\ JS.nonempty (JS.num_toString g) = true.
Proof.
  destruct g as [| z]; [split; reflexivity |]. split.
  - apply Z_toString_no. tauto.
  - apply Z_toString_nonempty.
Qed.

Lemma filter_all_true {A : Type} (p : A -> bool) (l : list A) :
  Forall (fun x => p x = true) l -> filter p l = l.
Proof.
  induction 1 as [| x l Hx _ IH]; simpl; [reflexivity |].
  now rewrite Hx, IH.
Qed.

Lemma pieces_stringifyMetadata (g : JS.num) (t2f : JsMap.t Z)
    (banned : list string) (t2c : JsMap.t string) :
  pieces (stringifyMetadata (Some g) t2f banned t2c)
  = JS.num_toString g :: map (stringifyEntry banned t2c) t2f.
Proof.
  unfold pieces, stringifyMetadata. cbn [groupIdText].
  rewrite split_join.
  - apply filter_all_true. constructor.
    + apply num_toString_piece.
    + apply Forall_forall. intros s Hs.
      apply in_map_iff in Hs as [e [<- _]]. apply stringifyEntry_piece.
  - constructor.
    + apply num_toString_piece.
    + apply Forall_forall. intros s Hs.
      apply in_map_iff in Hs as [e [<- _]]. apply stringifyEntry_piece.
Qed.

Lemma fold_parseEntry_stringified (banned : list string)
    (t2c : JsMap.t string) (l : list (Z * Z)) :
  forall acc,
    fold_left parseEntry (map (stringifyEntry banned t2c) l) acc
    = fold_left (decodedEntry banned t2c) l acc.
Proof.
  induction l as [| e r IH]; intros acc; [reflexivity |].
  simpl. rewrite parseEntry_stringifyEntry. apply IH.
Qed.

(** Decoding an encoding, as a fold over the encoded bindings. *)
Lemma parse_stringify (g : JS.num) (t2f : JsMap.t Z)
    (banned : list string) (t2c : JsMap.t string) :
  parseMetadataText (Some (stringifyMetadata (Some g) t2f banned t2c))
  = fold_left (decodedEntry banned t2c) t2f
      (decodeStart (JS.num_toString g)).
Proof.
  rewrite (parseMetadataText_unfold _ _ _
             (pieces_stringifyMetadata g t2f banned t2c)).
  apply fold_parseEntry_stringified.
Qed.

Lemma find_app_some {A : Type} (p : A -> bool) (a b : list A) (x : A) :
  find p a = Some x -> find p (a ++ b) = Some x.
Proof.
  induction a as [| y a IH]; simpl; [discriminate |].
  destruct (p y); [trivial | exact IH].
Qed.

Lemma find_app_none {A : Type} (p : A -> bool) (a b : list A) :
  find p a = None -> find p (a ++ b) = find p b.
Proof.
  induction a as [| y a IH]; simpl; [reflexivity |].
  destruct (p y); [discriminate | exact IH].
Qed.

Section DecodedFold.
Variables (banned : list string) (t2c : JsMap.t string).

Lemma decoded_group (l : list (Z * Z)) :
  forall acc,
    superGroupChatId (fold_left (decodedEntry banned t2c) l acc)
    = superGroupChatId acc.
Proof.
  induction l as [| e r IH]; intros acc; [reflexivity |].
  simpl. now rewrite IH.
Qed.

Lemma decoded_topicToFromChat (l : list (Z * Z)) :
  forall acc,
    NoDup (JsMap.keys (topicToFromChat acc ++ l)) ->
    topicToFromChat (fold_left (decodedEntry banned t2c) l acc)
    = topicToFromChat acc ++ l.
Proof.
  induction l as [| [t u] r IH]; intros acc Hnd.
  - now rewrite app_nil_r.
  - simpl fold_left.
    assert (Hfresh : ~ In t (JsMap.keys (topicToFromChat acc))).
    { unfold JsMap.keys in *. rewrite map_app in Hnd. simpl in Hnd.
      apply NoDup_remove_2 in Hnd. intros Hin. apply Hnd.
      apply in_or_app. now left. }
    rewrite IH.
    + cbn [decodedEntry topicToFromChat fst snd].
      rewrite set_fresh by exact Hfresh.
      rewrite <- app_assoc. reflexivity.
    + cbn [decodedEntry topicToFromChat fst snd].
      rewrite set_fresh by exact Hfresh.
      rewrite <- app_assoc. exact Hnd.
Qed.

Lemma decoded_bannedTopics (l : list (Z * Z)) :
  forall acc,
    bannedTopics (fold_left (decodedEntry banned t2c) l acc)
    = bannedTopics acc
      ++ map (fun e => JS.Z_toString (fst e))
           (filter (fun e => JS.array_includes (JS.Z_toString (fst e)) banned)
              l).
Proof.
  induction l as [| e r IH]; intros acc.
  - simpl. now rewrite app_nil_r.
  - simpl fold_left. rewrite IH. cbn [decodedEntry bannedTopics filter].
    destruct (JS.array_includes (JS.Z_toString (fst e)) banned).
    + simpl. now rewrite <- app_assoc.
    + reflexivity.
Qed.

Lemma decoded_fromChatToTopic (l : list (Z * Z)) :
  forall acc u,
    JsMap.get (fromChatToTopic (fold_left (decodedEntry banned t2c) l acc)) u
    = match find (fun e => snd e =? u) (rev l) with
      | Some e => Some (fst e)
      | None => JsMap.get (fromChatToTopic acc) u
      end.
Proof.
  induction l as [| e r IH]; intros acc u; [reflexivity |].
  simpl fold_left. rewrite IH. simpl rev.
  destruct (find (fun e0 => snd e0 =? u) (rev r)) as [e' |] eqn:F.
  - now rewrite (find_app_some _ _ _ e' F).
  - rewrite find_app_none by exact F. simpl.
    cbn [decodedEntry fromChatToTopic].
    destruct (Z.eqb_spec (snd e) u) as [<- | Hne].
    + apply get_set_same.
    + now apply get_set_other.
Qed.

End DecodedFold.

Lemma get_In {V : Type} (m : JsMap.t V) (k : Z) (v : V) :
  JsMap.get m k = Some v -> In (k, v) m.
Proof.
  induction m as [| [k' v'] r IH]; simpl; [discriminate |].
  destruct (Z.eqb_spec k' k) as [-> | Hne].
  - intros E. injection E as ->. now left.
  - intros E. right. now apply IH.
Qed.

Lemma In_get {V : Type} (m : JsMap.t V) (k : Z) (v : V) :
  JsMap.wf m -> In (k, v) m -> JsMap.get m k = Some v.
Proof.
  unfold JsMap.wf. induction m as [| [k' v'] r IH]; simpl; [tauto |].
  intros Hnd [E | Hin].
  - injection E as -> ->. now rewrite Z.eqb_refl.
  - inversion Hnd as [| ? ? Hfresh Hr]; subst.
    destruct (Z.eqb_spec k' k) as [-> | Hne].
    + exfalso. apply Hfresh. apply in_map_iff. now exists (k, v).
    + now apply IH.
Qed.

(** The round trip of an encoding whose group id is set, whatever its
    length. *)
Lemma parse_serialize (d : MetaData) (g : JS.num) :
  superGroupChatId d = Some g ->
  JsMap.wf (topicToFromChat d) ->
  let d' := parseMetadataText (Some (serialize d)) in
  superGroupChatId d' = Some g
  /\ topicToFromChat d' = topicToFromChat d
  /\ (forall t, JsMap.has (topicToFromChat d) t = true ->
        isTopicBanned d' t = isTopicBanned d t)
  /\ (mutualInverses d ->
      forall u, JsMap.get (fromChatToTopic d') u
                = JsMap.get (fromChatToTopic d) u).
Proof.
  intros Hg Hwf d'. subst d'. unfold serialize. rewrite Hg, parse_stringify.
  split; [| split; [| split]].
  - rewrite decoded_group. cbn. now rewrite parseInt_num_toString.
  - rewrite decoded_topicToFromChat; [reflexivity | exact Hwf].
  - intros t Ht. unfold isTopicBanned. rewrite decoded_bannedTopics.
    cbn [decodeStart bannedTopics app].
    unfold JsMap.has in Ht.
    destruct (JsMap.get (topicToFromChat d) t) as [u |] eqn:Eg;
      [| discriminate].
    apply get_In in Eg.
    destruct (JS.array_includes (JS.Z_toString t) (bannedTopics d)) eqn:Eb.
    + apply array_includes_In. apply in_map_iff.
      exists (t, u). split; [reflexivity |].
      apply filter_In. split; [exact Eg | exact Eb].
    + destruct (JS.array_includes (JS.Z_toString t)
                  (map (fun e => JS.Z_toString (fst e))
                     (filter (fun e => JS.array_includes
                                         (JS.Z_toString (fst e))
                                         (bannedTopics d))
                        (topicToFromChat d)))) eqn:Ei; [| reflexivity].
      apply array_includes_In in Ei.
      apply in_map_iff in Ei as [e [Ee Hin]].
      apply filter_In in Hin as [_ Hb].
      rewrite Ee, Eb in Hb. discriminate.
  - intros Hinv u. rewrite decoded_fromChatToTopic.
    cbn [decodeStart fromChatToTopic JsMap.get JsMap.empty].
    destruct (find (fun e => snd e =? u) (rev (topicToFromChat d)))
      as [[t u'] |] eqn:F.
    + apply find_some in F as [Hin Hu]. cbn [snd] in Hu.
      apply Z.eqb_eq in Hu. subst u'. apply in_rev in Hin.
      cbn [fst]. symmetry. apply Hinv. now apply In_get.
    + destruct (JsMap.get (fromChatToTopic d) u) as [t |] eqn:Eu;
        [| reflexivity].
      apply Hinv in Eu. apply get_In in Eu. apply in_rev in Eu.
      apply (find_none _ _ F) in Eu. cbn [snd] in Eu.
      rewrite Z.eqb_refl in Eu. discriminate.
Qed.

(** C3, amended.  For a structure with a group id, whose ids are safe
    integers and whose encoding is at most 4096 characters, the codec
    writes that encoding unchanged, and decoding it gives the same group
    id, the same bindings in the same order, the same blocked flag for
    every bound topic and, when the two indices are mutual inverses, the
    same user-to-topic index. *)
Theorem codec_roundtrip (d : MetaData) (g : JS.num) :
  superGroupChatId d = Some g ->
  safeIds d = true ->
  JsMap.wf (topicToFromChat d) ->
  (String.length (serialize d) <= MAX_TEXT_LENGTH)%nat ->
  let d' := parseMetadataText (Some (serialize d)) in
  trimMetadataEntries d = (d, serialize d)
  /\ superGroupChatId d' = Some g
  /\ topicToFromChat d' = topicToFromChat d
  /\ (forall t, JsMap.has (topicToFromChat d) t = true ->
        isTopicBanned d' t = isTopicBanned d t)
  /\ (mutualInverses d ->
      forall u, JsMap.get (fromChatToTopic d') u
                = JsMap.get (fromChatToTopic d) u).
Proof.
  intros Hg Hsafe Hwf Hlen d'. split.
  - unfold trimMetadataEntries.
    apply Nat.leb_le in Hlen. now rewrite Hlen.
  - now apply parse_serialize.
Qed.

Lemma codec_roundtrip_witness :
  let d := blocked_and_labelled in
  let d' := parseMetadataText (Some (serialize d)) in
  trimMetadataEntries d = (d, serialize d)
  /\ superGroupChatId d' = Some (JS.Num (-100123))
  /\ topicToFromChat d' = topicToFromChat d
  /\ (forall t, JsMap.has (topicToFromChat d) t = true ->
        isTopicBanned d' t = isTopicBanned d t)
  /\ (mutualInverses d ->
      forall u, JsMap.get (fromChatToTopic d') u
                = JsMap.get (fromChatToTopic d) u).
Proof.
  apply (codec_roundtrip blocked_and_labelled (JS.Num (-100123))).
  - reflexivity.
  - reflexivity.
  - unfold JsMap.wf. simpl. repeat constructor; simpl; intuition lia.
  - apply Nat.leb_le. reflexivity.
Defined.

(** C3 as stated fails for a structure without group id: the text of its
    first binding is read back as the group id, and the binding is lost. *)
Lemma codec_roundtrip_needs_group :
  (String.length (serialize unbound_group) <= MAX_TEXT_LENGTH)%nat
  /\ serialize unbound_group = ";10:555"%string
  /\ superGroupChatId (parseMetadataText (Some (serialize unbound_group)))
     = Some (JS.Num 10)
  /\ topicToFromChat (parseMetadataText (Some (serialize unbound_group)))
     <> topicToFromChat unbound_group.
Proof.
  split; [| split; [| split]].
  - apply Nat.leb_le. vm_compute. reflexivity.
  - vm_compute. reflexivity.
  - vm_compute. reflexivity.
  - vm_compute. discriminate.
Qed.

(* ------------------------------------------------------------------ *)
(** ** Eviction: [trimMetadataEntries] *)

Lemma slice0_short (n : nat) (s : string) :
  (String.length s <= n)%nat -> JS.slice0 n s = s.
Proof.
  unfold JS.slice0. revert n. induction s as [| c r IH]; intros n H.
  - destruct n; reflexivity.
  - destruct n as [| n]; simpl in *; [lia |].
    rewrite IH by lia. reflexivity.
Qed.

Lemma slice0_length (n : nat) (s : string) :
  (String.length (JS.slice0 n s) <= n)%nat.
Proof.
  unfold JS.slice0. revert n. induction s as [| c r IH]; intros n.
  - destruct n; simpl; lia.
  - destruct n as [| n]; simpl; [lia |].
    specialize (IH n). lia.
Qed.

Lemma stringifyEntry_ext (b1 b2 : list string) (c1 c2 : JsMap.t string)
    (l : list (Z * Z)) :
  (forall t, In t (JsMap.keys l) ->
      JS.array_includes (JS.Z_toString t) b1
      = JS.array_includes (JS.Z_toString t) b2
      /\ JsMap.get c1 t = JsMap.get c2 t) ->
  map (stringifyEntry b1 c1) l = map (stringifyEntry b2 c2) l.
Proof.
  intros H. apply map_ext_in. intros [t u] Hin.
  destruct (H t) as [Hb Hc].
  { apply in_map_iff. now exists (t, u). }
  unfold stringifyEntry. now rewrite Hb, Hc.
Qed.

Lemma keys_skipn_incl {V : Type} (k : nat) (l : JsMap.t V) (t : Z) :
  In t (JsMap.keys (skipn k l)) -> In t (JsMap.keys l).
Proof.
  unfold JsMap.keys. intros H. apply in_map_iff in H as [e [<- He]].
  apply in_map. rewrite <- (firstn_skipn k l). apply in_or_app. now right.
Qed.

Lemma encodeSuffix_removeMapping (d : MetaData) (t u : Z)
    (r : list (Z * Z)) (k : nat) :
  topicToFromChat d = (t, u) :: r -> ~ In t (JsMap.keys r) ->
  encodeSuffix (removeMapping d t) k = encodeSuffix d (S k).
Proof.
  intros Hl Hfresh. unfold encodeSuffix.
  rewrite removeMapping_superGroupChatId, removeMapping_topicToFromChat,
    removeMapping_bannedTopics, removeMapping_topicToComment.
  rewrite Hl, delete_head by exact Hfresh. cbn [skipn].
  unfold stringifyMetadata. f_equal. f_equal.
  apply stringifyEntry_ext. intros t' Hin.
  assert (Hne : t' <> t).
  { intros ->. apply Hfresh. now apply keys_skipn_incl in Hin. }
  split.
  - apply remove_first_other. intros E. apply Z_toString_inj in E.
    congruence.
  - apply get_delete_other. congruence.
Qed.

Lemma encodeSuffix_0 (d : MetaData) : encodeSuffix d 0 = serialize d.
Proof. reflexivity. Qed.

(** The eviction loop removes the [k] oldest bindings, where [k] is the
    first count at which the encoding fits, or every binding when none
    does. *)
Lemma trimLoop_spec (l : list (Z * Z)) :
  forall d,
    topicToFromChat d = l -> NoDup (JsMap.keys l) ->
    exists k,
      (k <= List.length l)%nat
      /\ trimLoop (JsMap.keys l) d (serialize d)
         = (fst (trimLoop (JsMap.keys l) d (serialize d)), encodeSuffix d k)
      /\ topicToFromChat (fst (trimLoop (JsMap.keys l) d (serialize d)))
         = skipn k l
      /\ (forall j, (j < k)%nat ->
            (MAX_TEXT_LENGTH < String.length (encodeSuffix d j))%nat)
      /\ ((String.length (encodeSuffix d k) <= MAX_TEXT_LENGTH)%nat
          \/ k = List.length l).
Proof.
  induction l as [| [t u] r IH]; intros d Hl Hnd.
  - exists 0%nat. cbn [JsMap.keys map trimLoop].
    unfold JsMap.size. rewrite Hl. cbn [List.length Nat.ltb Nat.leb andb].
    rewrite andb_false_r. cbn [fst skipn].
    split; [lia |]. split; [reflexivity |]. split; [exact Hl |].
    split; [intros j Hj; lia | now right].
  - cbn [JsMap.keys map trimLoop]. unfold JsMap.size. rewrite Hl.
    cbn [List.length]. replace (Nat.ltb 0 (S (List.length r))) with true
      by reflexivity.
    rewrite andb_true_r.
    destruct (Nat.ltb MAX_TEXT_LENGTH (String.length (serialize d))) eqn:Hlen.
    + apply Nat.ltb_lt in Hlen.
      inversion Hnd as [| ? ? Hfresh Hr]; subst.
      assert (Hl1 : topicToFromChat (removeMapping d t) = r).
      { rewrite removeMapping_topicToFromChat, Hl.
        now apply delete_head. }
      destruct (IH (removeMapping d t) Hl1 Hr)
        as [k [Hk [Es [Et [Hbig Hfit]]]]].
      fold (JsMap.keys r).
      exists (S k). split; [lia |]. split; [| split; [| split]].
      * rewrite Es at 1. cbn [fst].
        now rewrite (encodeSuffix_removeMapping d t u r k Hl Hfresh).
      * exact Et.
      * intros j Hj. destruct j as [| j].
        -- now rewrite encodeSuffix_0.
        -- rewrite <- (encodeSuffix_removeMapping d t u r j Hl Hfresh).
           apply Hbig. lia.
      * rewrite <- (encodeSuffix_removeMapping d t u r k Hl Hfresh).
        destruct Hfit as [Hfit | ->]; [now left | now right].
    + apply Nat.ltb_ge in Hlen.
      exists 0%nat. cbn [fst skipn]. rewrite encodeSuffix_0.
      split; [lia |]. split; [reflexivity |]. split; [exact Hl |].
      split; [intros j Hj; lia | now left].
Qed.

Lemma wf_skipn {V : Type} (k : nat) (l : JsMap.t V) :
  JsMap.wf l -> JsMap.wf (skipn k l).
Proof.
  unfold JsMap.wf, JsMap.keys. intros H.
  rewrite <- skipn_map.
  rewrite <- (firstn_skipn k (map fst l)) in H.
  now apply NoDup_app_remove_l in H.
Qed.

Lemma str_all_substring (p : ascii -> bool) (s : string) :
  forall n m, str_all p s = true -> str_all p (substring n m s) = true.
Proof.
  induction s as [| c r IH]; intros n m H.
  - destruct n, m; reflexivity.
  - simpl in H. apply andb_true_iff in H as [Hc Hr].
    destruct n as [| n]; [destruct m as [| m] |]; simpl.
    + reflexivity.
    + rewrite Hc. now apply IH.
    + now apply IH.
Qed.

Lemma parse_single_piece (s : string) :
  str_all (not_char ";") s = true ->
  topicToFromChat (parseMetadataText (Some s)) = [].
Proof.
  intros H. unfold parseMetadataText. destruct s as [| c r]; [reflexivity |].
  unfold pieces. rewrite split_no_sep by exact H. reflexivity.
Qed.

(** C4, amended.  For a structure with a group id, whose ids are safe
    integers and whose naive encoding
    exceeds 4096 characters, [trimMetadataEntries] returns a text of at most
    4096 characters: the encoding of the structure without its [k] oldest
    bindings, where [k] is the first count at which the encoding fits (or
    the number of bindings when no count does, the text being cut at 4096
    characters).  Decoding the text gives exactly the remaining, most
    recently inserted bindings with their blocked flags, and the caller's
    structure is left with the same bindings. *)
Theorem trim_keeps_most_recent (d : MetaData) (g : JS.num) :
  superGroupChatId d = Some g ->
  safeIds d = true ->
  JsMap.wf (topicToFromChat d) ->
  (MAX_TEXT_LENGTH < String.length (serialize d))%nat ->
  let d' := fst (trimMetadataEntries d) in
  let text := snd (trimMetadataEntries d) in
  (String.length text <= MAX_TEXT_LENGTH)%nat
  /\ exists k,
      (k <= List.length (topicToFromChat d))%nat
      /\ text = JS.slice0 MAX_TEXT_LENGTH (encodeSuffix d k)
      /\ (forall j, (j < k)%nat ->
            (MAX_TEXT_LENGTH < String.length (encodeSuffix d j))%nat)
      /\ ((String.length (encodeSuffix d k) <= MAX_TEXT_LENGTH)%nat
          /\ text = encodeSuffix d k
          \/ k = List.length (topicToFromChat d))
      /\ topicToFromChat (parseMetadataText (Some text))
         = skipn k (topicToFromChat d)
      /\ (forall t, In t (JsMap.keys (skipn k (topicToFromChat d))) ->
            isTopicBanned (parseMetadataText (Some text)) t
            = isTopicBanned d t)
      /\ topicToFromChat d' = skipn k (topicToFromChat d).
Proof.
  intros Hg Hsafe Hwf Hlong d' text. subst d' text.
  destruct (trimLoop_spec (topicToFromChat d) d eq_refl Hwf)
    as [k [Hk [Es [Et [Hbig Hfit]]]]].
  unfold trimMetadataEntries.
  assert (Hleb : Nat.leb (String.length (serialize d)) MAX_TEXT_LENGTH
                 = false) by (apply Nat.leb_gt; exact Hlong).
  rewrite Hleb, Es. cbn [fst snd].
  split; [apply slice0_length |].
  exists k. split; [exact Hk |]. split; [reflexivity |].
  split; [exact Hbig |].
  destruct (Nat.le_gt_cases (String.length (encodeSuffix d k))
              MAX_TEXT_LENGTH) as [Hshort | Hcut].
  - rewrite slice0_short by exact Hshort.
    split; [left; split; [exact Hshort | reflexivity] |].
    pose (dk := mkMetaData (Some g) (skipn k (topicToFromChat d)) []
                  (bannedTopics d) (topicToComment d) []).
    assert (Edk : encodeSuffix d k = serialize dk)
      by (unfold encodeSuffix, serialize, dk; cbn; now rewrite Hg).
    destruct (parse_serialize dk g eq_refl (wf_skipn k _ Hwf))
      as [_ [Ht [Hb _]]].
    rewrite Edk. split; [exact Ht |]. split; [| exact Et].
    intros t Hin. rewrite Hb.
    + reflexivity.
    + unfold JsMap.has. cbn [dk topicToFromChat].
      destruct (JsMap.get (skipn k (topicToFromChat d)) t) eqn:E;
        [reflexivity |].
      apply get_none_keys in E. contradiction.
  - destruct Hfit as [Hfit | Hall]; [lia |].
    split; [now right |].
    assert (Hnone : skipn k (topicToFromChat d) = [])
      by (rewrite Hall; apply skipn_all).
    rewrite Hnone. split; [| split; [intros t [] | now rewrite Et, Hnone]].
    apply parse_single_piece. unfold JS.slice0.
    apply str_all_substring.
    unfold encodeSuffix. rewrite Hnone, Hg.
    apply num_toString_piece.
Qed.

Lemma trim_keeps_most_recent_witness :
  let d := bound_group_long in
  let d' := fst (trimMetadataEntries d) in
  let text := snd (trimMetadataEntries d) in
  (String.length text <= MAX_TEXT_LENGTH)%nat
  /\ exists k,
      (k <= List.length (topicToFromChat d))%nat
      /\ text = JS.slice0 MAX_TEXT_LENGTH (encodeSuffix d k)
      /\ (forall j, (j < k)%nat ->
            (MAX_TEXT_LENGTH < String.length (encodeSuffix d j))%nat)
      /\ ((String.length (encodeSuffix d k) <= MAX_TEXT_LENGTH)%nat
          /\ text = encodeSuffix d k
          \/ k = List.length (topicToFromChat d))
      /\ topicToFromChat (parseMetadataText (Some text))
         = skipn k (topicToFromChat d)
      /\ (forall t, In t (JsMap.keys (skipn k (topicToFromChat d))) ->
            isTopicBanned (parseMetadataText (Some text)) t
            = isTopicBanned d t)
      /\ topicToFromChat d' = skipn k (topicToFromChat d).
Proof.
  apply (trim_keeps_most_recent bound_group_long (JS.Num (-100123))).
  - reflexivity.
  - reflexivity.
  - unfold JsMap.wf. simpl. repeat constructor; simpl; intuition lia.
  - apply Nat.ltb_lt. vm_compute. reflexivity.
Defined.

Example trim_evicts_the_oldest :
  trimMetadataEntries bound_group_long
  = (mkMetaData (Some (JS.Num (-100123))) [(11, 556)] [(556, 11)] [] [] [],
     "-100123;11:556"%string).
Proof. vm_compute. reflexivity. Qed.

(** C4 as stated fails for a structure without group id: after the eviction
    of the oldest binding the text fits, but the remaining binding is read
    back as the group id, so the decoded structure holds no binding. *)
Lemma trim_needs_group :
  (MAX_TEXT_LENGTH < String.length (serialize unbound_group_long))%nat
  /\ snd (trimMetadataEntries unbound_group_long) = ";11:556"%string
  /\ topicToFromChat (fst (trimMetadataEntries unbound_group_long))
     = [(11, 556)]
  /\ topicToFromChat
       (parseMetadataText (Some (snd (trimMetadataEntries unbound_group_long))))
     = [].
Proof.
  split; [| split; [| split]].
  - apply Nat.ltb_lt. vm_compute. reflexivity.
  - vm_compute. reflexivity.
  - vm_compute. reflexivity.
  - vm_compute. reflexivity.
Qed.

(* ------------------------------------------------------------------ *)
(** ** The relay: traces only grow *)

Local Open Scope relay_scope.

Lemma extends_ret {A : Type} (a : A) : extends (ret a).
Proof. intros w. exists []. simpl. now rewrite app_nil_r. Qed.

Lemma extends_throw {A : Type} (e : Error) : extends (@throw A e).
Proof. intros w. exists []. simpl. now rewrite app_nil_r. Qed.

Lemma extends_out_of_fuel {A : Type} : extends (fun w => @OutOfFuel A w).
Proof. intros w. exists []. simpl. now rewrite app_nil_r. Qed.

Lemma extends_bind {A B : Type} (m : M A) (k : A -> M B) :
  extends m -> (forall a, extends (k a)) -> extends (bind m k).
Proof.
  intros Hm Hk w. unfold bind. destruct (Hm w) as [s Hs].
  destruct (m w) as [a w1 | e w1 | w1]; simpl in Hs.
  - destruct (Hk a w1) as [s' Hs']. exists (s ++ s').
    now rewrite Hs', Hs, app_assoc.
  - now exists s.
  - now exists s.
Qed.

Lemma extends_tryCatch {A : Type} (m : M A) (h : Error -> M A) :
  extends m -> (forall e, extends (h e)) -> extends (tryCatch m h).
Proof.
  intros Hm Hh w. unfold tryCatch. destruct (Hm w) as [s Hs].
  destruct (m w) as [a w1 | e w1 | w1]; simpl in Hs.
  - now exists s.
  - destruct (Hh e w1) as [s' Hs']. exists (s ++ s').
    now rewrite Hs', Hs, app_assoc.
  - now exists s.
Qed.

Lemma extends_getMeta : extends getMeta.
Proof. intros w. exists []. simpl. now rewrite app_nil_r. Qed.

Lemma extends_setMeta (d : MetaData) : extends (setMeta d).
Proof. intros w. exists []. simpl. now rewrite app_nil_r. Qed.

Lemma extends_getKvStore : extends getKvStore.
Proof. intros w. exists []. simpl. now rewrite app_nil_r. Qed.

Lemma extends_setKv (kv : option KvStore) : extends (setKv kv).
Proof. intros w. exists []. simpl. now rewrite app_nil_r. Qed.

Lemma extends_callTelegramApi (gw : Gateway) (report : bool) (c : Call) :
  extends (callTelegramApi gw report c).
Proof.
  intros w. unfold callTelegramApi. cbn [outcomeWorld w_trace].
  destruct (negb (ok (gw (w_trace w) c)) && report
            && negb (is_sendMessage c)).
  - eexists. now rewrite <- app_assoc.
  - now eexists.
Qed.

Create HintDb relay_extends.

Ltac extends_step :=
  first
    [ apply extends_ret | apply extends_throw | apply extends_out_of_fuel
    | apply extends_getMeta | apply extends_setMeta
    | apply extends_getKvStore | apply extends_setKv
    | apply extends_callTelegramApi
    | solve [auto 1 with relay_extends nocore]
    | apply extends_bind; [| intro]
    | apply extends_tryCatch; [| intro]
    | match goal with
      | |- extends (match ?x with _ => _ end) => destruct x
      | |- extends (if ?b then _ else _) => destruct b
      end ].

Ltac extends_auto := repeat extends_step.

Section RelayExtends.
Variable gw : Gateway.

Lemma extends_setReaction chat mid r : extends (setReaction gw chat mid r).
Proof. unfold setReaction. extends_auto. Qed.
#[local] Hint Resolve extends_setReaction : relay_extends.

Lemma extends_notifyMessageSent chat mid :
  extends (notifyMessageSent gw chat mid).
Proof. unfold notifyMessageSent. extends_auto. Qed.
#[local] Hint Resolve extends_notifyMessageSent : relay_extends.

Lemma extends_notifyMessageFailed chat mid :
  extends (notifyMessageFailed gw chat mid).
Proof. unfold notifyMessageFailed. extends_auto. Qed.
#[local] Hint Resolve extends_notifyMessageFailed : relay_extends.

Lemma extends_isSupergroupAdmin g u : extends (isSupergroupAdmin gw g u).
Proof. unfold isSupergroupAdmin. extends_auto. Qed.
#[local] Hint Resolve extends_isSupergroupAdmin : relay_extends.

Lemma extends_editMetadata mm text : extends (editMetadata gw mm text).
Proof. unfold editMetadata. extends_auto. Qed.
#[local] Hint Resolve extends_editMetadata : relay_extends.

Lemma extends_updateMapping mm : extends (updateMapping gw mm).
Proof.
  unfold updateMapping.
  apply extends_bind; [apply extends_getMeta | intro data].
  apply extends_bind; [apply extends_getKvStore | intro kv].
  apply extends_bind; [extends_auto | intros _].
  destruct (trimMetadataEntries data) as [d' text].
  extends_auto.
Qed.
#[local] Hint Resolve extends_updateMapping : relay_extends.

Lemma extends_createTopic mm u msg : extends (createTopic gw mm u msg).
Proof. unfold createTopic, safeCall. extends_auto. Qed.
#[local] Hint Resolve extends_createTopic : relay_extends.

Lemma extends_ensureTopic mm u msg : extends (ensureTopic gw mm u msg).
Proof. unfold ensureTopic. extends_auto. Qed.
#[local] Hint Resolve extends_ensureTopic : relay_extends.

Lemma extends_loadMessageMappingText g :
  extends (loadMessageMappingText gw g).
Proof. unfold loadMessageMappingText. extends_auto. Qed.
#[local] Hint Resolve extends_loadMessageMappingText : relay_extends.

Lemma extends_findTopicMessageId g pm : extends (findTopicMessageId gw g pm).
Proof. unfold findTopicMessageId. extends_auto. Qed.
#[local] Hint Resolve extends_findTopicMessageId : relay_extends.

Lemma extends_addMessageMapping g t tm pm :
  extends (addMessageMapping gw g t tm pm).
Proof. unfold addMessageMapping. extends_auto. Qed.
#[local] Hint Resolve extends_addMessageMapping : relay_extends.

(** What follows the copy request in [relayAttempt]. *)
Lemma extends_relayAttempt mm msg : extends (relayAttempt gw mm msg).
Proof. unfold relayAttempt, safeCall. extends_auto. Qed.
#[local] Hint Resolve extends_relayAttempt : relay_extends.

Lemma extends_forwardPrivateToTopic (fuel : nat) :
  forall mm msg, extends (forwardPrivateToTopic gw fuel mm msg).
Proof.
  induction fuel as [| f IH]; intros mm msg.
  - apply extends_out_of_fuel.
  - cbn [forwardPrivateToTopic]. unfold safeCall. extends_auto.
Qed.

End RelayExtends.

(* ------------------------------------------------------------------ *)
(** ** The relay: administrators, blocked topics and invalid threads *)

(** C8.  When the user chat has no binding and the platform reports the
    user as creator or administrator of the group, [ensureTopic] throws the
    administrator error after the membership request alone: no thread is
    created remotely and the metadata structure, hence its bindings, is
    left as it was. *)
Theorem ensureTopic_refuses_admin (gw : Gateway) (w : World)
    (mm : option Result) (u : Z) (msg : Message) :
  JsMap.get (fromChatToTopic (w_meta w)) u = None ->
  reportsAdmin
    (gw (w_trace w)
       (getChatMember (Supergroup (superGroupChatId (w_meta w))) u)) = true ->
  ensureTopic gw mm u msg w
  = Thrown AdminConflict
      (mkWorld (w_meta w) (w_kv w)
         (w_trace w
          ++ [getChatMember (Supergroup (superGroupChatId (w_meta w))) u])).
Proof.
  intros Hnone Hadmin.
  unfold ensureTopic, bind, getMeta. rewrite Hnone.
  unfold createTopic, bind, getMeta, isSupergroupAdmin, bind,
    callTelegramApi, ret.
  cbn [andb negb w_meta w_kv w_trace].
  rewrite andb_false_r. cbn [w_meta w_kv w_trace].
  unfold reportsAdmin in Hadmin.
  destruct (result (gw (w_trace w)
                      (getChatMember
                         (Supergroup (superGroupChatId (w_meta w))) u)))
    as [res |]; [| discriminate Hadmin].
  destruct (status res) as [s |]; [| discriminate Hadmin].
  rewrite Hadmin. reflexivity.
Qed.

Lemma ensureTopic_refuses_admin_witness :
  ensureTopic adminGateway pinnedRecord 555 hello
    (mkWorld no_binding (Some emptyKv) [])
  = Thrown AdminConflict
      (mkWorld no_binding (Some emptyKv)
         [getChatMember (Supergroup (Some (JS.Num (-100123)))) 555]).
Proof.
  apply (ensureTopic_refuses_admin adminGateway
           (mkWorld no_binding (Some emptyKv) []) pinnedRecord 555 hello).
  - reflexivity.
  - reflexivity.
Defined.

#[local] Hint Resolve extends_setReaction extends_notifyMessageSent
  extends_notifyMessageFailed extends_isSupergroupAdmin extends_editMetadata
  extends_updateMapping extends_createTopic extends_ensureTopic
  extends_loadMessageMappingText extends_findTopicMessageId
  extends_addMessageMapping extends_relayAttempt
  extends_forwardPrivateToTopic : relay_extends.

Lemma bind_grows {A B : Type} (m : M A) (k : A -> M B) (w : World)
    (s : list Call) :
  w_trace (outcomeWorld (m w)) = w_trace w ++ s ->
  (forall a, extends (k a)) ->
  exists s', w_trace (outcomeWorld (bind m k w)) = w_trace w ++ s ++ s'.
Proof.
  intros Hs Hk. unfold bind.
  destruct (m w) as [a w1 | e w1 | w1]; simpl in Hs.
  - destruct (Hk a w1) as [s' Hs']. exists s'.
    now rewrite Hs', Hs, app_assoc.
  - exists []. simpl. now rewrite app_nil_r.
  - exists []. simpl. now rewrite app_nil_r.
Qed.

Lemma tryCatch_grows {A : Type} (m : M A) (h : Error -> M A) (w : World)
    (s : list Call) :
  w_trace (outcomeWorld (m w)) = w_trace w ++ s ->
  (forall e, extends (h e)) ->
  exists s', w_trace (outcomeWorld (tryCatch m h w)) = w_trace w ++ s ++ s'.
Proof.
  intros Hs Hh. unfold tryCatch.
  destruct (m w) as [a w1 | e w1 | w1]; simpl in Hs.
  - exists []. simpl. now rewrite app_nil_r.
  - destruct (Hh e w1) as [s' Hs']. exists s'.
    now rewrite Hs', Hs, app_assoc.
  - exists []. simpl. now rewrite app_nil_r.
Qed.

Lemma findTopicMessageId_done (gw : Gateway) (g : option JS.num) (pm : Z)
    (w : World) :
  exists found s,
    findTopicMessageId gw g pm w
    = Done found (mkWorld (w_meta w) (w_kv w) (w_trace w ++ s))
    /\ (forall c, In c s -> isCopy c = false).
Proof.
  unfold findTopicMessageId, bind, getKvStore.
  destruct (w_kv w) as [store |] eqn:Ekv.
  - eexists. exists []. unfold ret. rewrite app_nil_r.
    split; [| intros c []]. destruct w; simpl in *. now subst.
  - unfold loadMessageMappingText, bind, callTelegramApi, ret.
    cbn [andb negb is_sendMessage w_meta w_kv w_trace].
    rewrite andb_false_r. rewrite Ekv.
    match goal with
    | |- context [match ?p with (text, _) => _ end] => destruct p
    end.
    eexists. eexists. split; [reflexivity |].
    intros c [<- | []]. reflexivity.
Qed.

Lemma isTopicBanned_markBan_false (d : MetaData) (t : Z) :
  at_most_once (JS.Z_toString t) (bannedTopics d) ->
  isTopicBanned (markBan d t false) t = false.
Proof.
  intros Honce. unfold isTopicBanned, markBan.
  cbn [bannedTopics andb negb].
  destruct (JS.array_includes (JS.Z_toString t) (bannedTopics d)) eqn:E.
  - now apply remove_first_once.
  - exact E.
Qed.

(** A blocked sender gets the notice and nothing is relayed. *)
Lemma blocked_relay (gw : Gateway) (w : World) (fuel : nat)
    (mm : option Result) (msg : Message) (t : Z) :
  JsMap.get (fromChatToTopic (w_meta w)) (chat_id msg) = Some t ->
  t <> 0 -> isTopicBanned (w_meta w) t = true ->
  forwardPrivateToTopic gw (S fuel) mm msg w
  = Done tt
      (mkWorld (w_meta w) (w_kv w)
         (w_trace w ++ [sendMessage (Private (chat_id msg)) None TextBlocked])).
Proof.
  intros Hget Hnz Hban. cbn [forwardPrivateToTopic].
  unfold bind at 1. unfold getMeta. rewrite Hget, Hban.
  rewrite (truthy_nonzero t Hnz). cbn [andb].
  unfold bind, safeCall, callTelegramApi, ret.
  cbn [is_sendMessage negb andb]. rewrite andb_false_r. reflexivity.
Qed.

Lemma safeCall_trace (gw : Gateway) (c : Call) (w : World) :
  exists r, w_trace (outcomeWorld (safeCall gw c w)) = w_trace w ++ c :: r.
Proof.
  unfold safeCall, callTelegramApi. cbn [outcomeWorld w_trace].
  destruct (negb (ok (gw (w_trace w) c)) && true && negb (is_sendMessage c)).
  - eexists. rewrite <- app_assoc. reflexivity.
  - now exists [].
Qed.

(** A sender whose topic is not blocked is relayed: the copy request for
    the message is posted. *)
Lemma unblocked_relay (gw : Gateway) (w : World) (fuel : nat)
    (mm : option Result) (msg : Message) (t : Z) :
  JsMap.get (fromChatToTopic (w_meta w)) (chat_id msg) = Some t ->
  t <> 0 -> isTopicBanned (w_meta w) t = false ->
  exists s thread reply,
    w_trace (outcomeWorld (forwardPrivateToTopic gw (S fuel) mm msg w))
    = w_trace w ++ s
    /\ In (copyMessage (Supergroup (superGroupChatId (w_meta w)))
             (chat_id msg) (msg_id msg) thread reply) s
    /\ (reply_to_message msg = None -> thread = t).
Proof.
  intros Hget Hnz Hban. cbn [forwardPrivateToTopic].
  unfold bind at 1. unfold getMeta. rewrite Hget, Hban.
  rewrite (truthy_nonzero t Hnz). cbn [andb].
  assert (Hbody : exists s thread reply,
             w_trace (outcomeWorld (relayAttempt gw mm msg w))
             = w_trace w ++ s
             /\ In (copyMessage (Supergroup (superGroupChatId (w_meta w)))
                      (chat_id msg) (msg_id msg) thread reply) s
             /\ (reply_to_message msg = None -> thread = t)).
  { unfold relayAttempt.
    set (handler := fun _ : Error => _).
    match goal with
    | |- context [tryCatch ?b handler] => set (body := b)
    end.
    assert (Hb : exists s thread reply,
               w_trace (outcomeWorld (body w)) = w_trace w ++ s
               /\ In (copyMessage (Supergroup (superGroupChatId (w_meta w)))
                        (chat_id msg) (msg_id msg) thread reply) s
               /\ (reply_to_message msg = None -> thread = t)).
    { unfold body. unfold bind at 1. unfold ensureTopic at 1.
      unfold bind at 1. unfold getMeta at 1. rewrite Hget.
      rewrite (truthy_nonzero t Hnz). unfold ret at 1.
      unfold bind at 1. unfold getMeta at 1.
      unfold bind at 1.
      destruct (reply_to_message msg) as [replied |] eqn:Er.
      - destruct (findTopicMessageId_done gw (superGroupChatId (w_meta w))
                    replied w) as [found [s1 [E1 Hs1]]].
        rewrite E1.
        match goal with
        | |- context [bind (safeCall gw ?c) ?k ?w1] =>
            destruct (safeCall_trace gw c w1) as [r Hr];
            destruct (bind_grows (safeCall gw c) k w1 (c :: r) Hr)
              as [s' Hs']; [intro resp; extends_auto |];
            exists (s1 ++ (c :: r) ++ s')
        end.
        eexists. eexists. rewrite Hs'. cbn [w_trace].
        rewrite <- app_assoc. split; [reflexivity |].
        split; [| discriminate].
        apply in_or_app. right. left. reflexivity.
      - unfold ret at 1. cbn [ref_topicId ref_topicMessageId truthyId].
        match goal with
        | |- context [bind (safeCall gw ?c) ?k ?w1] =>
            destruct (safeCall_trace gw c w1) as [r Hr];
            destruct (bind_grows (safeCall gw c) k w1 (c :: r) Hr)
              as [s' Hs']; [intro resp; extends_auto |];
            exists ((c :: r) ++ s')
        end.
        exists t. eexists. rewrite Hs'. split; [reflexivity |].
        split; [| reflexivity]. left. reflexivity. }
    destruct Hb as [s [thread [reply [Hs [Hin Hth]]]]].
    destruct (tryCatch_grows body handler w s Hs) as [s' Hs'].
    { intro e. unfold handler, safeCall. extends_auto. }
    exists (s ++ s'), thread, reply. split; [exact Hs' |].
    split; [| exact Hth]. apply in_or_app. now left. }
  destruct Hbody as [s [thread [reply [Hs [Hin Hth]]]]].
  match goal with
  | |- context [bind (relayAttempt gw mm msg) ?k w] =>
      destruct (bind_grows (relayAttempt gw mm msg) k w s Hs) as [s' Hs']
  end.
  { intro a. extends_auto. }
  exists (s ++ s'), thread, reply. split; [exact Hs' |].
  split; [| exact Hth]. apply in_or_app. now left.
Qed.

(** C7, amended.  When the sender's user chat is bound to a topic with a
    non-zero id that is marked blocked, [forwardPrivateToTopic] posts the
    blocked notice to the sender and nothing else: no copy request, no
    change of state.  Once [markBan] has cleared the flag (the topic being
    listed at most once in the blocked list), a relay from the same user
    chat, on whatever platform and store, posts the copy request for the
    message, into the bound topic when the message is not a reply. *)
Theorem blocked_topic_gates_relay (gw : Gateway) (w : World) (fuel : nat)
    (mm : option Result) (msg : Message) (t : Z) :
  JsMap.get (fromChatToTopic (w_meta w)) (chat_id msg) = Some t ->
  t <> 0 ->
  isTopicBanned (w_meta w) t = true ->
  at_most_once (JS.Z_toString t) (bannedTopics (w_meta w)) ->
  (forwardPrivateToTopic gw (S fuel) mm msg w
   = Done tt
       (mkWorld (w_meta w) (w_kv w)
          (w_trace w
           ++ [sendMessage (Private (chat_id msg)) None TextBlocked]))
   /\ copyCalls [sendMessage (Private (chat_id msg)) None TextBlocked]
      = 0%nat)
  /\ (forall gw' fuel' mm' kv' trace',
        exists s thread reply,
          w_trace
            (outcomeWorld
               (forwardPrivateToTopic gw' (S fuel') mm' msg
                  (mkWorld (markBan (w_meta w) t false) kv' trace')))
          = trace' ++ s
          /\ In (copyMessage (Supergroup (superGroupChatId (w_meta w)))
                   (chat_id msg) (msg_id msg) thread reply) s
          /\ (reply_to_message msg = None -> thread = t)).
Proof.
  intros Hget Hnz Hban Honce. split.
  - split; [now apply (blocked_relay gw w fuel mm msg t) | reflexivity].
  - intros gw' fuel' mm' kv' trace'.
    apply (unblocked_relay gw'
             (mkWorld (markBan (w_meta w) t false) kv' trace')
             fuel' mm' msg t).
    + exact Hget.
    + exact Hnz.
    + now apply isTopicBanned_markBan_false.
Qed.

Lemma blocked_topic_gates_relay_witness :
  let w := mkWorld (markBan bound_10_555 10 true) (Some emptyKv) [] in
  (forwardPrivateToTopic (rejecting 0) 1 pinnedRecord hello w
   = Done tt
       (mkWorld (w_meta w) (w_kv w)
          (w_trace w
           ++ [sendMessage (Private (chat_id hello)) None TextBlocked]))
   /\ copyCalls [sendMessage (Private (chat_id hello)) None TextBlocked]
      = 0%nat)
  /\ (forall gw' fuel' mm' kv' trace',
        exists s thread reply,
          w_trace
            (outcomeWorld
               (forwardPrivateToTopic gw' (S fuel') mm' hello
                  (mkWorld (markBan (w_meta w) 10 false) kv' trace')))
          = trace' ++ s
          /\ In (copyMessage (Supergroup (superGroupChatId (w_meta w)))
                   (chat_id hello) (msg_id hello) thread reply) s
          /\ (reply_to_message hello = None -> thread = 10)).
Proof.
  apply (blocked_topic_gates_relay (rejecting 0)
           (mkWorld (markBan bound_10_555 10 true) (Some emptyKv) [])
           0 pinnedRecord hello 10).
  - reflexivity.
  - discriminate.
  - reflexivity.
  - unfold at_most_once. vm_compute. repeat constructor.
Defined.

(** C7 as stated fails in two ways.  A sender bound to topic 0 that is
    listed as blocked is not stopped: a new thread is created and the
    message is copied into it.  And when the blocked list names a topic
    twice (as the decoder produces from a record that repeats a blocked
    entry), [markBan] clears one occurrence only and the sender stays
    blocked. *)
Lemma blocked_gate_exceptions :
  (JsMap.get (fromChatToTopic blocked_0) (chat_id hello) = Some 0
   /\ isTopicBanned blocked_0 0 = true
   /\ w_trace
        (outcomeWorld
           (forwardPrivateToTopic (rejecting 0) 1 pinnedRecord hello
              (mkWorld blocked_0 (Some emptyKv) [])))
      = [getChatMember (Supergroup (Some (JS.Num (-100123)))) 555;
         createForumTopic (Supergroup (Some (JS.Num (-100123))))
           "Guest (555)";
         editMessageText Owner (Some 5) "-100123;0:b555;11:555";
         copyMessage (Supergroup (Some (JS.Num (-100123)))) 555 1 11 None;
         setMessageReaction (Private 555) 1 [Dove]])
  /\ (JsMap.get (fromChatToTopic listed_twice) (chat_id hello) = Some 10
      /\ isTopicBanned listed_twice 10 = true
      /\ forwardPrivateToTopic (rejecting 0) 1 pinnedRecord hello
           (mkWorld (markBan listed_twice 10 false) (Some emptyKv) [])
         = Done tt
             (mkWorld (markBan listed_twice 10 false) (Some emptyKv)
                [sendMessage (Private 555) None TextBlocked])).
Proof. repeat split; vm_compute; reflexivity. Qed.

(** One pass of the relay for an unbound sender on a platform that rejects
    every copy request as addressed to a missing thread: a thread is
    created and bound, the copy is rejected, the binding is removed again,
    and the pass ends in the recursive call. *)
Lemma rejected_attempt (kv : option KvStore) (trace : list Call) :
  exists w1,
    relayAttempt alwaysRejecting pinnedRecord hello
      (mkWorld no_binding kv trace)
    = Done (Retry pinnedRecord) w1
    /\ w_meta w1 = no_binding
    /\ w_trace w1
       = trace
         ++ [getChatMember (Supergroup (Some (JS.Num (-100123)))) 555;
             createForumTopic (Supergroup (Some (JS.Num (-100123))))
               "Guest (555)";
             editMessageText Owner (Some 5) "-100123;11:555";
             copyMessage (Supergroup (Some (JS.Num (-100123)))) 555 1 11 None;
             sendMessage Owner None TextApiFailure;
             editMessageText Owner (Some 5) "-100123"].
Proof.
  destruct kv as [store |].
  - eexists. split; [vm_compute; reflexivity |]. split.
    + reflexivity.
    + cbn [w_trace].
      induction trace as [| c tr IH]; [reflexivity |].
      simpl. f_equal. exact IH.
  - eexists. split; [vm_compute; reflexivity |]. split.
    + reflexivity.
    + cbn [w_trace].
      induction trace as [| c tr IH]; [reflexivity |].
      simpl. f_equal. exact IH.
Qed.

(** C2, the retry.  On a platform that rejects every copy request as
    addressed to a missing thread, [forwardPrivateToTopic] never builds its
    response: whatever the depth allowed, the run is still in the recursive
    call, having posted one copy request per level. *)
Theorem relay_retries_without_bound (fuel : nat) :
  forall kv trace,
    exists w',
      forwardPrivateToTopic alwaysRejecting fuel pinnedRecord hello
        (mkWorld no_binding kv trace)
      = OutOfFuel w'
      /\ copyCalls (w_trace w') = (copyCalls trace + fuel)%nat.
Proof.
  induction fuel as [| f IH]; intros kv trace.
  - eexists. split; [reflexivity |]. cbn [w_trace]. lia.
  - destruct (rejected_attempt kv trace) as [[d1 kv1 tr1] [E [Hm Ht]]].
    cbn [w_meta w_trace] in Hm, Ht. subst d1 tr1.
    destruct (IH kv1
                (trace
                 ++ [getChatMember (Supergroup (Some (JS.Num (-100123)))) 555;
                     createForumTopic (Supergroup (Some (JS.Num (-100123))))
                       "Guest (555)";
                     editMessageText Owner (Some 5) "-100123;11:555";
                     copyMessage (Supergroup (Some (JS.Num (-100123))))
                       555 1 11 None;
                     sendMessage Owner None TextApiFailure;
                     editMessageText Owner (Some 5) "-100123"]))
      as [w' [Ew Hc]].
    exists w'. split.
    + cbn [forwardPrivateToTopic]. unfold bind at 1. unfold getMeta.
      cbn [w_meta no_binding fromChatToTopic JsMap.get chat_id hello].
      unfold bind at 1. rewrite E. exact Ew.
    + rewrite Hc. unfold copyCalls. rewrite filter_app, length_app.
      cbn [filter isCopy List.length]. lia.
Qed.

(** C2, the count.  On a platform that rejects the first two copy requests
    and accepts the third, the relay retries twice: three copy requests are
    posted before the message is delivered. *)
Lemma relay_retries_twice :
  exists w',
    forwardPrivateToTopic (rejecting 2) 5 pinnedRecord hello
      (mkWorld bound_10_555 (Some emptyKv) [])
    = Done tt w'
    /\ copyCalls (w_trace w') = 3%nat
    /\ w_trace w'
       = [copyMessage (Supergroup (Some (JS.Num (-100123)))) 555 1 10 None;
          sendMessage Owner None TextApiFailure;
          editMessageText Owner (Some 5) "-100123";
          getChatMember (Supergroup (Some (JS.Num (-100123)))) 555;
          createForumTopic (Supergroup (Some (JS.Num (-100123))))
            "Guest (555)";
          editMessageText Owner (Some 5) "-100123;11:555";
          copyMessage (Supergroup (Some (JS.Num (-100123)))) 555 1 11 None;
          sendMessage Owner None TextApiFailure;
          editMessageText Owner (Some 5) "-100123";
          getChatMember (Supergroup (Some (JS.Num (-100123)))) 555;
          createForumTopic (Supergroup (Some (JS.Num (-100123))))
            "Guest (555)";
          editMessageText Owner (Some 5) "-100123;11:555";
          copyMessage (Supergroup (Some (JS.Num (-100123)))) 555 1 11 None;
          setMessageReaction (Private 555) 1 [Dove]].
Proof.
  eexists. split; [vm_compute; reflexivity |]. split; reflexivity.
Qed.

(* ================================================================== *)
(** * Further properties of the code *)

(** ** The blocked list under [markBan] *)

Lemma remove_first_NoDup (x : string) (a : list string) :
  NoDup a -> NoDup (JS.remove_first x a).
Proof.
  induction 1 as [| y r Hy Hr IH]; simpl; [constructor |].
  destruct (String.eqb y x); [exact Hr |].
  constructor; [| exact IH].
  intros Hin. apply Hy.
  clear - Hin. induction r as [| z r IH]; simpl in *; [contradiction |].
  destruct (String.eqb z x); [now right |].
  destruct Hin as [-> | Hin]; [now left | right; now apply IH].
Qed.

Lemma NoDup_at_most_once (x : string) (a : list string) :
  NoDup a -> at_most_once x a.
Proof.
  intros H. unfold at_most_once.
  apply (proj1 (NoDup_count_occ string_dec a) H).
Qed.

Lemma isTopicBanned_markBan_other (d : MetaData) (t t' : Z) (b : bool) :
  t' <> t -> isTopicBanned (markBan d t b) t' = isTopicBanned d t'.
Proof.
  intros Hne.
  assert (Hk : JS.Z_toString t <> JS.Z_toString t')
    by (intros E; apply Z_toString_inj in E; congruence).
  unfold isTopicBanned, markBan. cbn [bannedTopics].
  destruct b; cbn [andb negb].
  - destruct (JS.array_includes (JS.Z_toString t) (bannedTopics d));
      cbn [negb]; [reflexivity |].
    rewrite array_includes_app. cbn [JS.array_includes existsb].
    assert (E : String.eqb (JS.Z_toString t') (JS.Z_toString t) = false)
      by (apply String.eqb_neq; congruence).
    rewrite E. now rewrite !orb_false_r.
  - destruct (JS.array_includes (JS.Z_toString t) (bannedTopics d));
      [| reflexivity].
    now apply remove_first_other.
Qed.

(** X1.  [markBan] treats the blocked list as a set: blocking lists the topic,
    unblocking a topic of a duplicate-free list unlists it, neither touches
    the flag of another topic, the list stays free of duplicates, and the
    bindings and labels are left alone. *)
Theorem markBan_sets_the_flag_only (d : MetaData) (t : Z) (b : bool) :
  isTopicBanned (markBan d t true) t = true
  /\ (NoDup (bannedTopics d) -> isTopicBanned (markBan d t false) t = false)
  /\ (forall t', t' <> t ->
        isTopicBanned (markBan d t b) t' = isTopicBanned d t')
  /\ (NoDup (bannedTopics d) -> NoDup (bannedTopics (markBan d t b)))
  /\ topicToFromChat (markBan d t b) = topicToFromChat d
  /\ fromChatToTopic (markBan d t b) = fromChatToTopic d
  /\ topicToComment (markBan d t b) = topicToComment d
  /\ fromChatToComment (markBan d t b) = fromChatToComment d
  /\ superGroupChatId (markBan d t b) = superGroupChatId d.
Proof.
  split; [| split; [| split; [| split]]].
  - unfold isTopicBanned, markBan. cbn [bannedTopics andb negb].
    destruct (JS.array_includes (JS.Z_toString t) (bannedTopics d)) eqn:E;
      cbn [negb]; [exact E |].
    rewrite array_includes_app. cbn [JS.array_includes existsb].
    rewrite String.eqb_refl. now rewrite orb_true_r.
  - intros Hnd. apply isTopicBanned_markBan_false.
    now apply NoDup_at_most_once.
  - intros t' Hne. now apply isTopicBanned_markBan_other.
  - intros Hnd. unfold markBan. cbn [bannedTopics].
    destruct b; cbn [andb negb].
    + destruct (JS.array_includes (JS.Z_toString t) (bannedTopics d)) eqn:E;
        cbn [negb]; [exact Hnd |].
      apply NoDup_app; [exact Hnd | repeat constructor; intros [] |].
      intros x Hx [<- | []].
      apply array_includes_In in Hx. congruence.
    + destruct (JS.array_includes (JS.Z_toString t) (bannedTopics d));
        [now apply remove_first_NoDup | exact Hnd].
  - repeat split.
Qed.

Lemma remove_first_appended (x : string) (a : list string) :
  JS.array_includes x a = false -> JS.remove_first x (a ++ [x]) = a.
Proof.
  induction a as [| y r IH]; simpl; intros H.
  - now rewrite String.eqb_refl.
  - apply orb_false_iff in H as [Hy Hr].
    rewrite String.eqb_sym in Hy. rewrite Hy. now rewrite IH.
Qed.

(** X2.  Blocking a topic that is not listed and unblocking it again gives back
    the structure that was there, and blocking it a second time changes
    nothing. *)
Theorem markBan_block_then_unblock (d : MetaData) (t : Z) :
  isTopicBanned d t = false ->
  markBan (markBan d t true) t false = d
  /\ markBan (markBan d t true) t true = markBan d t true.
Proof.
  unfold isTopicBanned. intros H.
  assert (Hin : JS.array_includes (JS.Z_toString t)
                  (bannedTopics d ++ [JS.Z_toString t]) = true).
  { rewrite array_includes_app. cbn [JS.array_includes existsb].
    rewrite String.eqb_refl. now rewrite orb_true_r. }
  destruct d as [g t2f f2t banned t2c f2c]. cbn [bannedTopics] in *.
  unfold markBan. cbn [bannedTopics superGroupChatId topicToFromChat
                         fromChatToTopic topicToComment fromChatToComment].
  rewrite H. cbn [andb negb]. rewrite Hin. cbn [andb negb].
  rewrite remove_first_appended by exact H. split; reflexivity.
Qed.

Lemma markBan_block_then_unblock_witness :
  markBan (markBan bound_10_555 10 true) 10 false = bound_10_555
  /\ markBan (markBan bound_10_555 10 true) 10 true
     = markBan bound_10_555 10 true.
Proof.
  apply (markBan_block_then_unblock bound_10_555 10). reflexivity.
Defined.

(** ** Inserting and removing a binding *)

Lemma delete_absent {V : Type} (m : JsMap.t V) (k : Z) :
  JsMap.get m k = None -> JsMap.delete m k = m.
Proof.
  unfold JsMap.delete. induction m as [| [k' v'] r IH]; simpl;
    [reflexivity |].
  destruct (k' =? k) eqn:E; [discriminate |].
  intros H. simpl. now rewrite IH.
Qed.

Lemma delete_set_fresh {V : Type} (m : JsMap.t V) (k : Z) (v : V) :
  JsMap.get m k = None -> JsMap.delete (JsMap.set m k v) k = m.
Proof.
  intros H. rewrite set_fresh by (now apply get_none_keys).
  unfold JsMap.delete. rewrite filter_app. simpl. rewrite Z.eqb_refl. simpl.
  rewrite app_nil_r. now apply delete_absent.
Qed.

(** X3.  A binding inserted by [upsertMapping] is found in both directions, with
    its label when one is given; the entries of every other topic and user
    chat, the blocked list and the group id are left as they were, and an
    omitted or empty label leaves the labels alone. *)
Theorem upsertMapping_binds (d : MetaData) (t u : Z)
    (label : option string) :
  let d' := upsertMapping d t u label in
  JsMap.get (topicToFromChat d') t = Some u
  /\ JsMap.get (fromChatToTopic d') u = Some t
  /\ (forall t', t' <> t ->
        JsMap.get (topicToFromChat d') t' = JsMap.get (topicToFromChat d) t'
        /\ JsMap.get (topicToComment d') t'
           = JsMap.get (topicToComment d) t')
  /\ (forall u', u' <> u ->
        JsMap.get (fromChatToTopic d') u' = JsMap.get (fromChatToTopic d) u'
        /\ JsMap.get (fromChatToComment d') u'
           = JsMap.get (fromChatToComment d) u')
  /\ (forall c, label = Some c -> JS.nonempty c = true ->
        JsMap.get (topicToComment d') t = Some c
        /\ JsMap.get (fromChatToComment d') u = Some c)
  /\ (label = None \/ label = Some EmptyString ->
        topicToComment d' = topicToComment d
        /\ fromChatToComment d' = fromChatToComment d)
  /\ bannedTopics d' = bannedTopics d
  /\ superGroupChatId d' = superGroupChatId d.
Proof.
  intros d'. subst d'.
  rewrite upsertMapping_topicToFromChat, upsertMapping_fromChatToTopic.
  split; [apply get_set_same |]. split; [apply get_set_same |].
  split; [| split; [| split; [| split]]].
  - intros t' Hne. split; [apply get_set_other; congruence |].
    unfold upsertMapping. destruct label as [c |];
      [destruct (JS.nonempty c) |]; cbn [topicToComment];
      try reflexivity.
    apply get_set_other. congruence.
  - intros u' Hne. split; [apply get_set_other; congruence |].
    unfold upsertMapping. destruct label as [c |];
      [destruct (JS.nonempty c) |]; cbn [fromChatToComment];
      try reflexivity.
    apply get_set_other. congruence.
  - intros c -> Hc. unfold upsertMapping. rewrite Hc.
    cbn [topicToComment fromChatToComment].
    split; apply get_set_same.
  - intros [-> | ->]; split; reflexivity.
  - unfold upsertMapping. destruct label as [c |];
      [destruct (JS.nonempty c) |]; split; reflexivity.
Qed.

(** X4.  Removing a binding right after it was inserted for a topic and a user
    chat that the structure did not know gives back the structure: this is
    what the relay does when the thread it has just created is rejected. *)
Theorem removeMapping_undoes_upsertMapping (d : MetaData) (t u : Z)
    (label : option string) :
  JsMap.get (topicToFromChat d) t = None ->
  JsMap.get (fromChatToTopic d) u = None ->
  JsMap.get (topicToComment d) t = None ->
  JsMap.get (fromChatToComment d) u = None ->
  isTopicBanned d t = false ->
  u <> 0 ->
  removeMapping (upsertMapping d t u label) t = d.
Proof.
  intros Ht Hu Htc Huc Hb Hnz. unfold isTopicBanned in Hb.
  unfold removeMapping.
  rewrite upsertMapping_topicToFromChat, get_set_same.
  rewrite (truthy_nonzero u Hnz).
  rewrite upsertMapping_fromChatToTopic.
  rewrite !delete_set_fresh by assumption.
  destruct d as [g t2f f2t banned t2c f2c].
  cbn [topicToFromChat fromChatToTopic bannedTopics topicToComment
         fromChatToComment superGroupChatId] in *.
  unfold upsertMapping.
  cbn [topicToFromChat fromChatToTopic bannedTopics topicToComment
         fromChatToComment superGroupChatId].
  destruct label as [c |]; [destruct (JS.nonempty c) |];
    cbn [topicToFromChat fromChatToTopic bannedTopics topicToComment
           fromChatToComment superGroupChatId];
    rewrite ?delete_set_fresh by assumption;
    rewrite ?delete_absent by assumption;
    rewrite (remove_first_absent _ _ Hb); reflexivity.
Qed.

Lemma removeMapping_undoes_upsertMapping_witness :
  removeMapping (upsertMapping bound_10_555 11 556 (Some "Ann"%string)) 11
  = bound_10_555.
Proof.
  apply (removeMapping_undoes_upsertMapping bound_10_555 11 556
           (Some "Ann"%string));
    try reflexivity. discriminate.
Defined.

(** ** The message index: appending, looking up, purging *)

Lemma slice_last_snoc {A : Type} (n : nat) (a : list A) (x : A) :
  JS.slice_last (S n) (a ++ [x]) = JS.slice_last n a ++ [x].
Proof.
  unfold JS.slice_last. rewrite length_app. simpl List.length.
  replace (List.length a + 1 - S n)%nat with (List.length a - n)%nat by lia.
  rewrite skipn_app.
  replace (List.length a - n - List.length a)%nat with 0%nat by lia.
  reflexivity.
Qed.

Lemma scanBack_snoc (p : Link -> bool) (a : list Link) (x : Link) :
  p x = true -> scanBack p (a ++ [x]) = Some x.
Proof.
  intros H. apply (scanBack_last p a [] x H). intros e [].
Qed.

(** X5.  A link appended through [addMessageMappingKV] is what the next lookup
    by either of its message ids returns, whatever the store held before
    (for a store whose [get] and [put] do not raise). *)
Theorem appended_link_is_found (kv : KvStore) (g : option JS.num)
    (t tm pm : Z) :
  kv_get_throws kv = false -> kv_put_throws kv = false ->
  let kv' := addMessageMappingKV kv g t tm pm in
  findTopicMessageIdKV kv' g pm = mkTopicRef (Some t) (Some tm)
  /\ findPmMessageIdKV kv' g tm = mkPmRef (Some t) (Some pm).
Proof.
  intros Hg Hp kv'.
  destruct (addMessageMappingKV_load g kv t tm pm Hg Hp) as [E _].
  fold kv' in E.
  unfold findTopicMessageIdKV, findPmMessageIdKV. rewrite E.
  unfold MAX_KV_MAPPINGS. rewrite slice_last_snoc.
  unfold lookupTopicMessage, lookupPmMessage.
  rewrite !scanBack_snoc by (cbn; apply Z.eqb_refl).
  split; reflexivity.
Qed.

Lemma appended_link_is_found_witness :
  let kv' := addMessageMappingKV emptyKv None 10 77 1 in
  findTopicMessageIdKV kv' None 1 = mkTopicRef (Some 10) (Some 77)
  /\ findPmMessageIdKV kv' None 77 = mkPmRef (Some 10) (Some 1).
Proof.
  apply (appended_link_is_found emptyKv None 10 77 1); reflexivity.
Defined.

Lemma In_slice_last {A : Type} (n : nat) (a : list A) (x : A) :
  In x (JS.slice_last n a) -> In x a.
Proof.
  unfold JS.slice_last. intros H.
  rewrite <- (firstn_skipn (List.length a - n) a).
  apply in_or_app. now right.
Qed.

Lemma slice_last_all {A : Type} (n : nat) (a : list A) :
  (List.length a <= n)%nat -> JS.slice_last n a = a.
Proof.
  intros H. unfold JS.slice_last.
  replace (List.length a - n)%nat with 0%nat by lia. reflexivity.
Qed.

(** X6.  [cleanupTopicMessages] purges the links of one topic and only them:
    afterwards the stored list is the former list without the links of the
    topic, in the same order (cut to its last 1000 entries, which changes
    nothing when the list was within the bound), and no lookup resolves to
    the purged topic.  Without a key-value binding nothing is purged. *)
Theorem cleanupTopicMessages_purges (kv : KvStore) (g : option JS.num)
    (t : Z) :
  kv_get_throws kv = false -> kv_put_throws kv = false ->
  cleanupTopicMessages None g t = None
  /\ exists kv',
      cleanupTopicMessages (Some kv) g t = Some kv'
      /\ loadMappingsFromKV kv' g
         = JS.slice_last MAX_KV_MAPPINGS
             (filter (fun m => negb (topicId m =? t))
                (loadMappingsFromKV kv g))
      /\ ((List.length (loadMappingsFromKV kv g) <= MAX_KV_MAPPINGS)%nat ->
          loadMappingsFromKV kv' g
          = filter (fun m => negb (topicId m =? t))
              (loadMappingsFromKV kv g))
      /\ (forall e, In e (loadMappingsFromKV kv' g) -> topicId e <> t)
      /\ (forall q, ref_topicId (findTopicMessageIdKV kv' g q) <> Some t)
      /\ (forall q, pm_topicId (findPmMessageIdKV kv' g q) <> Some t).
Proof.
  intros Hg Hp. split; [reflexivity |].
  eexists. split; [reflexivity |].
  set (kept := filter (fun m => negb (topicId m =? t))
                 (loadMappingsFromKV kv g)).
  assert (E : loadMappingsFromKV (saveMappingsToKV kv g kept) g
              = JS.slice_last MAX_KV_MAPPINGS kept).
  { unfold saveMappingsToKV. rewrite Hp. unfold loadMappingsFromKV at 1.
    cbn [kv_get_throws kv_mappings]. now rewrite Hg, String.eqb_refl. }
  assert (Hnot : forall e,
             In e (loadMappingsFromKV (saveMappingsToKV kv g kept) g) ->
             topicId e <> t).
  { intros e He. rewrite E in He. apply In_slice_last in He.
    apply filter_In in He as [_ He].
    apply negb_true_iff in He. now apply Z.eqb_neq. }
  split; [exact E |]. split; [| split; [exact Hnot | split]].
  - intros Hlen. rewrite E. apply slice_last_all.
    unfold kept. etransitivity; [apply filter_length_le | exact Hlen].
  - intros q H. unfold findTopicMessageIdKV, lookupTopicMessage in H.
    destruct (scanBack _ _) as [e |] eqn:Es; [| discriminate H].
    apply scanBack_some in Es as [Hin _]. cbn in H.
    injection H as H. now apply (Hnot e Hin).
  - intros q H. unfold findPmMessageIdKV, lookupPmMessage in H.
    destruct (scanBack _ _) as [e |] eqn:Es; [| discriminate H].
    apply scanBack_some in Es as [Hin _]. cbn in H.
    injection H as H. now apply (Hnot e Hin).
Qed.

Lemma cleanupTopicMessages_purges_witness :
  cleanupTopicMessages None None 10 = None
  /\ exists kv',
      cleanupTopicMessages
        (Some (addMessageMappingKV emptyKv None 10 77 1)) None 10 = Some kv'
      /\ loadMappingsFromKV kv' None
         = JS.slice_last MAX_KV_MAPPINGS
             (filter (fun m => negb (topicId m =? 10))
                (loadMappingsFromKV
                   (addMessageMappingKV emptyKv None 10 77 1) None))
      /\ ((List.length
             (loadMappingsFromKV
                (addMessageMappingKV emptyKv None 10 77 1) None)
           <= MAX_KV_MAPPINGS)%nat ->
          loadMappingsFromKV kv' None
          = filter (fun m => negb (topicId m =? 10))
              (loadMappingsFromKV
                 (addMessageMappingKV emptyKv None 10 77 1) None))
      /\ (forall e, In e (loadMappingsFromKV kv' None) -> topicId e <> 10)
      /\ (forall q, ref_topicId (findTopicMessageIdKV kv' None q) <> Some 10)
      /\ (forall q, pm_topicId (findPmMessageIdKV kv' None q) <> Some 10).
Proof.
  apply (cleanupTopicMessages_purges
           (addMessageMappingKV emptyKv None 10 77 1) None 10);
    reflexivity.
Defined.

(** ** The pinned record of message links *)

Lemma Z_toString_nonneg_digits (z : Z) :
  0 <= z -> str_all JS.is_digit (JS.Z_toString z) = true.
Proof.
  intros H. unfold JS.Z_toString.
  assert (E : (z <? 0) = false) by now apply Z.ltb_ge.
  rewrite E. now apply nat_digits_all_digit.
Qed.

Lemma Z_toString_nonneg_no_dash (z : Z) :
  0 <= z -> str_all (not_char "-") (JS.Z_toString z) = true.
Proof.
  intros H. apply str_all_impl with (p := JS.is_digit).
  - intros c Hc. unfold not_char. apply negb_true_iff, Ascii.eqb_neq.
    apply is_digit_cases in Hc. tauto.
  - now apply Z_toString_nonneg_digits.
Qed.

Lemma Z_toString_no_semicolon_dash_colon (z : Z) :
  str_all (not_char ";") (JS.Z_toString z) = true
  /\ str_all (not_char ":") (JS.Z_toString z) = true.
Proof. split; apply Z_toString_no; tauto. Qed.

Lemma linkText_shape (l : Link) :
  linkText l
  = ((JS.Z_toString (topicId l)
      ++ String "-" (JS.Z_toString (topicMessageId l)))
     ++ String ":" (JS.Z_toString (pmMessageId l)))%string.
Proof.
  unfold linkText. cbn [append]. rewrite !str_app_assoc. reflexivity.
Qed.

Lemma linkText_piece (l : Link) :
  str_all (not_char ";") (linkText l) = true
  /\ JS.nonempty (linkText l) = true.
Proof.
  split.
  - rewrite linkText_shape, !str_all_app. cbn [str_all].
    rewrite !Z_toString_no by tauto. reflexivity.
  - unfold linkText. apply nonempty_app, Z_toString_nonempty.
Qed.

Lemma parseMappingChunk_linkText (l : Link) :
  0 <= topicId l -> 0 <= topicMessageId l ->
  parseMappingChunk (linkText l) = [l].
Proof.
  intros Ht Hm. unfold parseMappingChunk.
  destruct (linkText_piece l) as [_ Hne]. rewrite Hne. cbn [negb].
  rewrite linkText_shape.
  rewrite split_app_sep.
  2:{ rewrite str_all_app. cbn [str_all].
      rewrite !Z_toString_no by tauto. reflexivity. }
  rewrite split_no_sep by (apply Z_toString_no; tauto).
  cbn [nth].
  rewrite (nonempty_app _ _ (Z_toString_nonempty (topicId l))).
  rewrite Z_toString_nonempty. cbn [negb orb].
  rewrite split_app_sep by (now apply Z_toString_nonneg_no_dash).
  rewrite split_no_sep by (now apply Z_toString_nonneg_no_dash).
  cbn [nth]. rewrite !parseInt_toString. now destruct l.
Qed.

Lemma parseMappingChunk_negative_topic (l : Link) :
  topicId l < 0 -> parseMappingChunk (linkText l) = [].
Proof.
  intros Ht. unfold parseMappingChunk.
  destruct (linkText_piece l) as [_ Hne]. rewrite Hne. cbn [negb].
  rewrite linkText_shape.
  rewrite split_app_sep.
  2:{ rewrite str_all_app. cbn [str_all].
      rewrite !Z_toString_no by tauto. reflexivity. }
  rewrite split_no_sep by (apply Z_toString_no; tauto).
  cbn [nth].
  rewrite (nonempty_app _ _ (Z_toString_nonempty (topicId l))).
  rewrite Z_toString_nonempty. cbn [negb orb].
  unfold JS.Z_toString at 1.
  assert (E : (topicId l <? 0) = true) by now apply Z.ltb_lt.
  rewrite E. cbn [append JS.split]. rewrite Ascii.eqb_refl.
  cbn [nth]. reflexivity.
Qed.

Lemma parseMessageMappings_join (parts : list string) :
  Forall (fun s => str_all (not_char ";") s = true
                   /\ JS.nonempty s = true) parts ->
  parseMessageMappings (JS.join ";" parts) = flat_map parseMappingChunk parts.
Proof.
  intros H. destruct parts as [| x r]; [reflexivity |].
  unfold parseMessageMappings.
  assert (Hne : JS.nonempty (JS.join ";" (x :: r)) = true).
  { inversion H as [| ? ? [_ Hx] _]; subst.
    destruct r; [exact Hx | now apply nonempty_app]. }
  rewrite Hne. cbn [negb].
  rewrite split_join; [reflexivity |].
  eapply Forall_impl; [| exact H]. intros s [Hs _]. exact Hs.
Qed.

(** X7.  The pinned record of links decodes to what was encoded: joining the
    texts of links whose ids are safe integers and whose thread-side ids
    are not negative, and parsing the record, gives the links back, in
    order.  A link with safe ids whose topic id is negative is not
    decoded: its text has no topic id before the first dash. *)
Theorem pinned_links_roundtrip (ls : list Link) :
  Forall (fun l => safeLink l = true
                   /\ 0 <= topicId l /\ 0 <= topicMessageId l) ls ->
  parseMessageMappings (JS.join ";" (map linkText ls)) = ls
  /\ (forall l, safeLink l = true -> topicId l < 0 ->
        parseMessageMappings (linkText l) = []).
Proof.
  intros H. split.
  - rewrite parseMessageMappings_join.
    + induction H as [| l r [Hs [Ht Hm]] _ IH]; [reflexivity |].
      cbn [map flat_map]. rewrite parseMappingChunk_linkText by assumption.
      now rewrite IH.
    + apply Forall_forall. intros s Hs.
      apply in_map_iff in Hs as [l [<- _]]. apply linkText_piece.
  - intros l Hs Hl.
    change (linkText l) with (JS.join ";" [linkText l]).
    rewrite parseMessageMappings_join.
    + cbn [flat_map]. rewrite parseMappingChunk_negative_topic by exact Hl.
      reflexivity.
    + constructor; [apply linkText_piece | constructor].
Qed.

Lemma pinned_links_roundtrip_witness :
  parseMessageMappings
    (JS.join ";" (map linkText [mkLink 10 77 1; mkLink 11 78 (-2)]))
  = [mkLink 10 77 1; mkLink 11 78 (-2)]
  /\ (forall l, safeLink l = true -> topicId l < 0 ->
        parseMessageMappings (linkText l) = []).
Proof.
  apply (pinned_links_roundtrip [mkLink 10 77 1; mkLink 11 78 (-2)]).
  repeat constructor; simpl; lia.
Defined.

Lemma trimParts_spec (parts : list string) :
  exists k,
    (k < List.length parts \/ parts = [])%nat
    /\ trimParts parts = JS.join ";" (skipn k parts)
    /\ (forall j, (j < k)%nat ->
          (MAX_MESSAGE_MAPPING_LENGTH
           < String.length (JS.join ";" (skipn j parts)))%nat)
    /\ ((String.length (JS.join ";" (skipn k parts))
         <= MAX_MESSAGE_MAPPING_LENGTH)%nat
        \/ (List.length (skipn k parts) <= 1)%nat).
Proof.
  induction parts as [| x r IH].
  - exists 0%nat. repeat split; auto. intros j Hj. lia.
  - destruct r as [| y r].
    + exists 0%nat. cbn [skipn trimParts List.length].
      split; [left; lia |]. split; [reflexivity |].
      split; [intros j Hj; lia | right; lia].
    + cbn [trimParts].
      destruct (Nat.ltb MAX_MESSAGE_MAPPING_LENGTH
                  (String.length (JS.join ";" (x :: y :: r)))) eqn:E.
      * apply Nat.ltb_lt in E.
        destruct IH as [k [Hk [Et [Hbig Hfit]]]].
        exists (S k). cbn [skipn].
        split; [left; cbn [List.length] in *;
                destruct Hk as [Hk | Hk]; [lia | discriminate] |].
        split; [exact Et |]. split; [| exact Hfit].
        intros j Hj. destruct j as [| j]; [exact E |].
        cbn [skipn]. apply Hbig. lia.
      * apply Nat.ltb_ge in E.
        exists 0%nat. cbn [skipn].
        split; [left; cbn [List.length]; lia |]. split; [reflexivity |].
        split; [intros j Hj; lia | now left].
Qed.

(** X8.  [trimMappingText] drops entries from the front only: its result joins
    the entries of the record from some position on, the first position at
    which the text fits in 4096 characters, and it never drops the newest
    entry, even when that entry alone is too long. *)
Theorem trimMappingText_drops_oldest (text : string) :
  let parts := filter JS.nonempty (JS.split ";" text) in
  exists k,
    (k < List.length parts \/ parts = [])%nat
    /\ trimMappingText text = JS.join ";" (skipn k parts)
    /\ (forall j, (j < k)%nat ->
          (MAX_MESSAGE_MAPPING_LENGTH
           < String.length (JS.join ";" (skipn j parts)))%nat)
    /\ ((String.length (trimMappingText text)
         <= MAX_MESSAGE_MAPPING_LENGTH)%nat
        \/ (List.length (skipn k parts) <= 1)%nat).
Proof.
  intros parts. unfold trimMappingText. fold parts.
  destruct (trimParts_spec parts) as [k [Hk [Et [Hbig Hfit]]]].
  exists k. rewrite Et. auto.
Qed.

(* ------------------------------------------------------------------ *)
(** ** The relay: whom it addresses, and that it always answers *)

Section Emits.
Variable P : Call -> Prop.

Lemma emits_idle {A : Type} (m : M A) :
  (forall w, w_trace (outcomeWorld (m w)) = w_trace w) -> emits P m.
Proof.
  intros H w. exists []. rewrite H, app_nil_r. split; [reflexivity |].
  constructor.
Qed.

Lemma emits_ret {A : Type} (a : A) : emits P (ret a).
Proof. now apply emits_idle. Qed.

Lemma emits_throw {A : Type} (e : Error) : emits P (@throw A e).
Proof. now apply emits_idle. Qed.

Lemma emits_out_of_fuel {A : Type} : emits P (fun w => @OutOfFuel A w).
Proof. now apply emits_idle. Qed.

Lemma emits_getMeta : emits P getMeta.
Proof. now apply emits_idle. Qed.

Lemma emits_setMeta (d : MetaData) : emits P (setMeta d).
Proof. now apply emits_idle. Qed.

Lemma emits_getKvStore : emits P getKvStore.
Proof. now apply emits_idle. Qed.

Lemma emits_setKv (kv : option KvStore) : emits P (setKv kv).
Proof. now apply emits_idle. Qed.

Lemma emits_bind {A B : Type} (m : M A) (k : A -> M B) :
  emits P m -> (forall a, emits P (k a)) -> emits P (bind m k).
Proof.
  intros Hm Hk w. unfold bind. destruct (Hm w) as [s [Hs Ps]].
  destruct (m w) as [a w1 | e w1 | w1]; simpl in Hs.
  - destruct (Hk a w1) as [s' [Hs' Ps']]. exists (s ++ s').
    rewrite Hs', Hs, app_assoc. split; [reflexivity |].
    apply Forall_app. now split.
  - now exists s.
  - now exists s.
Qed.

Lemma emits_tryCatch {A : Type} (m : M A) (h : Error -> M A) :
  emits P m -> (forall e, emits P (h e)) -> emits P (tryCatch m h).
Proof.
  intros Hm Hh w. unfold tryCatch. destruct (Hm w) as [s [Hs Ps]].
  destruct (m w) as [a w1 | e w1 | w1]; simpl in Hs.
  - now exists s.
  - destruct (Hh e w1) as [s' [Hs' Ps']]. exists (s ++ s').
    rewrite Hs', Hs, app_assoc. split; [reflexivity |].
    apply Forall_app. now split.
  - now exists s.
Qed.

Lemma emits_callTelegramApi (gw : Gateway) (report : bool) (c : Call) :
  P c -> P (sendMessage Owner None TextApiFailure) ->
  emits P (callTelegramApi gw report c).
Proof.
  intros Hc Ho w. unfold callTelegramApi. cbn [outcomeWorld w_trace].
  destruct (negb (ok (gw (w_trace w) c)) && report
            && negb (is_sendMessage c)).
  - exists [c; sendMessage Owner None TextApiFailure].
    rewrite <- app_assoc. split; [reflexivity |]. now repeat constructor.
  - exists [c]. split; [reflexivity |]. now repeat constructor.
Qed.

End Emits.

Lemma neverThrows_ret {A : Type} (a : A) : neverThrows (ret a).
Proof. intros w e w'. discriminate. Qed.

Lemma neverThrows_bind {A B : Type} (m : M A) (k : A -> M B) :
  neverThrows m -> (forall a, neverThrows (k a)) -> neverThrows (bind m k).
Proof.
  intros Hm Hk w e w'. unfold bind.
  destruct (m w) as [a w1 | e1 w1 | w1] eqn:E.
  - apply Hk.
  - exfalso. exact (Hm w e1 w1 E).
  - discriminate.
Qed.

Lemma neverThrows_tryCatch {A : Type} (m : M A) (h : Error -> M A) :
  (forall e, neverThrows (h e)) -> neverThrows (tryCatch m h).
Proof.
  intros Hh w e w'. unfold tryCatch.
  destruct (m w) as [a w1 | e1 w1 | w1]; try discriminate. apply Hh.
Qed.

Lemma neverThrows_callTelegramApi (gw : Gateway) (report : bool) (c : Call) :
  neverThrows (callTelegramApi gw report c).
Proof. intros w e w'. discriminate. Qed.

Lemma neverThrows_setReaction (gw : Gateway) chat mid r :
  neverThrows (setReaction gw chat mid r).
Proof.
  unfold setReaction. apply neverThrows_bind;
    [apply neverThrows_callTelegramApi | intro resp].
  destruct (ok resp); [apply neverThrows_ret |].
  destruct (JS.includes _ _);
    [apply neverThrows_callTelegramApi | apply neverThrows_ret].
Qed.

Lemma neverThrows_notifyMessageFailed (gw : Gateway) chat mid :
  neverThrows (notifyMessageFailed gw chat mid).
Proof.
  unfold notifyMessageFailed. apply neverThrows_bind;
    [apply neverThrows_setReaction | intro; apply neverThrows_ret].
Qed.

Lemma neverThrows_relayAttempt (gw : Gateway) mm msg :
  neverThrows (relayAttempt gw mm msg).
Proof.
  unfold relayAttempt. apply neverThrows_tryCatch. intros e.
  apply neverThrows_bind;
    [apply neverThrows_callTelegramApi | intros _].
  apply neverThrows_bind;
    [apply neverThrows_notifyMessageFailed | intros _; apply neverThrows_ret].
Qed.

(** X9.  Whatever the platform answers, [forwardPrivateToTopic] never ends in an
    exception: every error of the relay is caught inside it, and a run
    either builds its response or is still retrying. *)
Theorem forwardPrivateToTopic_never_throws (gw : Gateway) (fuel : nat) :
  forall mm msg w,
    (exists w', forwardPrivateToTopic gw fuel mm msg w = Done tt w')
    \/ (exists w', forwardPrivateToTopic gw fuel mm msg w = OutOfFuel w').
Proof.
  assert (H : forall mm msg, neverThrows (forwardPrivateToTopic gw fuel mm msg)).
  { induction fuel as [| f IH]; intros mm msg.
    - intros w e w'. discriminate.
    - cbn [forwardPrivateToTopic].
      apply neverThrows_bind; [intros w e w'; discriminate | intro d].
      match goal with |- neverThrows (if ?b then _ else _) => destruct b end.
      + apply neverThrows_bind;
          [apply neverThrows_callTelegramApi | intros _; apply neverThrows_ret].
      + apply neverThrows_bind; [apply neverThrows_relayAttempt | intros a].
        destruct a; [apply neverThrows_ret | apply IH]. }
  intros mm msg w.
  destruct (forwardPrivateToTopic gw fuel mm msg w) as [[] w1 | e w1 | w1] eqn:E.
  - left. now exists w1.
  - exfalso. exact (H mm msg w e w1 E).
  - right. now exists w1.
Qed.

Section RelayEmits.
Variable gw : Gateway.
Variable P : Call -> Prop.
Variable u : Z.
Hypothesis P_owner : forall c, addressee c = Owner -> P c.
Hypothesis P_group : forall c g, addressee c = Supergroup g -> P c.
Hypothesis P_user : forall c, addressee c = Private u -> P c.

Create HintDb relay_emits.

Ltac emits_call :=
  apply emits_callTelegramApi;
  first [ apply P_owner; reflexivity
        | eapply P_group; reflexivity
        | apply P_user; reflexivity ].

Ltac emits_step :=
  first
    [ apply emits_ret | apply emits_throw | apply emits_out_of_fuel
    | apply emits_getMeta | apply emits_setMeta
    | apply emits_getKvStore | apply emits_setKv
    | emits_call
    | solve [auto 1 with relay_emits nocore]
    | apply emits_bind; [| intro]
    | apply emits_tryCatch; [| intro]
    | match goal with
      | |- emits _ (match ?x with _ => _ end) => destruct x
      | |- emits _ (if ?b then _ else _) => destruct b
      end ].

Ltac emits_auto := repeat emits_step.

Lemma emits_setReaction_user mid r :
  emits P (setReaction gw (Private u) mid r).
Proof. unfold setReaction. emits_auto. Qed.
#[local] Hint Resolve emits_setReaction_user : relay_emits.

Lemma emits_notifyMessageSent mid : emits P (notifyMessageSent gw u mid).
Proof. unfold notifyMessageSent. emits_auto. Qed.
#[local] Hint Resolve emits_notifyMessageSent : relay_emits.

Lemma emits_notifyMessageFailed mid : emits P (notifyMessageFailed gw u mid).
Proof. unfold notifyMessageFailed. emits_auto. Qed.
#[local] Hint Resolve emits_notifyMessageFailed : relay_emits.

Lemma emits_isSupergroupAdmin g v : emits P (isSupergroupAdmin gw g v).
Proof. unfold isSupergroupAdmin. emits_auto. Qed.
#[local] Hint Resolve emits_isSupergroupAdmin : relay_emits.

Lemma emits_editMetadata mm text : emits P (editMetadata gw mm text).
Proof. unfold editMetadata. emits_auto. Qed.
#[local] Hint Resolve emits_editMetadata : relay_emits.

Lemma emits_updateMapping mm : emits P (updateMapping gw mm).
Proof.
  unfold updateMapping.
  apply emits_bind; [apply emits_getMeta | intro data].
  apply emits_bind; [apply emits_getKvStore | intro kv].
  apply emits_bind; [emits_auto | intros _].
  destruct (trimMetadataEntries data) as [d' text].
  emits_auto.
Qed.
#[local] Hint Resolve emits_updateMapping : relay_emits.

Lemma emits_createTopic mm v msg : emits P (createTopic gw mm v msg).
Proof. unfold createTopic, safeCall. emits_auto. Qed.
#[local] Hint Resolve emits_createTopic : relay_emits.

Lemma emits_ensureTopic mm v msg : emits P (ensureTopic gw mm v msg).
Proof. unfold ensureTopic. emits_auto. Qed.
#[local] Hint Resolve emits_ensureTopic : relay_emits.

Lemma emits_loadMessageMappingText g :
  emits P (loadMessageMappingText gw g).
Proof. unfold loadMessageMappingText. emits_auto. Qed.
#[local] Hint Resolve emits_loadMessageMappingText : relay_emits.

Lemma emits_findTopicMessageId g pm : emits P (findTopicMessageId gw g pm).
Proof. unfold findTopicMessageId. emits_auto. Qed.
#[local] Hint Resolve emits_findTopicMessageId : relay_emits.

Lemma emits_addMessageMapping g t tm pm :
  emits P (addMessageMapping gw g t tm pm).
Proof. unfold addMessageMapping. emits_auto. Qed.
#[local] Hint Resolve emits_addMessageMapping : relay_emits.

Lemma emits_relayAttempt mm msg :
  chat_id msg = u -> emits P (relayAttempt gw mm msg).
Proof.
  intros Hu. unfold relayAttempt, safeCall. cbv zeta. rewrite Hu.
  emits_auto.
Qed.

Lemma emits_forwardPrivateToTopic (fuel : nat) :
  forall mm msg, chat_id msg = u ->
    emits P (forwardPrivateToTopic gw fuel mm msg).
Proof.
  induction fuel as [| f IH]; intros mm msg Hu.
  - apply emits_out_of_fuel.
  - cbn [forwardPrivateToTopic].
    apply emits_bind; [apply emits_getMeta | intro d].
    match goal with |- emits _ (if ?b then _ else _) => destruct b end.
    + rewrite Hu. unfold safeCall. emits_auto.
    + apply emits_bind; [now apply emits_relayAttempt | intro a].
      destruct a; [apply emits_ret | now apply IH].
Qed.

Lemma emits_notifyTopic chat topic text :
  emits P (notifyTopic gw chat topic text).
Proof. unfold notifyTopic. emits_auto. Qed.
#[local] Hint Resolve emits_notifyTopic : relay_emits.

End RelayEmits.

(** X10.  The relay of a private message addresses the owner, the group and the
    sender, and nobody else: whatever the platform answers and however
    often the relay retries, no request goes to the private chat of another
    user. *)
Theorem forwardPrivateToTopic_spares_other_users (gw : Gateway)
    (fuel : nat) (mm : option Result) (msg : Message) :
  emits (sparesOthers (chat_id msg)) (forwardPrivateToTopic gw fuel mm msg).
Proof.
  apply (emits_forwardPrivateToTopic gw (sparesOthers (chat_id msg))
           (chat_id msg)); try reflexivity.
  - intros c E v Hv. congruence.
  - intros c g E v Hv. congruence.
  - intros c E v Hv. congruence.
Qed.

Lemma callTelegramApi_quiet (gw : Gateway) (c : Call) (w : World) :
  callTelegramApi gw false c w
  = Done (gw (w_trace w) c) (mkWorld (w_meta w) (w_kv w) (w_trace w ++ [c])).
Proof.
  unfold callTelegramApi. now rewrite andb_false_r.
Qed.

Lemma safeCall_sendMessage (gw : Gateway) chat thread text (w : World) :
  safeCall gw (sendMessage chat thread text) w
  = Done (gw (w_trace w) (sendMessage chat thread text))
      (mkWorld (w_meta w) (w_kv w)
         (w_trace w ++ [sendMessage chat thread text])).
Proof.
  unfold safeCall, callTelegramApi. cbn [is_sendMessage negb].
  now rewrite andb_false_r.
Qed.

(** X11.  [setMessageReaction] posts the reaction once, and once more, cut to its
    last emoji, only when the platform answers that there are too many
    reactions; it posts nothing else, changes no state and never fails. *)
Theorem setMessageReaction_retries_once (gw : Gateway) (chat : Chat)
    (mid : Z) (reaction : list Emoji) (w : World) :
  exists resp s,
    setReaction gw chat mid reaction w
    = Done resp (mkWorld (w_meta w) (w_kv w) (w_trace w ++ s))
    /\ (s = [setMessageReaction chat mid reaction]
        \/ s = [setMessageReaction chat mid reaction;
                setMessageReaction chat mid (JS.slice_last 1 reaction)]
           /\ ok (gw (w_trace w) (setMessageReaction chat mid reaction))
              = false
           /\ descriptionIncludes "REACTIONS_TOO_MANY"
                (gw (w_trace w) (setMessageReaction chat mid reaction))
              = true)
    /\ (List.length (JS.slice_last 1 reaction) <= 1)%nat.
Proof.
  unfold setReaction, bind. rewrite callTelegramApi_quiet.
  set (first := gw (w_trace w) (setMessageReaction chat mid reaction)).
  assert (Hlen : (List.length (JS.slice_last 1 reaction) <= 1)%nat)
    by (rewrite slice_last_length; lia).
  destruct (ok first) eqn:Eok.
  - eexists. eexists. split; [reflexivity |]. split; [now left | exact Hlen].
  - unfold descriptionIncludes.
    destruct (description first) as [s |] eqn:Ed.
    + destruct (JS.includes "REACTIONS_TOO_MANY" s) eqn:Ei.
      * rewrite callTelegramApi_quiet. cbn [w_meta w_kv w_trace].
        eexists. eexists. rewrite <- app_assoc.
        split; [reflexivity |]. split; [right; auto | exact Hlen].
      * eexists. eexists. split; [reflexivity |].
        split; [now left | exact Hlen].
    + replace (JS.includes "REACTIONS_TOO_MANY" EmptyString) with false
        by reflexivity.
      eexists. eexists. split; [reflexivity |].
      split; [now left | exact Hlen].
Qed.

(* ------------------------------------------------------------------ *)
(** ** Persisting the mapping *)

(** What [trimMetadataEntries] returns fits the size limit and decodes to
    the bindings it leaves in the structure. *)
Lemma trim_consistent (d : MetaData) (g : JS.num) :
  superGroupChatId d = Some g ->
  JsMap.wf (topicToFromChat d) ->
  (String.length (snd (trimMetadataEntries d)) <= MAX_TEXT_LENGTH)%nat
  /\ topicToFromChat (parseMetadataText (Some (snd (trimMetadataEntries d))))
     = topicToFromChat (fst (trimMetadataEntries d))
  /\ ((String.length (serialize d) <= MAX_TEXT_LENGTH)%nat ->
      trimMetadataEntries d = (d, serialize d)).
Proof.
  intros Hg Hwf. unfold trimMetadataEntries.
  destruct (Nat.leb (String.length (serialize d)) MAX_TEXT_LENGTH) eqn:Hleb.
  - apply Nat.leb_le in Hleb. cbn [fst snd].
    split; [exact Hleb |]. split; [| reflexivity].
    now destruct (parse_serialize d g Hg Hwf) as [_ [Ht _]].
  - apply Nat.leb_gt in Hleb.
    destruct (trimLoop_spec (topicToFromChat d) d eq_refl Hwf)
      as [k [Hk [Es [Et [Hbig Hfit]]]]].
    rewrite Es. cbn [fst snd].
    split; [apply slice0_length |]. split; [| lia].
    rewrite Et.
    destruct (Nat.le_gt_cases (String.length (encodeSuffix d k))
                MAX_TEXT_LENGTH) as [Hshort | Hcut].
    + rewrite slice0_short by exact Hshort.
      pose (dk := mkMetaData (Some g) (skipn k (topicToFromChat d)) []
                    (bannedTopics d) (topicToComment d) []).
      assert (Edk : encodeSuffix d k = serialize dk)
        by (unfold encodeSuffix, serialize, dk; cbn; now rewrite Hg).
      rewrite Edk.
      now destruct (parse_serialize dk g eq_refl (wf_skipn k _ Hwf))
        as [_ [Ht _]].
    + destruct Hfit as [Hfit | Hall]; [lia |].
      rewrite Hall, skipn_all.
      apply parse_single_piece. unfold JS.slice0.
      apply str_all_substring.
      unfold encodeSuffix. rewrite skipn_all, Hg.
      apply num_toString_piece.
Qed.

(** X12.  For a structure whose ids are safe integers, [updateMapping]
    writes the key-value copy first, whole, and then the
    pinned record: one edit of the pinned message whose text is at most
    4096 characters long and decodes to exactly the bindings the call
    leaves in the structure.  When the encoding fits, the structure is not
    touched and the text is its encoding. *)
Theorem updateMapping_persists (gw : Gateway) (w : World) (mm : Result)
    (g : JS.num) :
  superGroupChatId (w_meta w) = Some g ->
  safeIds (w_meta w) = true ->
  JsMap.wf (topicToFromChat (w_meta w)) ->
  exists text refreshed w',
    updateMapping gw (Some mm) w = Done refreshed w'
    /\ w_trace w' = w_trace w ++ [editMessageText Owner (message_id mm) text]
    /\ (String.length text <= MAX_TEXT_LENGTH)%nat
    /\ topicToFromChat (parseMetadataText (Some text))
       = topicToFromChat (w_meta w')
    /\ ((String.length (serialize (w_meta w)) <= MAX_TEXT_LENGTH)%nat ->
        w_meta w' = w_meta w /\ text = serialize (w_meta w))
    /\ (forall store,
          w_kv w = Some store -> kv_put_throws store = false ->
          truthyGroup (Some g) = true ->
          exists store',
            w_kv w' = Some store'
            /\ kv_topics store' (groupKey (Some g)) = Some (w_meta w)).
Proof.
  intros Hg Hsafe Hwf.
  destruct (trim_consistent (w_meta w) g Hg Hwf) as [Hlen [Hdec Hfit]].
  unfold updateMapping.
  unfold bind at 1. unfold getMeta at 1.
  unfold bind at 1. unfold getKvStore at 1.
  unfold bind at 1.
  set (saved := match w_kv w with
                | Some store =>
                    if truthyGroup (superGroupChatId (w_meta w))
                    then setKv (Some (saveTopicMappingToKV store
                                        (superGroupChatId (w_meta w))
                                        (w_meta w)))
                    else ret tt
                | None => ret tt
                end).
  assert (Hs : exists kv1,
             saved w = Done tt (mkWorld (w_meta w) kv1 (w_trace w))
             /\ (forall store,
                   w_kv w = Some store -> kv_put_throws store = false ->
                   truthyGroup (Some g) = true ->
                   exists store',
                     kv1 = Some store'
                     /\ kv_topics store' (groupKey (Some g))
                        = Some (w_meta w))).
  { unfold saved. rewrite Hg. destruct (w_kv w) as [store |] eqn:Ekv.
    - destruct (truthyGroup (Some g)) eqn:Etg.
      + eexists. split; [reflexivity |].
        intros store0 E Hp _. injection E as <-.
        eexists. split; [reflexivity |].
        unfold saveTopicMappingToKV. rewrite Hp. cbn [kv_topics].
        now rewrite String.eqb_refl.
      + exists (Some store). split.
        * unfold ret. destruct w; cbn in *. now subst.
        * intros store0 _ _ H. discriminate H.
    - exists None. split.
      + unfold ret. destruct w; cbn in *. now subst.
      + intros store0 H. discriminate H. }
  destruct Hs as [kv1 [Es Hkv]]. rewrite Es.
  destruct (trimMetadataEntries (w_meta w)) as [d' text] eqn:Et.
  cbn [fst snd] in Hlen, Hdec.
  unfold bind at 1. unfold setMeta at 1. cbn [w_meta w_kv w_trace].
  unfold editMetadata, bind. rewrite callTelegramApi_quiet.
  cbn [w_meta w_kv w_trace].
  rewrite (slice0_short _ _ Hlen).
  exists text.
  destruct (negb (ok (gw (w_trace w)
                        (editMessageText Owner (message_id mm) text))));
    eexists; eexists; (split; [reflexivity |]); cbn [w_meta w_kv w_trace];
    (split; [reflexivity |]); (split; [exact Hlen |]);
    (split; [exact Hdec |]);
    (split; [intros Hshort; specialize (Hfit Hshort);
             injection Hfit as -> ->; now split | exact Hkv]).
Qed.

Lemma updateMapping_persists_witness :
  exists text refreshed w',
    updateMapping alwaysRejecting (Some (mkResult None (Some 5) None None))
      (mkWorld bound_10_555 (Some emptyKv) [])
    = Done refreshed w'
    /\ w_trace w' = [] ++ [editMessageText Owner (Some 5) text]
    /\ (String.length text <= MAX_TEXT_LENGTH)%nat
    /\ topicToFromChat (parseMetadataText (Some text))
       = topicToFromChat (w_meta w')
    /\ ((String.length (serialize bound_10_555) <= MAX_TEXT_LENGTH)%nat ->
        w_meta w' = bound_10_555 /\ text = serialize bound_10_555)
    /\ (forall store,
          Some emptyKv = Some store -> kv_put_throws store = false ->
          truthyGroup (Some (JS.Num (-100123))) = true ->
          exists store',
            w_kv w' = Some store'
            /\ kv_topics store' (groupKey (Some (JS.Num (-100123))))
               = Some bound_10_555).
Proof.
  apply (updateMapping_persists alwaysRejecting
           (mkWorld bound_10_555 (Some emptyKv) [])
           (mkResult None (Some 5) None None) (JS.Num (-100123))).
  - reflexivity.
  - reflexivity.
  - unfold JsMap.wf. simpl. constructor; [intros [] | constructor].
Defined.

(* ------------------------------------------------------------------ *)
(** ** Appending to the pinned record of links *)

Lemma split_nonempty (sep : ascii) (s : string) : JS.split sep s <> [].
Proof.
  induction s as [| c r IH]; simpl; [discriminate |].
  destruct (Ascii.eqb c sep); [discriminate |].
  destruct (JS.split sep r); [contradiction | discriminate].
Qed.

Lemma split_app (sep : ascii) (a b : string) :
  JS.split sep (a ++ String sep b) = JS.split sep a ++ JS.split sep b.
Proof.
  induction a as [| c r IH]; simpl.
  - now rewrite Ascii.eqb_refl.
  - destruct (Ascii.eqb c sep); [now rewrite IH |].
    rewrite IH. pose proof (split_nonempty sep r) as Hne.
    destruct (JS.split sep r); [contradiction | reflexivity].
Qed.

Lemma split_pieces_clean (sep : ascii) (s : string) :
  Forall (fun p => str_all (not_char sep) p = true) (JS.split sep s).
Proof.
  induction s as [| c r IH]; simpl; [repeat constructor |].
  destruct (Ascii.eqb c sep) eqn:E; [constructor; [reflexivity | exact IH] |].
  pose proof (split_nonempty sep r) as Hne.
  destruct (JS.split sep r) as [| h t]; [contradiction |].
  inversion IH as [| ? ? Hh Ht]; subst.
  constructor; [| exact Ht]. simpl. unfold not_char at 1.
  now rewrite E, Hh.
Qed.

Lemma Forall_skipn {A : Type} (Q : A -> Prop) (n : nat) (l : list A) :
  Forall Q l -> Forall Q (skipn n l).
Proof.
  intros H. rewrite <- (firstn_skipn n l) in H.
  now apply Forall_app in H as [_ H].
Qed.

(** What the record becomes when a link is appended to it, and what the
    two lookups then find. *)
Lemma appended_text_lookup (text : string) (l : Link) :
  0 <= topicId l -> 0 <= topicMessageId l ->
  let newText := trimMappingText (text ++ ";" ++ linkText l) in
  lookupTopicMessage (parseMessageMappings newText) (pmMessageId l)
  = mkTopicRef (Some (topicId l)) (Some (topicMessageId l))
  /\ lookupPmMessage (parseMessageMappings newText) (topicMessageId l)
     = mkPmRef (Some (topicId l)) (Some (pmMessageId l)).
Proof.
  intros Ht Hm newText. subst newText. unfold trimMappingText.
  cbn [append]. rewrite split_app, filter_app.
  destruct (linkText_piece l) as [Hclean Hne].
  rewrite (split_no_sep ";" (linkText l) Hclean).
  cbn [filter]. rewrite Hne.
  set (old := filter JS.nonempty (JS.split ";" text)).
  assert (Hold : Forall (fun s => str_all (not_char ";") s = true
                                  /\ JS.nonempty s = true) old).
  { unfold old. apply Forall_forall. intros s Hs.
    apply filter_In in Hs as [Hin Hs]. split; [| exact Hs].
    exact (proj1 (Forall_forall _ _) (split_pieces_clean ";" text) s Hin). }
  destruct (trimParts_spec (old ++ [linkText l])) as [k [Hk [Et _]]].
  rewrite Et.
  assert (Hk' : (k <= List.length old)%nat).
  { destruct Hk as [Hk | Hk].
    - rewrite length_app in Hk. simpl in Hk. lia.
    - destruct old; discriminate Hk. }
  rewrite skipn_app.
  replace (k - List.length old)%nat with 0%nat by lia. cbn [skipn].
  rewrite parseMessageMappings_join.
  2:{ apply Forall_app. split; [now apply Forall_skipn |].
      constructor; [now split | constructor]. }
  rewrite flat_map_app. cbn [flat_map].
  rewrite parseMappingChunk_linkText by assumption. rewrite app_nil_r.
  unfold lookupTopicMessage, lookupPmMessage.
  rewrite !scanBack_snoc by (cbn; apply Z.eqb_refl).
  split; reflexivity.
Qed.

(** X13.  Without a key-value binding, [addMessageMapping] appends the link to
    the pinned record of the group: it reads the record, edits it, and,
    the ids of the link being safe integers, the text it writes resolves
    both message ids of the new link to that link,
    whatever the record held and however much of it had to be dropped. *)
Theorem addMessageMapping_pinned_is_found (gw : Gateway) (w : World)
    (g : option JS.num) (topic tm pm mid : Z) (text : string)
    (r : Result) :
  w_kv w = None ->
  safeLink (mkLink topic tm pm) = true ->
  0 <= topic -> 0 <= tm ->
  result (gw (w_trace w) (getChat (Supergroup g))) = Some r ->
  pinned_message r = Some (mkPinned (Some text) (Some mid)) ->
  JS.nonempty text = true -> mid <> 0 ->
  exists newText,
    addMessageMapping gw g topic tm pm w
    = Done tt
        (mkWorld (w_meta w) None
           (w_trace w
            ++ [getChat (Supergroup g);
                editMessageText (Supergroup g) (Some mid) newText]))
    /\ lookupTopicMessage (parseMessageMappings newText) pm
       = mkTopicRef (Some topic) (Some tm)
    /\ lookupPmMessage (parseMessageMappings newText) tm
       = mkPmRef (Some topic) (Some pm).
Proof.
  intros Hkv Hsafe Ht Hm Hr Hp Hne Hmid.
  exists (trimMappingText (text ++ ";" ++ linkText (mkLink topic tm pm))).
  split; [| exact (appended_text_lookup text (mkLink topic tm pm) Ht Hm)].
  unfold addMessageMapping. unfold bind at 1. unfold getKvStore at 1.
  rewrite Hkv. unfold bind at 1.
  unfold loadMessageMappingText, bind at 1.
  rewrite callTelegramApi_quiet. cbn [w_meta w_kv w_trace].
  rewrite Hr, Hp. unfold ret at 1. cbn [pin_text pin_message_id truthyId].
  rewrite (truthy_nonzero mid Hmid), Hne.
  unfold bind. rewrite callTelegramApi_quiet. cbn [w_meta w_kv w_trace].
  unfold ret. rewrite Hkv, <- app_assoc. reflexivity.
Qed.

Lemma addMessageMapping_pinned_is_found_witness :
  exists newText,
    addMessageMapping
      (fun _ _ =>
         okResponse
           (mkResult None None None
              (Some (mkPinned (Some "10-70:1"%string) (Some 3)))))
      None 10 77 2 (mkWorld no_binding None [])
    = Done tt
        (mkWorld no_binding None
           ([] ++ [getChat (Supergroup None);
                   editMessageText (Supergroup None) (Some 3) newText]))
    /\ lookupTopicMessage (parseMessageMappings newText) 2
       = mkTopicRef (Some 10) (Some 77)
    /\ lookupPmMessage (parseMessageMappings newText) 77
       = mkPmRef (Some 10) (Some 2).
Proof.
  apply (addMessageMapping_pinned_is_found
           (fun _ _ =>
              okResponse
                (mkResult None None None
                   (Some (mkPinned (Some "10-70:1"%string) (Some 3)))))
           (mkWorld no_binding None []) None 10 77 2 3 "10-70:1"%string
           (mkResult None None None
              (Some (mkPinned (Some "10-70:1"%string) (Some 3)))));
    try reflexivity; try discriminate; lia.
Defined.

(* ------------------------------------------------------------------ *)
(** ** The relay: delivery, failure to get a thread *)

Lemma setReaction_done (gw : Gateway) chat mid r (w : World) :
  exists resp s,
    setReaction gw chat mid r w
    = Done resp (mkWorld (w_meta w) (w_kv w) (w_trace w ++ s))
    /\ forallb isReaction s = true.
Proof.
  unfold setReaction, bind. rewrite callTelegramApi_quiet.
  destruct (ok _).
  - eexists. eexists. split; reflexivity.
  - destruct (JS.includes _ _).
    + rewrite callTelegramApi_quiet. cbn [w_meta w_kv w_trace].
      eexists. eexists. rewrite <- app_assoc. split; reflexivity.
    + eexists. eexists. split; reflexivity.
Qed.

Lemma added_link_lookup (kv : KvStore) (g : option JS.num) (t tm pm : Z) :
  kv_get_throws kv = false -> kv_put_throws kv = false ->
  findTopicMessageIdKV (addMessageMappingKV kv g t tm pm) g pm
  = mkTopicRef (Some t) (Some tm)
  /\ findPmMessageIdKV (addMessageMappingKV kv g t tm pm) g tm
     = mkPmRef (Some t) (Some pm).
Proof.
  intros Hg Hp.
  destruct (addMessageMappingKV_load g kv t tm pm Hg Hp) as [E _].
  unfold findTopicMessageIdKV, findPmMessageIdKV. rewrite E.
  unfold MAX_KV_MAPPINGS. rewrite slice_last_snoc.
  unfold lookupTopicMessage, lookupPmMessage.
  rewrite !scanBack_snoc by (cbn; apply Z.eqb_refl).
  split; reflexivity.
Qed.

Lemma safeCall_ok (gw : Gateway) (c : Call) (w : World) :
  ok (gw (w_trace w) c) = true ->
  safeCall gw c w
  = Done (gw (w_trace w) c) (mkWorld (w_meta w) (w_kv w) (w_trace w ++ [c])).
Proof.
  intros H. unfold safeCall, callTelegramApi. now rewrite H.
Qed.

(** X14.  A message of a bound, unblocked sender that the platform accepts is
    delivered in one pass: one copy request into the bound topic, then the
    delivery mark on the sender's message; the structure is not touched,
    and the link stored in the key-value store resolves the sender's
    message id and the topic-side message id to each other. *)
Theorem relayed_message_is_linked (gw : Gateway) (w : World) (fuel : nat)
    (mm : option Result) (msg : Message) (store : KvStore) (t tm : Z)
    (r : Result) :
  let g := superGroupChatId (w_meta w) in
  let copy := copyMessage (Supergroup g) (chat_id msg) (msg_id msg) t None in
  w_kv w = Some store ->
  kv_get_throws store = false -> kv_put_throws store = false ->
  JsMap.get (fromChatToTopic (w_meta w)) (chat_id msg) = Some t ->
  t <> 0 -> isTopicBanned (w_meta w) t = false ->
  reply_to_message msg = None ->
  ok (gw (w_trace w) copy) = true ->
  result (gw (w_trace w) copy) = Some r ->
  message_id r = Some tm -> tm <> 0 ->
  exists store' marks,
    forwardPrivateToTopic gw (S fuel) mm msg w
    = Done tt
        (mkWorld (w_meta w) (Some store') (w_trace w ++ copy :: marks))
    /\ forallb isReaction marks = true
    /\ findTopicMessageIdKV store' g (msg_id msg)
       = mkTopicRef (Some t) (Some tm)
    /\ findPmMessageIdKV store' g tm = mkPmRef (Some t) (Some (msg_id msg)).
Proof.
  intros g copy Hkv Hgt Hpt Hget Hnz Hban Hreply Hok Hres Hmid Htm.
  exists (addMessageMappingKV store g t tm (msg_id msg)).
  destruct (setReaction_done gw (Private (chat_id msg)) (msg_id msg) [Dove]
              (mkWorld (w_meta w)
                 (Some (addMessageMappingKV store g t tm (msg_id msg)))
                 (w_trace w ++ [copy])))
    as [resp [marks [Emark Hmarks]]].
  exists marks. split; [| split; [exact Hmarks |
                                   now apply added_link_lookup]].
  cbn [forwardPrivateToTopic].
  unfold bind at 1. unfold getMeta at 1. rewrite Hget, Hban.
  rewrite (truthy_nonzero t Hnz). cbn [andb].
  unfold bind at 1. unfold relayAttempt, tryCatch.
  unfold bind at 1. unfold ensureTopic at 1.
  unfold bind at 1. unfold getMeta at 1. rewrite Hget.
  rewrite (truthy_nonzero t Hnz). unfold ret at 1.
  unfold bind at 1. unfold getMeta at 1.
  rewrite Hreply. unfold bind at 1. unfold ret at 1.
  cbn [ref_topicId ref_topicMessageId truthyId].
  unfold bind at 1. fold g. fold copy.
  rewrite (safeCall_ok gw copy w Hok). rewrite Hok, Hres, Hmid.
  rewrite (truthy_nonzero tm Htm). cbn [negb].
  unfold bind at 1. unfold addMessageMapping at 1.
  unfold bind at 1. unfold getKvStore at 1. cbn [w_kv].
  rewrite Hkv. unfold setKv at 1. cbn [w_meta w_kv w_trace].
  unfold bind at 1. unfold notifyMessageSent, bind at 1.
  rewrite Emark. cbn [w_meta w_kv w_trace]. unfold ret.
  rewrite <- app_assoc. reflexivity.
Qed.

Lemma relayed_message_is_linked_witness :
  exists store' marks,
    forwardPrivateToTopic (rejecting 0) 1 pinnedRecord hello
      (mkWorld bound_10_555 (Some emptyKv) [])
    = Done tt
        (mkWorld bound_10_555 (Some store')
           ([] ++ copyMessage (Supergroup (Some (JS.Num (-100123))))
                    555 1 10 None :: marks))
    /\ forallb isReaction marks = true
    /\ findTopicMessageIdKV store' (Some (JS.Num (-100123))) 1
       = mkTopicRef (Some 10) (Some 77)
    /\ findPmMessageIdKV store' (Some (JS.Num (-100123))) 77
       = mkPmRef (Some 10) (Some 1).
Proof.
  apply (relayed_message_is_linked (rejecting 0)
           (mkWorld bound_10_555 (Some emptyKv) []) 0 pinnedRecord hello
           emptyKv 10 77 (mkResult None (Some 77) None None));
    try reflexivity; discriminate.
Defined.

(* ------------------------------------------------------------------ *)
(** ** Moderation: [banTopic], [unbanTopic], [changeBanStatus] *)

Lemma isTopicBanned_markBan_true (d : MetaData) (t : Z) :
  isTopicBanned (markBan d t true) t = true.
Proof.
  unfold isTopicBanned, markBan. cbn [bannedTopics andb negb].
  destruct (JS.array_includes (JS.Z_toString t) (bannedTopics d)) eqn:E.
  - exact E.
  - cbn [negb]. rewrite array_includes_app, E. cbn.
    now rewrite String.eqb_refl.
Qed.

(** [updateMapping] on a structure whose encoding fits: the structure is
    kept and its encoding is written to the pinned record. *)
Lemma updateMapping_fits (gw : Gateway) (w : World) (mm : Result) :
  (String.length (serialize (w_meta w)) <= MAX_TEXT_LENGTH)%nat ->
  exists refreshed kv',
    updateMapping gw (Some mm) w
    = Done refreshed
        (mkWorld (w_meta w) kv'
           (w_trace w
            ++ [editMessageText Owner (message_id mm)
                  (serialize (w_meta w))])).
Proof.
  intros Hlen. unfold updateMapping.
  unfold bind at 1. unfold getMeta at 1.
  unfold bind at 1. unfold getKvStore at 1.
  unfold bind at 1.
  assert (Hs : exists kv1,
             match w_kv w with
             | Some store =>
                 if truthyGroup (superGroupChatId (w_meta w))
                 then setKv (Some (saveTopicMappingToKV store
                                     (superGroupChatId (w_meta w))
                                     (w_meta w)))
                 else ret tt
             | None => ret tt
             end w = Done tt (mkWorld (w_meta w) kv1 (w_trace w))).
  { destruct (w_kv w) as [store |] eqn:Ekv.
    - destruct (truthyGroup (superGroupChatId (w_meta w))).
      + eexists. reflexivity.
      + exists (Some store). unfold ret. destruct w; cbn in *. now subst.
    - exists None. unfold ret. destruct w; cbn in *. now subst. }
  destruct Hs as [kv1 Es]. rewrite Es.
  unfold trimMetadataEntries.
  pose proof Hlen as Hleb. apply Nat.leb_le in Hleb. rewrite Hleb.
  unfold bind at 1. unfold setMeta at 1. cbn [w_meta w_kv w_trace].
  unfold editMetadata, bind. rewrite callTelegramApi_quiet.
  cbn [w_meta w_kv w_trace]. rewrite (slice0_short _ _ Hlen).
  destruct (negb (ok (gw (w_trace w)
                        (editMessageText Owner (message_id mm)
                           (serialize (w_meta w))))));
    eexists; eexists; reflexivity.
Qed.

Lemma notifyTopic_done (gw : Gateway) (chat topic : Z) (text : Text)
    (w : World) :
  notifyTopic gw chat topic text w
  = Done tt
      (mkWorld (w_meta w) (w_kv w)
         (w_trace w
          ++ [sendMessage (Supergroup (Some (JS.Num chat))) (Some topic)
                text])).
Proof.
  unfold notifyTopic, bind. now rewrite callTelegramApi_quiet.
Qed.

(** X15.  A ban of a bound topic that is not blocked yet sets the flag of that
    topic, writes the structure to the pinned record, confirms in the
    topic and, unless silent, tells the user; the ids of the structure
    being safe integers, the text written decodes to a
    structure in which the topic is blocked, and a later message of the
    user is answered by the notice of the block and not relayed. *)
Theorem banTopic_blocks_the_sender (gw : Gateway) (w : World)
    (cmd : BanCommand) (mm : Result) (silent : bool) (t chat u : Z)
    (g : JS.num) :
  cmd_thread cmd = Some t -> cmd_chat cmd = Some chat ->
  t <> 0 -> chat <> 0 -> u <> 0 ->
  JsMap.get (topicToFromChat (w_meta w)) t = Some u ->
  isTopicBanned (w_meta w) t = false ->
  superGroupChatId (w_meta w) = Some g ->
  safeIds (w_meta w) = true ->
  JsMap.wf (topicToFromChat (w_meta w)) ->
  (String.length (serialize (markBan (w_meta w) t true)) <= MAX_TEXT_LENGTH)%nat ->
  let d' := markBan (w_meta w) t true in
  let text := serialize d' in
  let said :=
    editMessageText Owner (message_id mm) text
    :: sendMessage (Supergroup (Some (JS.Num chat))) (Some t) textBanned
    :: (if silent then []
        else [sendMessage (Private u) None textYouAreBanned]) in
  exists kv',
    banTopic gw cmd (Some mm) silent w
    = Done tt (mkWorld d' kv' (w_trace w ++ said))
    /\ isTopicBanned (parseMetadataText (Some text)) t = true
    /\ (forall fuel mm' msg,
          JsMap.get (fromChatToTopic (w_meta w)) (chat_id msg) = Some t ->
          forwardPrivateToTopic gw (S fuel) mm' msg
            (mkWorld d' kv' (w_trace w ++ said))
          = Done tt
              (mkWorld d' kv'
                 ((w_trace w ++ said)
                  ++ [sendMessage (Private (chat_id msg)) None
                        TextBlocked]))).
Proof.
  intros Hth Hch Ht Hc Hu Hget Hban Hg Hsafe Hwf Hlen d' text said.
  destruct (updateMapping_fits gw
              (mkWorld d' (w_kv w) (w_trace w)) mm Hlen)
    as [refreshed [kv' Eu]].
  cbn [w_meta w_kv w_trace] in Eu. fold d' in Eu. fold text in Eu.
  exists kv'. split; [| split].
  - unfold banTopic. rewrite Hth, Hch.
    rewrite (truthy_nonzero t Ht), (truthy_nonzero chat Hc). cbn [andb].
    unfold bind at 1. unfold getMeta at 1. rewrite Hget, Hban.
    cbn [truthyId]. rewrite (truthy_nonzero u Hu).
    unfold tryCatch.
    unfold bind at 1. unfold setMeta at 1. cbn [w_meta w_kv w_trace].
    fold d'. unfold bind at 1. rewrite Eu.
    unfold bind at 1. rewrite notifyTopic_done. cbn [w_meta w_kv w_trace].
    unfold said. destruct silent; cbn [negb].
    + unfold ret. rewrite <- app_assoc. reflexivity.
    + unfold bind. rewrite safeCall_sendMessage. cbn [w_meta w_kv w_trace].
      unfold ret. rewrite <- !app_assoc. reflexivity.
  - assert (Hg' : superGroupChatId d' = Some g) by exact Hg.
    assert (Hwf' : JsMap.wf (topicToFromChat d')) by exact Hwf.
    destruct (parse_serialize d' g Hg' Hwf') as [_ [_ [Hflag _]]].
    unfold text. rewrite Hflag.
    + apply isTopicBanned_markBan_true.
    + unfold JsMap.has. change (topicToFromChat d')
        with (topicToFromChat (w_meta w)). now rewrite Hget.
  - intros fuel mm' msg Hbound.
    apply (blocked_relay gw (mkWorld d' kv' (w_trace w ++ said)) fuel mm'
             msg t).
    + exact Hbound.
    + exact Ht.
    + apply isTopicBanned_markBan_true.
Qed.

Lemma banTopic_blocks_the_sender_witness :
  let w := mkWorld bound_10_555 None [] in
  let d' := markBan bound_10_555 10 true in
  let text := serialize d' in
  let said :=
    editMessageText Owner (Some 5) text
    :: sendMessage (Supergroup (Some (JS.Num (-100123)))) (Some 10)
         textBanned
    :: (if false then []
        else [sendMessage (Private 555) None textYouAreBanned]) in
  exists kv',
    banTopic alwaysRejecting (mkBanCommand (Some 10) (Some (-100123)))
      (Some (mkResult None (Some 5) None None)) false w
    = Done tt (mkWorld d' kv' (w_trace w ++ said))
    /\ isTopicBanned (parseMetadataText (Some text)) 10 = true
    /\ (forall fuel mm' msg,
          JsMap.get (fromChatToTopic (w_meta w)) (chat_id msg) = Some 10 ->
          forwardPrivateToTopic alwaysRejecting (S fuel) mm' msg
            (mkWorld d' kv' (w_trace w ++ said))
          = Done tt
              (mkWorld d' kv'
                 ((w_trace w ++ said)
                  ++ [sendMessage (Private (chat_id msg)) None
                        TextBlocked]))).
Proof.
  apply (banTopic_blocks_the_sender alwaysRejecting
           (mkWorld bound_10_555 None [])
           (mkBanCommand (Some 10) (Some (-100123)))
           (mkResult None (Some 5) None None) false 10 (-100123) 555
           (JS.Num (-100123)));
    try reflexivity; try discriminate.
  - unfold JsMap.wf. simpl. constructor; [intros [] | constructor].
  - apply Nat.leb_le. vm_compute. reflexivity.
Defined.

Lemma sparesUsers_owner (c : Call) : addressee c = Owner -> sparesUsers c.
Proof. intros E v Hv. congruence. Qed.

Lemma sparesUsers_group (c : Call) (g : option JS.num) :
  addressee c = Supergroup g -> sparesUsers c.
Proof. intros E v Hv. congruence. Qed.

Lemma emits_safeCall_spares (gw : Gateway) (c : Call) :
  (addressee c = Owner \/ exists g, addressee c = Supergroup g) ->
  emits sparesUsers (safeCall gw c).
Proof.
  intros H. apply emits_callTelegramApi.
  - destruct H as [H | [g H]];
      [now apply sparesUsers_owner | now apply (sparesUsers_group c g)].
  - now apply sparesUsers_owner.
Qed.

Lemma emits_notifyTopic_spares (gw : Gateway) chat topic text :
  emits sparesUsers (notifyTopic gw chat topic text).
Proof.
  unfold notifyTopic. apply emits_bind; [| intros _; apply emits_ret].
  apply emits_callTelegramApi.
  - now apply (sparesUsers_group _ (Some (JS.Num chat))).
  - now apply sparesUsers_owner.
Qed.

Lemma emits_updateMapping_spares (gw : Gateway) mm :
  emits sparesUsers (updateMapping gw mm).
Proof. apply emits_updateMapping. apply sparesUsers_owner. Qed.

(** X16.  The silent forms of the ban and of its lifting, and [changeBanStatus]
    in every case, address the owner's chat and the group only: no request
    goes to the chat of a user, whatever the state and whatever the
    platform answers. *)
Theorem silent_moderation_spares_users (gw : Gateway) (cmd : BanCommand)
    (mm : option Result) (topic : Z) (banned : bool) :
  emits sparesUsers (banTopic gw cmd mm true)
  /\ emits sparesUsers (unbanTopic gw cmd mm true)
  /\ emits sparesUsers (changeBanStatus gw mm topic banned).
Proof.
  assert (Hno : forall text,
             emits sparesUsers
               (safeCall gw (sendMessage Owner None text) ;;; ret tt)).
  { intros text. apply emits_bind.
    - apply emits_safeCall_spares. now left.
    - intros _. apply emits_ret. }
  assert (Hgroup : forall g thread text,
             emits sparesUsers
               (safeCall gw (sendMessage (Supergroup g) thread text) ;;;
                ret tt)).
  { intros g thread text. apply emits_bind.
    - apply emits_safeCall_spares. right. now exists g.
    - intros _. apply emits_ret. }
  split; [| split].
  - unfold banTopic.
    destruct (cmd_thread cmd) as [t |]; [| apply Hno].
    destruct (cmd_chat cmd) as [chat |]; [| apply Hno].
    destruct (JS.truthy t && JS.truthy chat); [| apply Hno].
    apply emits_bind; [apply emits_getMeta | intro d].
    destruct (truthyId (JsMap.get (topicToFromChat d) t));
      [| apply emits_notifyTopic_spares].
    destruct (isTopicBanned d t); [apply emits_notifyTopic_spares |].
    apply emits_tryCatch; [| intros _; apply emits_notifyTopic_spares].
    apply emits_bind; [apply emits_setMeta | intros _].
    apply emits_bind; [apply emits_updateMapping_spares | intros _].
    apply emits_bind; [apply emits_notifyTopic_spares | intros _].
    cbn [negb]. apply emits_ret.
  - unfold unbanTopic.
    destruct (cmd_thread cmd) as [t |]; [| apply Hno].
    destruct (cmd_chat cmd) as [chat |]; [| apply Hno].
    destruct (JS.truthy t && JS.truthy chat); [| apply Hno].
    apply emits_bind; [apply emits_getMeta | intro d]. cbv zeta.
    destruct (negb (isTopicBanned d t)); [apply emits_notifyTopic_spares |].
    apply emits_tryCatch; [| intros _; apply emits_notifyTopic_spares].
    apply emits_bind; [apply emits_setMeta | intros _].
    apply emits_bind; [apply emits_updateMapping_spares | intros _].
    apply emits_bind; [apply emits_notifyTopic_spares | intros _].
    cbn [negb andb]. apply emits_ret.
  - unfold changeBanStatus.
    apply emits_bind; [apply emits_getMeta | intro d]. cbv zeta.
    destruct (Bool.eqb (isTopicBanned d topic) banned); [apply Hgroup |].
    destruct (negb (JsMap.has (topicToFromChat d) topic)); [apply Hgroup |].
    apply emits_bind; [apply emits_setMeta | intros _].
    apply emits_bind; [apply emits_updateMapping_spares | intros _].
    apply Hgroup.
Qed.

(** X17.  The moderation commands change nothing when there is nothing to do:
    a ban of a topic that is blocked already or bound to no user, the
    lifting of a ban that is not in force, and [changeBanStatus] towards
    the state the topic is in or on a topic without binding, each post one
    notice in the topic and leave the structure, the store and the pinned
    record alone. *)
Theorem moderation_without_effect (gw : Gateway) (w : World)
    (cmd : BanCommand) (mm : option Result) (silent : bool)
    (t chat : Z) (b : bool) :
  cmd_thread cmd = Some t -> cmd_chat cmd = Some chat ->
  t <> 0 -> chat <> 0 ->
  let notice group text :=
    Done tt
      (mkWorld (w_meta w) (w_kv w)
         (w_trace w ++ [sendMessage (Supergroup group) (Some t) text])) in
  let d := w_meta w in
  (truthyId (JsMap.get (topicToFromChat d) t) = false ->
   banTopic gw cmd mm silent w
   = notice (Some (JS.Num chat)) textBanCancelled)
  /\ (truthyId (JsMap.get (topicToFromChat d) t) = true ->
      isTopicBanned d t = true ->
      banTopic gw cmd mm silent w
      = notice (Some (JS.Num chat)) textAlreadyBanned)
  /\ (isTopicBanned d t = false ->
      unbanTopic gw cmd mm silent w
      = notice (Some (JS.Num chat)) textNotBanned)
  /\ (isTopicBanned d t = b ->
      changeBanStatus gw mm t b w
      = notice (superGroupChatId d)
          (if b then textIsBanned else textIsNotBanned))
  /\ (isTopicBanned d t <> b ->
      JsMap.has (topicToFromChat d) t = false ->
      changeBanStatus gw mm t b w
      = notice (superGroupChatId d) textNoMapping).
Proof.
  intros Hth Hch Ht Hc notice d. subst notice d. cbv beta.
  repeat split.
  - intros Hun. unfold banTopic. rewrite Hth, Hch.
    rewrite (truthy_nonzero t Ht), (truthy_nonzero chat Hc). cbn [andb].
    unfold bind at 1. unfold getMeta at 1. rewrite Hun.
    apply notifyTopic_done.
  - intros Hb Hban. unfold banTopic. rewrite Hth, Hch.
    rewrite (truthy_nonzero t Ht), (truthy_nonzero chat Hc). cbn [andb].
    unfold bind at 1. unfold getMeta at 1. rewrite Hb, Hban.
    apply notifyTopic_done.
  - intros Hban. unfold unbanTopic. rewrite Hth, Hch.
    rewrite (truthy_nonzero t Ht), (truthy_nonzero chat Hc). cbn [andb].
    unfold bind at 1. unfold getMeta at 1. cbv zeta. rewrite Hban.
    cbn [negb]. apply notifyTopic_done.
  - intros Hsame. unfold changeBanStatus.
    unfold bind at 1. unfold getMeta at 1. cbv zeta.
    rewrite Hsame, Bool.eqb_reflx.
    unfold bind. rewrite safeCall_sendMessage. reflexivity.
  - intros Hdiff Hun. unfold changeBanStatus.
    unfold bind at 1. unfold getMeta at 1. cbv zeta.
    assert (E : Bool.eqb (isTopicBanned (w_meta w) t) b = false).
    { destruct (isTopicBanned (w_meta w) t), b; try reflexivity;
        now contradiction Hdiff. }
    rewrite E, Hun. cbn [negb].
    unfold bind. rewrite safeCall_sendMessage. reflexivity.
Qed.

Lemma moderation_without_effect_witness :
  let w := mkWorld bound_10_555 None [] in
  let cmd := mkBanCommand (Some 11) (Some (-100123)) in
  let notice group text :=
    Done tt
      (mkWorld (w_meta w) (w_kv w)
         (w_trace w ++ [sendMessage (Supergroup group) (Some 11) text])) in
  let d := w_meta w in
  (truthyId (JsMap.get (topicToFromChat d) 11) = false ->
   banTopic alwaysRejecting cmd pinnedRecord false w
   = notice (Some (JS.Num (-100123))) textBanCancelled)
  /\ (truthyId (JsMap.get (topicToFromChat d) 11) = true ->
      isTopicBanned d 11 = true ->
      banTopic alwaysRejecting cmd pinnedRecord false w
      = notice (Some (JS.Num (-100123))) textAlreadyBanned)
  /\ (isTopicBanned d 11 = false ->
      unbanTopic alwaysRejecting cmd pinnedRecord false w
      = notice (Some (JS.Num (-100123))) textNotBanned)
  /\ (isTopicBanned d 11 = false ->
      changeBanStatus alwaysRejecting pinnedRecord 11 false w
      = notice (superGroupChatId d)
          (if false then textIsBanned else textIsNotBanned))
  /\ (isTopicBanned d 11 <> false ->
      JsMap.has (topicToFromChat d) 11 = false ->
      changeBanStatus alwaysRejecting pinnedRecord 11 false w
      = notice (superGroupChatId d) textNoMapping).
Proof.
  apply (moderation_without_effect alwaysRejecting
           (mkWorld bound_10_555 None [])
           (mkBanCommand (Some 11) (Some (-100123))) pinnedRecord false
           11 (-100123) false); try reflexivity; discriminate.
Defined.

(* ------------------------------------------------------------------ *)
(** ** The private entry point: [handlePrivateChat] *)

Lemma trimEnd_cons (c : ascii) (r : string) :
  JS.is_space c = false -> trimEnd (String c r) = String c (trimEnd r).
Proof. intros H. cbn [trimEnd]. now rewrite H. Qed.

Lemma trimEnd_digits_app (ds rest : string) :
  str_all JS.is_digit ds = true ->
  trimEnd (ds ++ rest) = (ds ++ trimEnd rest)%string.
Proof.
  induction ds as [| c r IH]; intros H; [reflexivity |].
  simpl in H. apply andb_true_iff in H as [Hc Hr].
  cbn [append]. rewrite trimEnd_cons by now apply is_digit_cases.
  now rewrite IH.
Qed.

Lemma trimEnd_digits (ds : string) :
  str_all JS.is_digit ds = true -> trimEnd ds = ds.
Proof.
  intros H. rewrite <- (str_app_nil_r ds) at 1.
  rewrite trimEnd_digits_app by exact H. apply str_app_nil_r.
Qed.

Lemma digitsThenSemicolon_digits (ds x : string) :
  forall seen, str_all JS.is_digit ds = true ->
    digitsThenSemicolon seen (ds ++ String ";" x) = seen || JS.nonempty ds.
Proof.
  induction ds as [| c r IH]; intros seen H.
  - cbn. now rewrite orb_false_r, andb_true_r.
  - simpl in H. apply andb_true_iff in H as [Hc Hr].
    cbn [append digitsThenSemicolon]. rewrite Hc, IH by exact Hr.
    cbn. now rewrite orb_true_r.
Qed.

Lemma nat_digits_head (n : Z) :
  0 <= n ->
  exists c r, JS.nat_digits n = String c r /\ JS.is_digit c = true.
Proof. intros Hn. unfold JS.nat_digits. now apply digits_shape. Qed.

(** The text of an integer passes the test. *)
Lemma looksLikeMetadata_integer (n : Z) :
  looksLikeMetadata (Some (JS.Z_toString n)) = true.
Proof.
  unfold looksLikeMetadata, trim, JS.Z_toString.
  destruct (n <? 0) eqn:Hn.
  - apply Z.ltb_lt in Hn.
    assert (Hd : str_all JS.is_digit (JS.nat_digits (- n)) = true)
      by (apply nat_digits_all_digit; lia).
    destruct (nat_digits_head (- n)) as [c [r [E Hc]]]; [lia |].
    cbn [JS.skip_spaces]. replace (JS.is_space "-") with false by reflexivity.
    rewrite trimEnd_cons by reflexivity. rewrite trimEnd_digits by exact Hd.
    cbn [JS.nonempty looksLikeGroupId andb].
    replace (Ascii.eqb "-" "-") with true by reflexivity.
    unfold allDigits. rewrite Hd, E. reflexivity.
  - apply Z.ltb_ge in Hn.
    assert (Hd : str_all JS.is_digit (JS.nat_digits n) = true)
      by now apply nat_digits_all_digit.
    destruct (nat_digits_head n Hn) as [c [r [E Hc]]].
    rewrite E in *. cbn [JS.skip_spaces].
    destruct (is_digit_cases c Hc) as [Hs [Hdash _]]. rewrite Hs.
    rewrite trimEnd_digits by exact Hd.
    cbn [JS.nonempty looksLikeGroupId andb].
    apply Ascii.eqb_neq in Hdash. rewrite Hdash.
    unfold allDigits. now rewrite Hd.
Qed.

(** The encoding of a structure whose group id is negative passes the
    test. *)
Lemma looksLikeMetadata_record (d : MetaData) (z : Z) :
  superGroupChatId d = Some (JS.Num z) -> z < 0 ->
  looksLikeMetadata (Some (serialize d)) = true.
Proof.
  intros Hg Hz. unfold serialize, stringifyMetadata. rewrite Hg.
  cbn [groupIdText JS.num_toString].
  destruct (topicToFromChat d) as [| e es].
  - apply looksLikeMetadata_integer.
  - cbn [map JS.join].
    set (rest := JS.join ";" _).
    unfold looksLikeMetadata, trim, JS.Z_toString.
    assert (Hn : (z <? 0) = true) by now apply Z.ltb_lt.
    rewrite Hn.
    assert (Hd : str_all JS.is_digit (JS.nat_digits (- z)) = true)
      by (apply nat_digits_all_digit; lia).
    destruct (nat_digits_head (- z)) as [c [r [E Hc]]]; [lia |].
    cbn [append JS.skip_spaces].
    replace (JS.is_space "-") with false by reflexivity.
    rewrite trimEnd_cons by reflexivity.
    rewrite trimEnd_digits_app by exact Hd.
    rewrite trimEnd_cons by reflexivity.
    cbn [JS.nonempty looksLikeRecord andb].
    replace (Ascii.eqb "-" "-") with true by reflexivity.
    rewrite digitsThenSemicolon_digits by exact Hd.
    rewrite E. cbn. apply orb_true_r.
Qed.

(** X18.  The bot does not react to its own records: a private message of a bot,
    one whose text is an integer (as the first record of a group is), and
    one whose text is the encoding of a structure with a negative group id
    and safe ids are dropped without a request and without a change of
    state. *)
Theorem handlePrivateChat_ignores_records (gw : Gateway) (fuel : nat)
    (update : PrivateUpdate) (w : World) (d : MetaData) (z n : Z) :
  pu_from_is_bot update = true
  \/ pu_text update = Some (JS.Z_toString n)
  \/ (pu_text update = Some (serialize d)
      /\ superGroupChatId d = Some (JS.Num z) /\ z < 0
      /\ safeIds d = true) ->
  handlePrivateChat gw fuel update w = Done tt w.
Proof.
  intros H. unfold handlePrivateChat.
  destruct (pu_from_is_bot update); [reflexivity |].
  destruct H as [H | [H | [H [Hg [Hz Hsafe]]]]]; [discriminate H | |];
    rewrite H.
  - now rewrite looksLikeMetadata_integer.
  - now rewrite (looksLikeMetadata_record d z Hg Hz).
Qed.

Lemma handlePrivateChat_ignores_records_witness :
  handlePrivateChat alwaysRejecting 1
    (mkPrivateUpdate hello false 555 (Some (serialize bound_10_555)))
    (mkWorld no_binding None [])
  = Done tt (mkWorld no_binding None []).
Proof.
  apply (handlePrivateChat_ignores_records alwaysRejecting 1
           (mkPrivateUpdate hello false 555 (Some (serialize bound_10_555)))
           (mkWorld no_binding None []) bound_10_555 (-100123) 0).
  right. right.
  split; [reflexivity | split; [reflexivity | split; [lia | reflexivity]]].
Defined.

Lemma loadMetadata_pinned (gw : Gateway) (w : World) (p : Pinned) :
  gw (w_trace w) (getChat Owner)
  = okResponse (mkResult None None None (Some p)) ->
  loadMetadata gw w
  = Done (Some p)
      (mkWorld (w_meta w) (w_kv w) (w_trace w ++ [getChat Owner])).
Proof.
  intros E. unfold loadMetadata, bind, callTelegramApi. now rewrite E.
Qed.

Lemma isSupergroupAdmin_done (gw : Gateway) (g : option JS.num) (v : Z)
    (w : World) :
  isSupergroupAdmin gw g v w
  = Done (reportsAdmin (gw (w_trace w) (getChatMember (Supergroup g) v)))
      (mkWorld (w_meta w) (w_kv w)
         (w_trace w ++ [getChatMember (Supergroup g) v])).
Proof.
  unfold isSupergroupAdmin, bind. rewrite callTelegramApi_quiet.
  unfold ret, reportsAdmin.
  destruct (result _) as [r |]; [| reflexivity].
  destruct (status r); reflexivity.
Qed.

(** X19.  A block survives in the pinned record: when the owner's pinned record
    holds the encoding of a structure with safe ids in which the sender's
    topic is blocked, a private message of the sender is answered by the notice of
    the block and by nothing else; it is not copied and no topic is
    created. *)
Theorem handlePrivateChat_stops_blocked_sender (gw : Gateway) (w : World)
    (fuel : nat) (update : PrivateUpdate) (d : MetaData) (z t : Z)
    (mid : option Z) :
  let u := chat_id (pu_message update) in
  let group := Supergroup (Some (JS.Num z)) in
  let member := getChatMember group (pu_from_id update) in
  pu_from_is_bot update = false ->
  looksLikeMetadata (pu_text update) = false ->
  gw (w_trace w) (getChat Owner)
  = okResponse
      (mkResult None None None (Some (mkPinned (Some (serialize d)) mid))) ->
  reportsAdmin (gw (w_trace w ++ [getChat Owner]) member) = false ->
  superGroupChatId d = Some (JS.Num z) -> z <> 0 ->
  safeIds d = true ->
  JsMap.wf (topicToFromChat d) -> mutualInverses d ->
  JsMap.get (fromChatToTopic d) u = Some t -> t <> 0 ->
  isTopicBanned d t = true ->
  handlePrivateChat gw (S fuel) update w
  = Done tt
      (mkWorld (parseMetadataText (Some (serialize d))) (w_kv w)
         (w_trace w
          ++ [getChat Owner; member;
              sendMessage (Private u) None TextBlocked])).
Proof.
  intros u group member Hbot Htext Hpin Hadm Hg Hz Hsafe Hwf Hinv Hget Ht
    Hban.
  destruct (parse_serialize d (JS.Num z) Hg Hwf) as [Hg' [_ [Hflag Hf2t]]].
  specialize (Hf2t Hinv).
  unfold handlePrivateChat. rewrite Hbot, Htext.
  unfold bind at 1. rewrite (loadMetadata_pinned gw w _ Hpin).
  unfold parseMetaDataMessage. cbn [pin_text pin_message_id].
  rewrite Hg'. cbn [truthyGroup]. rewrite (truthy_nonzero z Hz).
  cbn [negb].
  unfold bind at 1. rewrite isSupergroupAdmin_done.
  cbn [w_meta w_kv w_trace]. fold group. fold member. rewrite Hadm.
  unfold bind at 1. unfold setMeta at 1. cbn [w_meta w_kv w_trace].
  rewrite (blocked_relay gw _ fuel _ (pu_message update) t).
  - cbn [w_meta w_kv w_trace]. rewrite <- !app_assoc. reflexivity.
  - cbn [w_meta]. rewrite Hf2t. exact Hget.
  - exact Ht.
  - cbn [w_meta]. rewrite Hflag; [exact Hban |].
    unfold JsMap.has. apply Hinv in Hget. now rewrite Hget.
Qed.

Lemma handlePrivateChat_stops_blocked_sender_witness :
  let d := markBan bound_10_555 10 true in
  handlePrivateChat
    (fun _ c =>
       match c with
       | getChat _ =>
           okResponse
             (mkResult None None None
                (Some (mkPinned (Some (serialize d)) (Some 5))))
       | _ => respondExceptCopy c
       end) 1 (mkPrivateUpdate hello false 555 (Some "hi"%string))
    (mkWorld no_binding None [])
  = Done tt
      (mkWorld (parseMetadataText (Some (serialize d))) None
         ([] ++ [getChat Owner;
                 getChatMember (Supergroup (Some (JS.Num (-100123)))) 555;
                 sendMessage (Private 555) None TextBlocked])).
Proof.
  apply (handlePrivateChat_stops_blocked_sender _
           (mkWorld no_binding None []) 0
           (mkPrivateUpdate hello false 555 (Some "hi"%string))
           (markBan bound_10_555 10 true) (-100123) 10 (Some 5));
    try reflexivity; try discriminate.
  - unfold JsMap.wf. simpl. constructor; [intros [] | constructor].
  - intros t u. cbn [topicToFromChat fromChatToTopic markBan bound_10_555].
    cbn [JsMap.get]. unfold JsMap.get. cbn [find fst snd option_map].
    destruct (Z.eqb_spec 10 t) as [<- |]; destruct (Z.eqb_spec 555 u) as [<- |];
      split; intros H; try discriminate H; try reflexivity;
      injection H as H; congruence.
Defined.

(* ------------------------------------------------------------------ *)
(** ** Threads: creation, reuse, and the relay without a thread *)

Lemma safeCall_rejected (gw : Gateway) (c : Call) (w : World) :
  ok (gw (w_trace w) c) = false -> is_sendMessage c = false ->
  safeCall gw c w
  = Done (gw (w_trace w) c)
      (mkWorld (w_meta w) (w_kv w)
         (w_trace w ++ [c; sendMessage Owner None TextApiFailure])).
Proof.
  intros H Hs. unfold safeCall, callTelegramApi. rewrite H, Hs.
  cbn [negb andb]. now rewrite <- app_assoc.
Qed.

(** X20.  The first message of a sender who is no administrator opens a thread:
    [ensureTopic] asks for the sender's membership, creates the topic,
    binds it to the sender in both indices and writes the pinned record;
    from then on it answers with that thread and posts nothing. *)
Theorem ensureTopic_creates_once (gw : Gateway) (w : World) (mm : Result)
    (u nt : Z) (msg : Message) (r : Result) :
  let d := w_meta w in
  let group := Supergroup (superGroupChatId d) in
  let member := getChatMember group u in
  let create := createForumTopic group (topic_name msg) in
  let d' := upsertMapping d nt u None in
  truthyId (JsMap.get (fromChatToTopic d) u) = false ->
  reportsAdmin (gw (w_trace w) member) = false ->
  gw (w_trace w ++ [member]) create = okResponse r ->
  message_thread_id r = Some nt -> nt <> 0 ->
  (String.length (serialize d') <= MAX_TEXT_LENGTH)%nat ->
  exists refreshed kv',
    let w' :=
      mkWorld d' kv'
        (w_trace w
         ++ [member; create;
             editMessageText Owner (message_id mm) (serialize d')]) in
    ensureTopic gw (Some mm) u msg w = Done (nt, refreshed) w'
    /\ JsMap.get (fromChatToTopic d') u = Some nt
    /\ JsMap.get (topicToFromChat d') nt = Some u
    /\ (forall mm' msg',
          ensureTopic gw mm' u msg' w' = Done (nt, mm') w').
Proof.
  intros d group member create d' Hun Hadm Hcreate Hthread Hnt Hlen.
  destruct (updateMapping_fits gw
              (mkWorld d' (w_kv w) (w_trace w ++ [member; create])) mm Hlen)
    as [refreshed [kv' Eu]].
  cbn [w_meta w_kv w_trace] in Eu.
  exists refreshed, kv'. cbv zeta.
  assert (Hbound : JsMap.get (fromChatToTopic d') u = Some nt)
    by (unfold d'; rewrite upsertMapping_fromChatToTopic;
        apply get_set_same).
  split; [| split; [exact Hbound | split]].
  - assert (Ecreate :
      createTopic gw (Some mm) u msg w
      = Done (nt, refreshed)
          (mkWorld d' kv'
             (w_trace w
              ++ [member; create;
                  editMessageText Owner (message_id mm) (serialize d')]))).
    { unfold createTopic.
      unfold bind at 1. unfold getMeta at 1.
      unfold bind at 1. rewrite isSupergroupAdmin_done.
      fold d. fold group. fold member. rewrite Hadm.
      cbn [w_meta w_kv w_trace].
      unfold bind at 1. fold create.
      rewrite safeCall_ok
        by (cbn [w_trace]; now rewrite Hcreate).
      cbn [w_meta w_kv w_trace]. rewrite Hcreate.
      cbn [okResponse result ok]. rewrite Hthread.
      rewrite (truthy_nonzero nt Hnt). cbn [andb].
      unfold bind at 1. unfold setMeta at 1. cbn [w_meta w_kv w_trace].
      fold d'. rewrite <- app_assoc. cbn [app].
      unfold bind. rewrite Eu. rewrite <- app_assoc. reflexivity. }
    unfold ensureTopic. unfold bind at 1. unfold getMeta at 1.
    fold d. destruct (JsMap.get (fromChatToTopic d) u) as [t0 |].
    + cbn [truthyId] in Hun. rewrite Hun. exact Ecreate.
    + exact Ecreate.
  - unfold d'. rewrite upsertMapping_topicToFromChat. apply get_set_same.
  - intros mm' msg'. unfold ensureTopic.
    unfold bind at 1. unfold getMeta at 1. cbn [w_meta].
    rewrite Hbound, (truthy_nonzero nt Hnt). reflexivity.
Qed.

Lemma ensureTopic_creates_once_witness :
  let w := mkWorld no_binding None [] in
  let group := Supergroup (Some (JS.Num (-100123))) in
  let member := getChatMember group 555 in
  let create := createForumTopic group "Guest (555)" in
  let d' := upsertMapping no_binding 11 555 None in
  exists refreshed kv',
    let w' :=
      mkWorld d' kv'
        (w_trace w
         ++ [member; create;
             editMessageText Owner (Some 5) (serialize d')]) in
    ensureTopic alwaysRejecting (Some (mkResult None (Some 5) None None))
      555 hello w
    = Done (11, refreshed) w'
    /\ JsMap.get (fromChatToTopic d') 555 = Some 11
    /\ JsMap.get (topicToFromChat d') 11 = Some 555
    /\ (forall mm' msg',
          ensureTopic alwaysRejecting mm' 555 msg' w' = Done (11, mm') w').
Proof.
  apply (ensureTopic_creates_once alwaysRejecting
           (mkWorld no_binding None [])
           (mkResult None (Some 5) None None) 555 11 hello
           (mkResult (Some 11) None None None));
    try reflexivity; try discriminate.
  apply Nat.leb_le. vm_compute. reflexivity.
Defined.

(** X21.  A sender who cannot get a thread is not relayed.  When the sender is
    an administrator of the group, or the platform refuses to create the
    topic, the relay ends at once: the owner is told, the sender's message
    gets the failure mark, the structure and the store are as before, and
    no message is copied. *)
Theorem relay_without_thread_gives_up (gw : Gateway) (w : World)
    (fuel : nat) (mm : option Result) (msg : Message) :
  let d := w_meta w in
  let u := chat_id msg in
  let group := Supergroup (superGroupChatId d) in
  let member := getChatMember group u in
  let create := createForumTopic group (topic_name msg) in
  let isAdmin := reportsAdmin (gw (w_trace w) member) in
  let told :=
    if isAdmin then []
    else [create; sendMessage Owner None TextApiFailure;
          sendMessage Owner None TextCreateTopicFailed] in
  truthyId (JsMap.get (fromChatToTopic d) u) = false ->
  isAdmin = true \/ ok (gw (w_trace w ++ [member]) create) = false ->
  exists marks,
    forwardPrivateToTopic gw (S fuel) mm msg w
    = Done tt
        (mkWorld d (w_kv w)
           (w_trace w
            ++ member :: told
            ++ sendMessage Owner None TextForwardFailed :: marks))
    /\ forallb isReaction marks = true
    /\ copyCalls (member :: told ++ marks) = 0%nat.
Proof.
  intros d u group member create isAdmin told Hun Hfail.
  set (after := w_trace w ++ member :: told
                ++ [sendMessage Owner None TextForwardFailed]).
  destruct (setReaction_done gw (Private u) (msg_id msg) [Cross]
              (mkWorld d (w_kv w) after)) as [resp [marks [Emark Hmarks]]].
  cbn [w_meta w_kv w_trace] in Emark.
  exists marks.
  assert (Hcopies : copyCalls (member :: told ++ marks) = 0%nat).
  { assert (Hm : forall l, forallb isReaction l = true ->
                           copyCalls l = 0%nat).
    { induction l as [| c l IH]; [reflexivity |].
      cbn [forallb]. intros H. apply andb_true_iff in H as [Hc Hl].
      unfold copyCalls in *. cbn [filter].
      destruct c; try discriminate Hc. cbn [isCopy]. now apply IH. }
    specialize (Hm marks Hmarks). unfold copyCalls in *.
    cbn [filter member isCopy]. rewrite filter_app, length_app, Hm.
    unfold told. destruct isAdmin; reflexivity. }
  split; [| split; [exact Hmarks | exact Hcopies]].
  assert (Ethrow : exists e,
             ensureTopic gw mm u msg w
             = Thrown e (mkWorld d (w_kv w) (w_trace w ++ member :: told))).
  { assert (Ecreate : exists e,
               createTopic gw mm u msg w
               = Thrown e
                   (mkWorld d (w_kv w) (w_trace w ++ member :: told))).
    { unfold createTopic.
      unfold bind at 1. unfold getMeta at 1.
      unfold bind at 1. rewrite isSupergroupAdmin_done.
      fold d. fold group. fold member. fold isAdmin.
      unfold told. destruct isAdmin eqn:Eadm.
      - eexists. unfold throw. reflexivity.
      - destruct Hfail as [Hfail | Hfail]; [discriminate Hfail |].
        cbn [w_meta w_kv w_trace].
        unfold bind at 1. fold create.
        rewrite safeCall_rejected by (cbn [w_trace]; auto).
        cbn [w_meta w_kv w_trace]. rewrite Hfail. cbn [andb].
        destruct (match result (gw (w_trace w ++ [member]) create) with
                  | Some r => message_thread_id r
                  | None => None
                  end);
          unfold bind; rewrite safeCall_sendMessage; unfold throw;
          cbn [w_meta w_kv w_trace]; rewrite <- !app_assoc;
          eexists; reflexivity. }
    unfold ensureTopic. unfold bind at 1. unfold getMeta at 1.
    fold d. fold u in Hun.
    destruct (JsMap.get (fromChatToTopic d) u) as [t0 |].
    - cbn [truthyId] in Hun. rewrite Hun. exact Ecreate.
    - exact Ecreate. }
  destruct Ethrow as [e Ethrow].
  cbn [forwardPrivateToTopic].
  unfold bind at 1. unfold getMeta at 1. fold d. fold u.
  assert (Egate : match JsMap.get (fromChatToTopic d) u with
                  | Some existingTopicId =>
                      JS.truthy existingTopicId
                      && isTopicBanned d existingTopicId
                  | None => false
                  end = false).
  { destruct (JsMap.get (fromChatToTopic d) u) as [t0 |]; [| reflexivity].
    cbn [truthyId] in Hun. now rewrite Hun. }
  rewrite Egate.
  unfold bind at 1. unfold relayAttempt, tryCatch.
  unfold bind at 1. fold u. rewrite Ethrow.
  unfold bind at 1. rewrite safeCall_sendMessage.
  cbn [w_meta w_kv w_trace].
  unfold bind at 1. unfold notifyMessageFailed, bind at 1.
  replace ((w_trace w ++ member :: told)
           ++ [sendMessage Owner None TextForwardFailed]) with after
    by (unfold after; rewrite <- app_assoc; reflexivity).
  rewrite Emark. unfold ret. unfold after.
  repeat (rewrite <- app_assoc; cbn [app]). reflexivity.
Qed.

Lemma relay_without_thread_gives_up_witness :
  let w := mkWorld no_binding None [] in
  let group := Supergroup (Some (JS.Num (-100123))) in
  let member := getChatMember group 555 in
  exists marks,
    forwardPrivateToTopic adminGateway 1 pinnedRecord hello w
    = Done tt
        (mkWorld no_binding None
           ([] ++ member :: []
            ++ sendMessage Owner None TextForwardFailed :: marks))
    /\ forallb isReaction marks = true
    /\ copyCalls (member :: [] ++ marks) = 0%nat.
Proof.
  apply (relay_without_thread_gives_up adminGateway
           (mkWorld no_binding None []) 0 pinnedRecord hello).
  - reflexivity.
  - left. reflexivity.
Defined.

(* ------------------------------------------------------------------ *)
(** ** Thread titles: [buildTopicName] *)

Lemma digits_length (fuel : nat) :
  forall n acc k, 0 <= n < 10 ^ Z.of_nat (S k) ->
    (String.length (JS.digits fuel n acc) <= S k + String.length acc)%nat.
Proof.
  induction fuel as [| f IH]; intros n acc k Hn.
  - cbn [JS.digits]. lia.
  - cbn [JS.digits]. destruct (n <? 10) eqn:E.
    + cbn [String.length]. lia.
    + apply Z.ltb_ge in E.
      destruct k as [| k'].
      * change (10 ^ Z.of_nat 1) with 10 in Hn. lia.
      * assert (Hq : 0 <= n / 10 < 10 ^ Z.of_nat (S k')).
        { split; [apply Z.div_pos; lia |].
          apply Z.div_lt_upper_bound; [lia |].
          replace (Z.of_nat (S (S k'))) with (Z.succ (Z.of_nat (S k')))
            in Hn by lia.
          rewrite Z.pow_succ_r in Hn by lia. lia. }
        specialize (IH (n / 10)
                      (String (JS.digit_char (n mod 10)) acc) k' Hq).
        cbn [String.length] in IH. lia.
Qed.

Lemma Z_toString_length (z : Z) (k : nat) :
  Z.abs z < 10 ^ Z.of_nat (S k) ->
  (String.length (JS.Z_toString z) <= S (S k))%nat.
Proof.
  intros H. unfold JS.Z_toString, JS.nat_digits.
  destruct (z <? 0) eqn:E.
  - apply Z.ltb_lt in E. cbn [String.length].
    pose proof (digits_length (S (Z.to_nat (Z.log2 (- z)))) (- z)
                  EmptyString k) as Hd.
    cbn [String.length] in Hd. lia.
  - apply Z.ltb_ge in E.
    pose proof (digits_length (S (Z.to_nat (Z.log2 z))) z
                  EmptyString k) as Hd.
    cbn [String.length] in Hd. lia.
Qed.

Lemma topicDisplay_nonempty (p : Profile) :
  JS.nonempty (topicDisplay p) = true.
Proof.
  unfold topicDisplay.
  match goal with
  | |- JS.nonempty (if JS.nonempty ?u then _ else _) = true =>
      destruct (JS.nonempty u) eqn:E; [exact E | reflexivity]
  end.
Qed.

Lemma slice0_nonempty (n : nat) (s : string) :
  JS.nonempty s = true -> JS.nonempty (JS.slice0 (S n) s) = true.
Proof. destruct s; [discriminate | reflexivity]. Qed.

(** X22.  A thread title is at most 120 characters long and never starts with
    the separator: its name part is not empty (a sender without any name
    is called Guest).  When the ids have at most 16 digits, as the ids of
    the platform do, the title ends with the complete id suffix, whatever
    the length of the sender's name: the title is the name, cut to 80
    characters, a space, and the suffix. *)
Theorem buildTopicName_keeps_the_ids (p : Profile) (fallbackId : Z) :
  Z.abs (topicBaseId p fallbackId) < 10 ^ 16 ->
  (forall f, prof_from_id p = Some f -> Z.abs f < 10 ^ 16) ->
  (String.length (buildTopicName p fallbackId) <= 120)%nat
  /\ exists name,
       JS.nonempty name = true
       /\ (String.length name <= 80)%nat
       /\ buildTopicName p fallbackId
          = (name ++ " " ++ topicSuffix p fallbackId)%string.
Proof.
  intros Hbase Hfrom. split; [apply slice0_length |].
  exists (JS.slice0 80 (topicDisplay p)).
  split; [apply slice0_nonempty, topicDisplay_nonempty |].
  split; [apply slice0_length |].
  unfold buildTopicName. apply slice0_short.
  pose proof (slice0_length 80 (topicDisplay p)) as Hname.
  rewrite !str_length_app. cbn [String.length].
  assert (Hb : (String.length (JS.Z_toString (topicBaseId p fallbackId))
                <= 17)%nat)
    by (apply (Z_toString_length _ 15); exact Hbase).
  assert (Hsuf : (String.length (topicSuffix p fallbackId) <= 38)%nat).
  { unfold topicSuffix.
    destruct (prof_from_id p) as [f |] eqn:Ef.
    - assert (Hf : (String.length (JS.Z_toString f) <= 17)%nat)
        by (apply (Z_toString_length _ 15); now apply Hfrom).
      destruct (JS.truthy f && negb (f =? topicBaseId p fallbackId));
        rewrite !str_length_app; cbn [String.length]; lia.
    - rewrite !str_length_app. cbn [String.length]. lia. }
  lia.
Qed.

Lemma buildTopicName_keeps_the_ids_witness :
  let p := mkProfile 555 None (Some "Ada"%string) (Some "L"%string)
             (Some 777) in
  (String.length (buildTopicName p 555) <= 120)%nat
  /\ exists name,
       JS.nonempty name = true
       /\ (String.length name <= 80)%nat
       /\ buildTopicName p 555
          = (name ++ " " ++ topicSuffix p 555)%string.
Proof.
  apply (buildTopicName_keeps_the_ids
           (mkProfile 555 None (Some "Ada"%string) (Some "L"%string)
              (Some 777)) 555).
  - vm_compute. reflexivity.
  - intros f E. injection E as <-. vm_compute. reflexivity.
Defined.

(* ------------------------------------------------------------------ *)
(** ** The key-value store: groups do not interfere *)

Lemma num_toString_inj (a b : JS.num) :
  JS.num_toString a = JS.num_toString b -> a = b.
Proof.
  destruct a as [| x], b as [| y]; cbn [JS.num_toString]; intros E.
  - reflexivity.
  - exfalso. pose proof (Z_toString_chars y) as H. rewrite <- E in H.
    discriminate H.
  - exfalso. pose proof (Z_toString_chars x) as H. rewrite E in H.
    discriminate H.
  - f_equal. now apply Z_toString_inj.
Qed.

Lemma groupKey_inj (g g' : option JS.num) :
  groupKey g = groupKey g' -> g = g'.
Proof.
  destruct g as [a |], g' as [b |]; cbn [groupKey]; intros E.
  - f_equal. now apply num_toString_inj.
  - exfalso. destruct a as [| x]; [discriminate E |].
    pose proof (Z_toString_chars x) as H. cbn [JS.num_toString] in E.
    rewrite E in H. discriminate H.
  - exfalso. destruct b as [| y]; [discriminate E |].
    pose proof (Z_toString_chars y) as H. cbn [JS.num_toString] in E.
    rewrite <- E in H. discriminate H.
  - reflexivity.
Qed.

Lemma saveMappingsToKV_other (kv : KvStore) (g g' : option JS.num)
    (ls : list Link) :
  g' <> g ->
  loadMappingsFromKV (saveMappingsToKV kv g ls) g' = loadMappingsFromKV kv g'.
Proof.
  intros Hne. unfold saveMappingsToKV.
  destruct (kv_put_throws kv); [reflexivity |].
  unfold loadMappingsFromKV. cbn [kv_get_throws kv_mappings].
  destruct (String.eqb_spec (groupKey g') (groupKey g)) as [E |];
    [| reflexivity].
  now apply groupKey_inj in E.
Qed.

(** X23.  What the store keeps for one group is out of reach of the writes for
    another: appending a link or purging a topic for a group leaves the
    links of every other group as they were, and none of the two touches
    the saved structure of any group; saving the structure of a group
    leaves that of every other group and all links as they were. *)
Theorem kv_groups_do_not_interfere (kv : KvStore) (g g' : option JS.num)
    (t tm pm : Z) (d : MetaData) :
  g' <> g ->
  loadMappingsFromKV (addMessageMappingKV kv g t tm pm) g'
  = loadMappingsFromKV kv g'
  /\ (forall kv',
        cleanupTopicMessages (Some kv) g t = Some kv' ->
        loadMappingsFromKV kv' g' = loadMappingsFromKV kv g'
        /\ kv_topics kv' = kv_topics kv)
  /\ kv_topics (addMessageMappingKV kv g t tm pm) = kv_topics kv
  /\ kv_topics (saveTopicMappingToKV kv g d) (groupKey g')
     = kv_topics kv (groupKey g')
  /\ (forall h,
        loadMappingsFromKV (saveTopicMappingToKV kv g d) h
        = loadMappingsFromKV kv h).
Proof.
  intros Hne.
  assert (Htopics : forall ls,
             kv_topics (saveMappingsToKV kv g ls) = kv_topics kv).
  { intros ls. unfold saveMappingsToKV.
    now destruct (kv_put_throws kv). }
  split; [| split; [| split; [| split]]].
  - unfold addMessageMappingKV. now apply saveMappingsToKV_other.
  - intros kv' E. cbn [cleanupTopicMessages] in E. injection E as <-.
    split; [now apply saveMappingsToKV_other | apply Htopics].
  - unfold addMessageMappingKV. apply Htopics.
  - unfold saveTopicMappingToKV.
    destruct (kv_put_throws kv); [reflexivity |]. cbn [kv_topics].
    destruct (String.eqb_spec (groupKey g') (groupKey g)) as [E |];
      [| reflexivity].
    now apply groupKey_inj in E.
  - intros h. unfold saveTopicMappingToKV.
    now destruct (kv_put_throws kv).
Qed.

Lemma kv_groups_do_not_interfere_witness :
  let kv := addMessageMappingKV emptyKv (Some (JS.Num (-100200))) 10 77 1 in
  let g := Some (JS.Num (-100123)) in
  let g' := Some (JS.Num (-100200)) in
  loadMappingsFromKV (addMessageMappingKV kv g 10 78 2) g'
  = loadMappingsFromKV kv g'
  /\ (forall kv',
        cleanupTopicMessages (Some kv) g 10 = Some kv' ->
        loadMappingsFromKV kv' g' = loadMappingsFromKV kv g'
        /\ kv_topics kv' = kv_topics kv)
  /\ kv_topics (addMessageMappingKV kv g 10 78 2) = kv_topics kv
  /\ kv_topics (saveTopicMappingToKV kv g bound_10_555) (groupKey g')
     = kv_topics kv (groupKey g')
  /\ (forall h,
        loadMappingsFromKV (saveTopicMappingToKV kv g bound_10_555) h
        = loadMappingsFromKV kv h).
Proof.
  apply (kv_groups_do_not_interfere
           (addMessageMappingKV emptyKv (Some (JS.Num (-100200))) 10 77 1)
           (Some (JS.Num (-100123))) (Some (JS.Num (-100200))) 10 78 2
           bound_10_555).
  discriminate.
Defined.

(* ------------------------------------------------------------------ *)
(** ** Lifting a block: [unbanTopic] *)

(** X24.  Lifting the block of a topic that is listed once clears its flag,
    writes the structure to the pinned record and confirms in the topic;
    the user is told only when the command is not silent and the topic is
    bound to a user.  No binding is required: the flag of a topic that is
    bound to nobody is cleared all the same. *)
Theorem unbanTopic_lifts_the_block (gw : Gateway) (w : World)
    (cmd : BanCommand) (mm : Result) (silent : bool) (t chat : Z) :
  cmd_thread cmd = Some t -> cmd_chat cmd = Some chat ->
  t <> 0 -> chat <> 0 ->
  isTopicBanned (w_meta w) t = true ->
  at_most_once (JS.Z_toString t) (bannedTopics (w_meta w)) ->
  (String.length (serialize (markBan (w_meta w) t false)) <= MAX_TEXT_LENGTH)%nat ->
  let d' := markBan (w_meta w) t false in
  let bound := JsMap.get (topicToFromChat (w_meta w)) t in
  let said :=
    editMessageText Owner (message_id mm) (serialize d')
    :: sendMessage (Supergroup (Some (JS.Num chat))) (Some t) textUnbanned
    :: match bound with
       | Some u =>
           if negb silent && JS.truthy u
           then [sendMessage (Private u) None textYouAreUnbanned]
           else []
       | None => []
       end in
  exists kv',
    unbanTopic gw cmd (Some mm) silent w
    = Done tt (mkWorld d' kv' (w_trace w ++ said))
    /\ isTopicBanned d' t = false.
Proof.
  intros Hth Hch Ht Hc Hban Honce Hlen d' bound said.
  destruct (updateMapping_fits gw
              (mkWorld d' (w_kv w) (w_trace w)) mm Hlen)
    as [refreshed [kv' Eu]].
  cbn [w_meta w_kv w_trace] in Eu. fold d' in Eu.
  exists kv'. split; [| now apply isTopicBanned_markBan_false].
  unfold unbanTopic. rewrite Hth, Hch.
  rewrite (truthy_nonzero t Ht), (truthy_nonzero chat Hc). cbn [andb].
  unfold bind at 1. unfold getMeta at 1. cbv zeta. rewrite Hban.
  cbn [negb]. unfold tryCatch.
  unfold bind at 1. unfold setMeta at 1. cbn [w_meta w_kv w_trace].
  fold d'. unfold bind at 1. rewrite Eu.
  unfold bind at 1. rewrite notifyTopic_done. cbn [w_meta w_kv w_trace].
  unfold said, bound.
  destruct (JsMap.get (topicToFromChat (w_meta w)) t) as [u |];
    cbn [truthyId].
  - destruct (negb silent && JS.truthy u).
    + unfold bind. rewrite safeCall_sendMessage. cbn [w_meta w_kv w_trace].
      unfold ret. rewrite <- !app_assoc. reflexivity.
    + unfold ret. rewrite <- app_assoc. reflexivity.
  - rewrite andb_false_r. unfold ret. rewrite <- app_assoc. reflexivity.
Qed.

Lemma unbanTopic_lifts_the_block_witness :
  let w := mkWorld (markBan bound_10_555 10 true) None [] in
  let d' := markBan (w_meta w) 10 false in
  let bound := JsMap.get (topicToFromChat (w_meta w)) 10 in
  let said :=
    editMessageText Owner (Some 5) (serialize d')
    :: sendMessage (Supergroup (Some (JS.Num (-100123)))) (Some 10)
         textUnbanned
    :: match bound with
       | Some u =>
           if negb false && JS.truthy u
           then [sendMessage (Private u) None textYouAreUnbanned]
           else []
       | None => []
       end in
  exists kv',
    unbanTopic alwaysRejecting (mkBanCommand (Some 10) (Some (-100123)))
      (Some (mkResult None (Some 5) None None)) false w
    = Done tt (mkWorld d' kv' (w_trace w ++ said))
    /\ isTopicBanned d' 10 = false.
Proof.
  apply (unbanTopic_lifts_the_block alwaysRejecting
           (mkWorld (markBan bound_10_555 10 true) None [])
           (mkBanCommand (Some 10) (Some (-100123)))
           (mkResult None (Some 5) None None) false 10 (-100123));
    try reflexivity; try discriminate.
  - unfold at_most_once. vm_compute. lia.
  - apply Nat.leb_le. vm_compute. reflexivity.
Defined.

(* ------------------------------------------------------------------ *)
(** ** The private entry point: refusals *)

Lemma loadMetadata_ok (gw : Gateway) (w : World) (pinned : option Pinned) :
  gw (w_trace w) (getChat Owner)
  = okResponse (mkResult None None None pinned) ->
  loadMetadata gw w
  = Done pinned
      (mkWorld (w_meta w) (w_kv w) (w_trace w ++ [getChat Owner])).
Proof.
  intros E. unfold loadMetadata, bind, callTelegramApi. now rewrite E.
Qed.

(** X25.  Before the relay is entered, [handlePrivateChat] turns the sender
    away in three cases: the owner's chat has no pinned record, the record
    names no usable group, or the sender is an administrator of the group.
    The sender then gets one notice; no topic is created, nothing is
    copied, and the structure and the store are as before. *)
Theorem handlePrivateChat_refuses (gw : Gateway) (w : World) (fuel : nat)
    (update : PrivateUpdate) (pinned : option Pinned) :
  let u := chat_id (pu_message update) in
  let d := parseMetaDataMessage pinned in
  let member :=
    getChatMember (Supergroup (superGroupChatId d)) (pu_from_id update) in
  let said :=
    match pinned with
    | None => [sendMessage (Private u) None textNotInitialised]
    | Some _ =>
        if truthyGroup (superGroupChatId d)
        then [member; sendMessage (Private u) None textAdminNeedsNoBot]
        else [sendMessage (Private u) None textGroupMissing]
    end in
  pu_from_is_bot update = false ->
  looksLikeMetadata (pu_text update) = false ->
  gw (w_trace w) (getChat Owner)
  = okResponse (mkResult None None None pinned) ->
  pinned = None
  \/ truthyGroup (superGroupChatId d) = false
  \/ reportsAdmin (gw (w_trace w ++ [getChat Owner]) member) = true ->
  handlePrivateChat gw fuel update w
  = Done tt
      (mkWorld (w_meta w) (w_kv w) (w_trace w ++ getChat Owner :: said)).
Proof.
  intros u d member said Hbot Htext Hpin Hcase.
  unfold handlePrivateChat. rewrite Hbot, Htext.
  unfold bind at 1. rewrite (loadMetadata_ok gw w pinned Hpin).
  unfold said. destruct pinned as [p |].
  - fold d. destruct (truthyGroup (superGroupChatId d)) eqn:Eg; cbn [negb].
    + destruct Hcase as [H | [H | Hadm]]; try discriminate H.
      unfold bind at 1. rewrite isSupergroupAdmin_done.
      cbn [w_meta w_kv w_trace]. fold member. rewrite Hadm.
      unfold bind. rewrite safeCall_sendMessage.
      cbn [w_meta w_kv w_trace]. unfold ret. fold u.
      rewrite <- !app_assoc. reflexivity.
    + unfold bind. rewrite safeCall_sendMessage.
      cbn [w_meta w_kv w_trace]. unfold ret. fold u.
      rewrite <- !app_assoc. reflexivity.
  - unfold bind. rewrite safeCall_sendMessage.
    cbn [w_meta w_kv w_trace]. unfold ret. fold u.
    rewrite <- !app_assoc. reflexivity.
Qed.

Lemma handlePrivateChat_refuses_witness :
  handlePrivateChat (fun _ _ => okResponse (mkResult None None None None)) 1
    (mkPrivateUpdate hello false 555 (Some "hi"%string))
    (mkWorld no_binding None [])
  = Done tt
      (mkWorld no_binding None
         ([] ++ getChat Owner
             :: [sendMessage (Private 555) None textNotInitialised])).
Proof.
  apply (handlePrivateChat_refuses
           (fun _ _ => okResponse (mkResult None None None None))
           (mkWorld no_binding None []) 1
           (mkPrivateUpdate hello false 555 (Some "hi"%string)) None);
    try reflexivity.
  now left.
Defined.
